(** * On-screen menu plugin and deauth toggle script: model and properties

    The development embeds two programs of the repository:

    - [scripts/toggle_deauth.py], the script that flips the persisted deauth
      flag, writes an audit line and optionally notifies the local agent
      (module [ToggleDeauth]);
    - [onscreen_menu.py], the GPIO-button menu plugin: debounced edges, the
      menu state machine, the action dispatcher and the paginated viewers
      (module [OnscreenMenu]).

    Python text is a list of Unicode code points, Python exceptions are an
    explicit outcome, and every side effect (files, processes started,
    screens drawn, threads started, time spent sleeping) is a field of an
    explicit world state threaded through a small state-and-exception monad. *)

From Stdlib Require Import ZArith NArith Ascii String Lia.
From stdpp Require Import gmap strings list fin_maps pretty.

Local Open Scope N_scope.

(** ** Python values *)

Module Py.

(** A Python [str]: its sequence of code points. *)
Definition str := list N.

(** The text of an ASCII literal. *)
Fixpoint py (s : string) : str :=
  match s with
  | EmptyString => []
  | String a s' => N_of_ascii a :: py s'
  end.

(** [==] on [str]. *)
Fixpoint str_eqb (a b : str) : bool :=
  match a, b with
  | [], [] => true
  | x :: a', y :: b' => (x =? y) && str_eqb a' b'
  | _, _ => false
  end.

(** [str.isspace] on one code point (CPython's [_PyUnicode_IsWhitespace]). *)
Definition isspace (c : N) : bool :=
  ((0x09 <=? c) && (c <=? 0x0D)) || ((0x1C <=? c) && (c <=? 0x1F))
  || (c =? 0x20) || (c =? 0x85) || (c =? 0xA0) || (c =? 0x1680)
  || ((0x2000 <=? c) && (c <=? 0x200A))
  || (c =? 0x2028) || (c =? 0x2029) || (c =? 0x202F) || (c =? 0x205F)
  || (c =? 0x3000).

Fixpoint lstrip (s : str) : str :=
  match s with
  | [] => []
  | c :: s' => if isspace c then lstrip s' else s
  end.

Definition rstrip (s : str) : str := rev (lstrip (rev s)).

(** [s.strip()] *)
Definition strip (s : str) : str := rstrip (lstrip s).

(** The line boundaries of [str.splitlines] other than the pair CR LF. *)
Definition islinebreak (c : N) : bool :=
  ((0x0A <=? c) && (c <=? 0x0D)) || ((0x1C <=? c) && (c <=? 0x1E))
  || (c =? 0x85) || (c =? 0x2028) || (c =? 0x2029).

(** [s.splitlines()]: [cur] is the line being read, reversed. *)
Fixpoint splitlines_from (cur : str) (s : str) : list str :=
  match s with
  | [] => match cur with [] => [] | _ => [rev cur] end
  | c :: s' =>
      if c =? 0x0D then
        match s' with
        | d :: s'' =>
            if d =? 0x0A then rev cur :: splitlines_from [] s''
            else rev cur :: splitlines_from [] s'
        | [] => rev cur :: splitlines_from [] s'
        end
      else if islinebreak c then rev cur :: splitlines_from [] s'
      else splitlines_from (c :: cur) s'
  end.

Definition splitlines (s : str) : list str := splitlines_from [] s.

(** A raised exception: its class and [str(e)]. Only instances of
    [Exception] are modelled, the class every handler of the sources names. *)
Record exn := Exn { exn_class : string; exn_str : str }.

(** How a call ends: it returns a value or raises. *)
Inductive outcome (A : Type) : Type :=
| Ret (a : A)
| Raise (e : exn).
Arguments Ret {A} a.
Arguments Raise {A} e.

(** What the modelled functions return: [None] or a [str]. *)
Inductive value := PNone | PStr (s : str).

(** [bool(v)], the test behind [if not out]. *)
Definition truthy (v : value) : bool :=
  match v with
  | PNone => false
  | PStr [] => false
  | PStr (_ :: _) => true
  end.

(** [a % b] on Python integers. *)
Definition py_mod (a b : Z) : outcome Z :=
  if (b =? 0)%Z then Raise (Exn "ZeroDivisionError" (py "integer modulo by zero"))
  else Ret (a mod b)%Z.

(** [l[i]] with Python's negative indices. *)
Definition py_index {A} (l : list A) (i : Z) : outcome A :=
  let n := Z.of_nat (length l) in
  let j := if (i <? 0)%Z then (i + n)%Z else i in
  if ((0 <=? j)%Z && (j <? n)%Z)%bool then
    match l !! Z.to_nat j with
    | Some x => Ret x
    | None => Raise (Exn "IndexError" (py "list index out of range"))
    end
  else Raise (Exn "IndexError" (py "list index out of range")).

(** [l[i:j]] for [0 <= i <= j]. *)
Definition slice {A} (l : list A) (i j : nat) : list A := take (j - i) (drop i l).

(** [range(0, n, step)] for [step > 0]; [fuel] bounds the number of items. *)
Fixpoint range_from (fuel : nat) (i n step : nat) : list nat :=
  match fuel with
  | O => []
  | S fuel' => if (i <? n)%nat then i :: range_from fuel' (i + step) n step else []
  end.

Definition range_step (n step : nat) : list nat := range_from n 0 n step.

(** ** The monad of effectful code

    A computation runs from a state and either returns or raises, with the
    state reached, or yields nothing: it is still blocked when the recorded
    input ends. An exception does not undo the effects made before it. *)
Section Monad.
Context {St : Type}.

Definition M (A : Type) : Type := St -> option (outcome A * St).

Definition ret {A} (a : A) : M A := fun s => Some (Ret a, s).

Definition raise {A} (e : exn) : M A := fun s => Some (Raise e, s).

Definition bind {A B} (m : M A) (k : A -> M B) : M B :=
  fun s =>
    match m s with
    | Some (Ret a, s') => k a s'
    | Some (Raise e, s') => Some (Raise e, s')
    | None => None
    end.

(** [try: m  except Exception as e: handler e] *)
Definition try_except {A} (m : M A) (handler : exn -> M A) : M A :=
  fun s =>
    match m s with
    | Some (Raise e, s') => handler e s'
    | r => r
    end.

Definition lift {A} (o : outcome A) : M A := fun s => Some (o, s).

Definition get : M St := fun s => Some (Ret s, s).

Definition modify (f : St -> St) : M unit := fun s => Some (Ret tt, f s).

(** [a or b] on calls: [b] runs only when [a] is false. *)
Definition orM (a b : M bool) : M bool :=
  bind a (fun x => if x then ret true else b).
End Monad.
Arguments M : clear implicits.

End Py.

Import Py.

Declare Scope py_scope.
Delimit Scope py_scope with py.
Notation "'let*' x ':=' m 'in' k" := (bind m (fun x => k))
  (at level 10, x name, m at level 100, k at level 200,
   format "'[v' 'let*'  x  ':='  m  'in' '/' k ']'") : py_scope.
Local Open Scope py_scope.

(** ** JSON text, as [json.dumps] writes it *)

Module Json.

Inductive jval :=
| JStr (s : str)
| JBool (b : bool)
| JNum (repr : str).

(** A Python [dict] with [str] keys, in insertion order. *)
Definition dict := list (str * jval).

(** [d[k] = v]: an existing key keeps its place. *)
Fixpoint dict_set (d : dict) (k : str) (v : jval) : dict :=
  match d with
  | [] => [(k, v)]
  | (k', v') :: d' =>
      if str_eqb k' k then (k, v) :: d' else (k', v') :: dict_set d' k v
  end.

Fixpoint dict_get (d : dict) (k : str) : option jval :=
  match d with
  | [] => None
  | (k', v') :: d' => if str_eqb k' k then Some v' else dict_get d' k
  end.

Definition hex_digit (n : N) : N :=
  if n <? 10 then 48 + n else 87 + n.

(** [\uXXXX] *)
Definition u_escape (c : N) : str :=
  [92; 117; hex_digit (c / 4096 mod 16); hex_digit (c / 256 mod 16);
   hex_digit (c / 16 mod 16); hex_digit (c mod 16)].

(** One character of a string under [ensure_ascii=True]. *)
Definition escape_char (c : N) : str :=
  if c =? 34 then [92; 34]
  else if c =? 92 then [92; 92]
  else if c =? 10 then [92; 110]
  else if c =? 13 then [92; 114]
  else if c =? 9 then [92; 116]
  else if c =? 12 then [92; 102]
  else if c =? 8 then [92; 98]
  else if (32 <=? c) && (c <=? 126) then [c]
  else if c <? 0x10000 then u_escape c
  else
    let v := c - 0x10000 in
    u_escape (0xD800 + v / 1024) ++ u_escape (0xDC00 + v mod 1024).

Definition dumps_str (s : str) : str :=
  [34] ++ concat (map escape_char s) ++ [34].

Definition dumps_val (v : jval) : str :=
  match v with
  | JStr s => dumps_str s
  | JBool true => py "true"
  | JBool false => py "false"
  | JNum r => r
  end.

Fixpoint dumps_items (d : dict) : str :=
  match d with
  | [] => []
  | [(k, v)] => dumps_str k ++ py ": " ++ dumps_val v
  | (k, v) :: d' => dumps_str k ++ py ": " ++ dumps_val v ++ py ", " ++ dumps_items d'
  end.

(** [json.dumps(d)] *)
Definition dumps (d : dict) : str := py "{" ++ dumps_items d ++ py "}".

(** The characters from the space to the tilde, all that [json.dumps]
    writes for strings and booleans. *)
Definition printable (c : N) : bool := (32 <=? c) && (c <=? 126).

(** A value that is not a number. *)
Definition not_number (v : jval) : bool :=
  match v with JNum _ => false | _ => true end.

End Json.

(** ** scripts/toggle_deauth.py *)

Module ToggleDeauth.
Import Json.

Definition DEAUTH_FLAG : string := "/var/lib/pwnagotchi/deauth_enabled".
Definition DEAUTH_ALLOW : string := "/etc/pwnagotchi/allow_deauth".
Definition DEAUTH_TOKEN : string := "/etc/pwnagotchi/deauth_token".
Definition DEAUTH_LOG : string := "/var/log/pwnagotchi/deauth.log".
Definition AGENT_HTTP : string := "http://127.0.0.1:8422/deauth".

(** The calls that the system may refuse for a reason the model does not
    track: permissions, a read-only or full disk, bytes that do not
    decode. *)
Inductive fsop :=
| Mkdir (d : string)
| Read (p : string)
| Write (p : string)
| Append (p : string).

(** A refused call: the exception raised and, for a write that fails once
    the file is open, how many characters of the text have reached the
    file; [None] when the call fails before the file is open. *)
Record fault := Fault { fault_exn : exn; fault_written : option nat }.

(** What the script acts on. [files] maps the paths of the regular files
    the process sees to their text as stored, [dirs] is the set of the
    directories it sees, and [faults] tells which calls the system
    refuses. [procs] lists the argument vectors of the processes started,
    [stdout] the lines printed. *)
Record World := {
  files : gmap string str;
  dirs : gset string;
  faults : fsop -> option fault;
  curl_installed : bool;
  procs : list (list str);
  stdout : list str
}.

(** The two clock readings of one run: [datetime.utcnow().isoformat()] and
    the text of [time.time()]. *)
Record Clock := { utcnow_isoformat : str; time_time : str }.

Definition set_files (f : gmap string str -> gmap string str) (w : World) : World :=
  {| files := f (files w); dirs := dirs w; faults := faults w;
     curl_installed := curl_installed w; procs := procs w; stdout := stdout w |}.

Definition add_dir (d : string) (w : World) : World :=
  {| files := files w; dirs := {[d]} ∪ dirs w; faults := faults w;
     curl_installed := curl_installed w; procs := procs w; stdout := stdout w |}.

(** [os.path.split(p)], on the reversed text: the part up to the last
    slash and the part after it. *)
Fixpoint head_rev (r : list ascii) : list ascii :=
  match r with
  | [] => []
  | c :: r' => if Ascii.eqb c "/" then r else head_rev r'
  end.

Fixpoint tail_rev (r : list ascii) : list ascii :=
  match r with
  | [] => []
  | c :: r' => if Ascii.eqb c "/" then [] else c :: tail_rev r'
  end.

Fixpoint drop_slashes (r : list ascii) : list ascii :=
  match r with
  | [] => []
  | c :: r' => if Ascii.eqb c "/" then drop_slashes r' else r
  end.

(** The head loses its trailing slashes unless it is made of slashes
    only. *)
Definition path_split (p : string) : string * string :=
  let r := rev (list_ascii_of_string p) in
  let h := head_rev r in
  (string_of_list_ascii (rev (match drop_slashes h with [] => h | h' => h' end)),
   string_of_list_ascii (rev (tail_rev r))).

(** [os.path.dirname(p)] *)
Definition dirname (p : string) : string := fst (path_split p).

(** There is something at [p], a regular file or a directory. *)
Definition present (w : World) (p : string) : Prop :=
  is_Some (files w !! p) \/ p ∈ dirs w.

(** [os.path.exists(p)] *)
Definition path_exists (p : string) : M World bool :=
  fun w => Some (Ret (bool_decide (present w p)), w).

(** What reading in text mode makes of the text stored: CR LF and CR become
    LF. *)
Fixpoint universal_newlines (s : str) : str :=
  match s with
  | [] => []
  | c :: s' =>
      if c =? 13 then
        10 :: match s' with
              | d :: s'' => if d =? 10 then universal_newlines s''
                            else universal_newlines s'
              | [] => []
              end
      else c :: universal_newlines s'
  end.

(** [open(p).read()] *)
Definition read_text (p : string) : M World str :=
  fun w =>
    if bool_decide (p ∈ dirs w) then Some (Raise (Exn "IsADirectoryError" (py p)), w)
    else
      match files w !! p with
      | None => Some (Raise (Exn "FileNotFoundError" (py p)), w)
      | Some s =>
          match faults w (Read p) with
          | Some f => Some (Raise (fault_exn f), w)
          | None => Some (Ret (universal_newlines s), w)
          end
      end.

(** [with open(p, "w") as f: f.write(s)], for a text [s] of ASCII
    characters: an error when [p] is a directory, or is not there and its
    directory is missing; otherwise the file holds [s], unless the system
    refuses. *)
Definition write_text (p : string) (s : str) : M World unit :=
  fun w =>
    if bool_decide (p ∈ dirs w) then Some (Raise (Exn "IsADirectoryError" (py p)), w)
    else if bool_decide (is_Some (files w !! p) ∨ dirname p ∈ dirs w) then
      match faults w (Write p) with
      | Some f =>
          Some (Raise (fault_exn f),
                match fault_written f with
                | Some n => set_files (fun m => <[p := take n s]> m) w
                | None => w
                end)
      | None => Some (Ret tt, set_files (fun m => <[p := s]> m) w)
      end
    else Some (Raise (Exn "FileNotFoundError" (py p)), w).

(** [with open(p, "a") as f: f.write(s)], for a text [s] of ASCII
    characters: as for writing, with [s] put after what the file holds. *)
Definition append_text (p : string) (s : str) : M World unit :=
  fun w =>
    if bool_decide (p ∈ dirs w) then Some (Raise (Exn "IsADirectoryError" (py p)), w)
    else if bool_decide (is_Some (files w !! p) ∨ dirname p ∈ dirs w) then
      match faults w (Append p) with
      | Some f =>
          Some (Raise (fault_exn f),
                match fault_written f with
                | Some n =>
                    set_files (fun m => <[p := default [] (m !! p) ++ take n s]> m) w
                | None => w
                end)
      | None =>
          Some (Ret tt, set_files (fun m => <[p := default [] (m !! p) ++ s]> m) w)
      end
    else Some (Raise (Exn "FileNotFoundError" (py p)), w).

(** [os.path.isdir(p)] *)
Definition isdir (p : string) : M World bool :=
  fun w => Some (Ret (bool_decide (p ∈ dirs w)), w).

(** [os.mkdir(d)], for an absolute path [d]. *)
Definition mkdir (d : string) : M World unit :=
  fun w =>
    if bool_decide (present w d) then Some (Raise (Exn "FileExistsError" (py d)), w)
    else if bool_decide (dirname d ∈ dirs w) then
      match faults w (Mkdir d) with
      | Some f => Some (Raise (fault_exn f), w)
      | None => Some (Ret tt, add_dir d w)
      end
    else if bool_decide (is_Some (files w !! dirname d))
    then Some (Raise (Exn "NotADirectoryError" (py d)), w)
    else Some (Raise (Exn "FileNotFoundError" (py d)), w).

(** The classes of exceptions that [except OSError] and
    [except FileExistsError] catch. *)
Definition is_FileExistsError (e : exn) : bool :=
  String.eqb (exn_class e) "FileExistsError".

Definition is_OSError (e : exn) : bool :=
  existsb (String.eqb (exn_class e))
    ["OSError"; "BlockingIOError"; "ChildProcessError"; "ConnectionError";
     "BrokenPipeError"; "ConnectionAbortedError"; "ConnectionRefusedError";
     "ConnectionResetError"; "FileExistsError"; "FileNotFoundError";
     "InterruptedError"; "IsADirectoryError"; "NotADirectoryError";
     "PermissionError"; "ProcessLookupError"; "TimeoutError"].

(** [try: m  except <class>: handler e] *)
Definition try_except_of {A} (catches : exn -> bool) (m : M World A)
    (handler : exn -> M World A) : M World A :=
  try_except m (fun e => if catches e then handler e else raise e).

(** [os.makedirs(name, exist_ok=True)] as the library has it: the missing
    directories above [name] are made first, then [name] itself, and an
    error of [os.mkdir] is passed over when [name] is a directory. The
    recursion is on a shorter path each time; [fuel] bounds its depth. *)
Fixpoint makedirs_fuel (fuel : nat) (name : string) : M World unit :=
  match fuel with
  | O => fun _ => None
  | S fuel' =>
      let '(head, tail) := path_split name in
      let '(head, tail) :=
        if String.eqb tail "" then path_split head else (head, tail) in
      let* done :=
        (if negb (String.eqb head "") && negb (String.eqb tail "") then
           let* ex := path_exists head in
           if negb ex then
             let* _ := try_except_of is_FileExistsError
                         (makedirs_fuel fuel' head) (fun _ => ret tt) in
             ret (String.eqb tail ".")
           else ret false
         else ret false) in
      if done then ret tt
      else
        try_except_of is_OSError (mkdir name)
          (fun e => let* d := isdir name in if d then ret tt else raise e)
  end.

Definition makedirs (name : string) : M World unit :=
  makedirs_fuel (S (String.length name)) name.

Definition add_proc (argv : list str) (w : World) : World :=
  {| files := files w; dirs := dirs w; faults := faults w;
     curl_installed := curl_installed w; procs := procs w ++ [argv];
     stdout := stdout w |}.

Definition add_stdout (s : str) (w : World) : World :=
  {| files := files w; dirs := dirs w; faults := faults w;
     curl_installed := curl_installed w; procs := procs w;
     stdout := stdout w ++ [s] |}.

(** [subprocess.Popen(argv, ...)]: raises when the program is not found. *)
Definition Popen (argv : list str) : M World unit :=
  fun w =>
    if curl_installed w then Some (Ret tt, add_proc argv w)
    else Some (Raise (Exn "FileNotFoundError" (py "curl")), w).

(** [print(s)] *)
Definition print (s : str) : M World unit := modify (add_stdout s).

(** [_audit(entry)] *)
Definition _audit (entry : dict) : M World unit :=
  try_except
    (let* _ := makedirs (dirname DEAUTH_LOG) in
     append_text DEAUTH_LOG (dumps entry ++ [10]))
    (fun _ => ret tt).

(** [_notify_agent(action)] *)
Definition _notify_agent (clk : Clock) (action : str) : M World bool :=
  try_except
    (let* ex := path_exists DEAUTH_TOKEN in
     if negb ex then ret false
     else
       let* raw := read_text DEAUTH_TOKEN in
       let token := strip raw in
       let payload := [(py "action", JStr action); (py "token", JStr token);
                       (py "ts", JNum (time_time clk))] in
       let* _ := Popen [py "curl"; py "-s"; py "-X"; py "POST"; py "-H";
                        py "Content-Type: application/json"; py "-d";
                        dumps payload; py AGENT_HTTP] in
       ret true)
    (fun _ => ret false).

(** Lines 41 to 47 of [main]: the flag as the script reads it. *)
Definition read_current : M World bool :=
  try_except
    (let* ex := path_exists DEAUTH_FLAG in
     if ex then
       let* raw := read_text DEAUTH_FLAG in
       let v := strip raw in
       ret (str_eqb v (py "1"))
     else ret false)
    (fun _ => ret false).

Definition arm_word (new : bool) : str := if new then py "arm" else py "disarm".

(** What line 53 writes to the flag file. *)
Definition flag_text (new : bool) : str := if new then py "1" else py "0".

(** The entry of line 57, before [agent_notify] is set. *)
Definition entry_of (clk : Clock) (new : bool) : dict :=
  [(py "ts", JStr (utcnow_isoformat clk ++ py "Z"));
   (py "action", JStr (arm_word new));
   (py "method", JStr (py "script"))].

(** [main()] *)
Definition main (clk : Clock) : M World unit :=
  let* current := read_current in
  let new := negb current in
  let* _ := try_except
              (let* _ := makedirs (dirname DEAUTH_FLAG) in
               write_text DEAUTH_FLAG (flag_text new))
              (fun _ => ret tt) in
  let entry := entry_of clk new in
  let* allow := path_exists DEAUTH_ALLOW in
  let* entry :=
    (if allow then
       let* ok := _notify_agent clk (arm_word new) in
       ret (dict_set entry (py "agent_notify") (JBool ok))
     else ret (dict_set entry (py "agent_notify") (JBool false))) in
  let* _ := _audit entry in
  print (py "Deauth: " ++ (if new then py "ARMED" else py "DISARMED")).

(** The persisted flag as the script reads it: armed exactly when
    [read_current] says so. *)
Definition armed (w : World) : bool :=
  match read_current w with
  | Some (Ret b, _) => b
  | _ => false
  end.

(** The text of the audit log, empty while the file does not exist. *)
Definition audit_log (w : World) : str := default [] (files w !! DEAUTH_LOG).

(** The script run once for each clock reading of [clks], in order. *)
Fixpoint mains (clks : list Clock) : M World unit :=
  match clks with
  | [] => ret tt
  | clk :: clks' => let* _ := main clk in mains clks'
  end.

(** The line [_audit] writes for [entry]. *)
Definition audit_line (entry : dict) : str := dumps entry ++ [10].

(** The argument vector of lines 32 and 33 for the payload [payload]. *)
Definition curl_argv (payload : dict) : list str :=
  [py "curl"; py "-s"; py "-X"; py "POST"; py "-H";
   py "Content-Type: application/json"; py "-d"; dumps payload; py AGENT_HTTP].

(** The payload of line 31. *)
Definition payload_of (clk : Clock) (action token : str) : dict :=
  [(py "action", JStr action); (py "token", JStr token);
   (py "ts", JNum (time_time clk))].

(** The line of line 69. *)
Definition message (new : bool) : str :=
  py "Deauth: " ++ (if new then py "ARMED" else py "DISARMED").

(** *** What the system lets the script do *)

(** [x] is [name] or a path above it. *)
Definition above (name x : string) : Prop := ∃ k, x = Nat.iter k dirname name.

(** [w1] is [w] with directories made at or above [name], each at a path
    where nothing was and where [os.mkdir] is not refused. *)
Definition made_dirs (name : string) (w w1 : World) : Prop :=
  files w1 = files w /\ faults w1 = faults w /\
  curl_installed w1 = curl_installed w /\ procs w1 = procs w /\
  stdout w1 = stdout w /\ dirs w ⊆ dirs w1 /\
  ∀ x, x ∈ dirs w1 →
       x ∈ dirs w \/
       (above name x /\ files w !! x = None /\ faults w (Mkdir x) = None).

(** The text [b] of a file is the text [a] it held, with something put
    after it. *)
Definition grown (a b : option str) : Prop :=
  ∃ u, default [] b = default [] a ++ u.

(** [name] does not end with a slash, nor with a dot after its last
    slash. *)
Definition plain_name (name : string) : Prop :=
  String.eqb (snd (path_split name)) "" = false /\
  String.eqb (snd (path_split name)) "." = false.

(** The directory [d] is there or can be made in the directory above it,
    which is there. *)
Definition can_makedirs (w : World) (d : string) : Prop :=
  dirname d ∈ dirs w /\
  (d ∈ dirs w \/ (files w !! d = None /\ faults w (Mkdir d) = None)).

(** The flag file can be written: its directory is there or can be made,
    and the write is not refused. *)
Definition can_write_flag (w : World) : Prop :=
  can_makedirs w (dirname DEAUTH_FLAG) /\
  (DEAUTH_FLAG ∉ dirs w) /\ faults w (Write DEAUTH_FLAG) = None.

(** The flag file can be read back. *)
Definition can_read_flag (w : World) : Prop :=
  (DEAUTH_FLAG ∉ dirs w) /\ faults w (Read DEAUTH_FLAG) = None.

(** The audit log can be appended to. *)
Definition can_append_log (w : World) : Prop :=
  can_makedirs w (dirname DEAUTH_LOG) /\
  (DEAUTH_LOG ∉ dirs w) /\ faults w (Append DEAUTH_LOG) = None.

(** The directory of the flag file is missing and cannot be made: a
    regular file is in its place, or the system refuses. *)
Definition flag_dir_refused (w : World) : Prop :=
  (dirname DEAUTH_FLAG ∉ dirs w) /\
  (is_Some (files w !! dirname DEAUTH_FLAG)
   \/ is_Some (faults w (Mkdir (dirname DEAUTH_FLAG)))).

(** The text the script reads from the token file, when it can read it. *)
Definition token_read (w : World) : option str :=
  match read_text DEAUTH_TOKEN w with
  | Some (Ret raw, _) => Some raw
  | _ => None
  end.

(** A device on which nothing is refused and the script has not run yet:
    no file, and the directories of the system. *)
Definition fresh_device : World :=
  {| files := ∅;
     dirs := {["/"; "/var"; "/var/lib"; "/var/log"; "/etc"; "/etc/pwnagotchi"]};
     faults := fun _ => None; curl_installed := true; procs := []; stdout := [] |}.

(** A device on which a regular file sits where the directory of the log
    should be, and one on which it sits where the directory of the flag
    file should be. *)
Definition log_dir_is_a_file : World :=
  set_files (fun m => <["/var/log/pwnagotchi" := []]> m) fresh_device.

Definition flag_dir_is_a_file : World :=
  set_files (fun m => <["/var/lib/pwnagotchi" := []]> m) fresh_device.


Definition noon : Clock :=
  {| utcnow_isoformat := py "2025-01-01T12:00:00"; time_time := py "1735732800.0" |}.

End ToggleDeauth.

(** ** The helpers of [plugins/onscreen_menu/onscreen_menu.py] *)

Module FancyMenu.
Import ToggleDeauth.

(** [_permit()]; the paths are those of the script. *)
Definition _permit : M World (bool * str) :=
  let* allow := path_exists DEAUTH_ALLOW in
  if negb allow then ret (false, py "allow-file-missing")
  else
    let* token := path_exists DEAUTH_TOKEN in
    if negb token then ret (false, py "token-missing")
    else ret (true, py "ok").

End FancyMenu.

(** ** onscreen_menu.py *)

Module OnscreenMenu.

(** *** Pins and their signal *)

Definition PIN_UP : N := 6.
Definition PIN_DOWN : N := 19.
Definition PIN_LEFT : N := 5.
Definition PIN_RIGHT : N := 26.
Definition PIN_OK : N := 13.
Definition PIN_KEY1 : N := 21.
Definition PIN_KEY2 : N := 20.
Definition PIN_KEY3 : N := 16.

(** Time is counted in milliseconds; the signal of the pins is recorded
    every [SAMPLE_MS], the shortest sleep of the source. *)
Definition SAMPLE_MS : N := 10.
Definition DEBOUNCE_S : N := 150.

Inductive level := LOW | HIGH.

Definition level_eqb (a b : level) : bool :=
  match a, b with
  | LOW, LOW | HIGH, HIGH => true
  | _, _ => false
  end.

(** What [GPIO.input(pin)] does at one instant, for every pin: it returns
    the level or raises. The buttons pull their pin to [LOW]. *)
Definition sample := N -> outcome level.

(** *** The plugin object and the world around it *)

(** The bound methods that menu entries refer to. *)
Inductive action :=
| act_status
| act_restart_service
| act_toggle_deauth
| act_reboot_pi
| act_shutdown_pi
| act_show_events
| act_show_networks
| act_upload_logs
| act_pisugar_status.

(** The display surface handed over by the host. *)
Inductive view := View.

(** The fields of [Plugin]; the font and the lock carry no state of
    their own and are left out. *)
Record Plugin := {
  ready : bool;
  menu_open : bool;
  menu_items : list (str * option action);
  menu_index : Z;
  ui : option view;
  rclone_remote : option str
}.

(** A screen is the list of the texts drawn on it, top to bottom. *)
Definition screen := list str.

(** The state one thread runs in: the plugin object, what is left of the
    recorded pin signal from the present instant on, the screens displayed
    so far, the action threads started so far, and the answer of the shell
    to each command line. *)
Record State := {
  self : Plugin;
  signal : list sample;
  shown : list screen;
  threads : list (str * action);
  shell : str -> str
}.

Definition set_self (f : Plugin -> Plugin) (st : State) : State :=
  {| self := f (self st); signal := signal st; shown := shown st;
     threads := threads st; shell := shell st |}.

Definition set_signal (f : list sample -> list sample) (st : State) : State :=
  {| self := self st; signal := f (signal st); shown := shown st;
     threads := threads st; shell := shell st |}.

Definition set_menu_open (b : bool) (p : Plugin) : Plugin :=
  {| ready := ready p; menu_open := b; menu_items := menu_items p;
     menu_index := menu_index p; ui := ui p; rclone_remote := rclone_remote p |}.

Definition set_menu_index (i : Z) (p : Plugin) : Plugin :=
  {| ready := ready p; menu_open := menu_open p; menu_items := menu_items p;
     menu_index := i; ui := ui p; rclone_remote := rclone_remote p |}.

Definition set_ui (u : option view) (p : Plugin) : Plugin :=
  {| ready := ready p; menu_open := menu_open p; menu_items := menu_items p;
     menu_index := menu_index p; ui := u; rclone_remote := rclone_remote p |}.

Definition get_self : M State Plugin := fun st => Some (Ret (self st), st).

(** Still blocked when the recording ends. *)
Definition blocked {A} : M State A := fun _ => None.

(** [GPIO.input(pin)]: the present sample; reading takes no time. *)
Definition GPIO_input (pin : N) : M State level :=
  fun st =>
    match signal st with
    | [] => None
    | smp :: _ => Some (smp pin, st)
    end.

(** [time.sleep(ms / 1000)] *)
Definition time_sleep (ms : N) : M State unit :=
  modify (set_signal (drop (N.to_nat (ms / SAMPLE_MS)))).

Definition add_screen (s : screen) (st : State) : State :=
  {| self := self st; signal := signal st; shown := shown st ++ [s];
     threads := threads st; shell := shell st |}.

Definition add_thread (label : str) (fn : action) (st : State) : State :=
  {| self := self st; signal := signal st; shown := shown st;
     threads := threads st ++ [(label, fn)]; shell := shell st |}.

(** [ui.display_image(img)] with the texts drawn on [img]. *)
Definition display_image (s : screen) : M State unit := modify (add_screen s).

(** [threading.Thread(target=self._run_action, args=(label, fn),
    daemon=True).start()] *)
Definition start_thread (label : str) (fn : action) : M State unit :=
  modify (add_thread label fn).

(** *** Loops

    Every loop of the source sleeps at least one sample per iteration, so
    one more iteration than samples left is all a loop can make before the
    recording ends. *)
Definition fuel_of (st : State) : nat := S (length (signal st)).

(** [while cond(): body()] *)
Fixpoint while_fuel (fuel : nat) (cond : M State bool) (body : M State unit)
  : M State unit :=
  match fuel with
  | O => blocked
  | S fuel' =>
      let* c := cond in
      if c then let* _ := body in while_fuel fuel' cond body else ret tt
  end.

Definition while_ (cond : M State bool) (body : M State unit) : M State unit :=
  fun st => while_fuel (fuel_of st) cond body st.

(** [__init__] *)
Definition __init__ : Plugin := {|
  ready := false;
  menu_open := false;
  menu_items := [
    (py "Status", Some act_status);
    (py "Restart pwnagotchi", Some act_restart_service);
    (py "Toggle deauth", Some act_toggle_deauth);
    (py "Reboot device", Some act_reboot_pi);
    (py "Shutdown device", Some act_shutdown_pi);
    ([0x2014], None);
    (py "View events (40)", Some act_show_events);
    (py "Saved nets (10)", Some act_show_networks);
    (py "Upload logs", Some act_upload_logs);
    (py "PiSugar: battery", Some act_pisugar_status)
  ];
  menu_index := 0;
  ui := None;
  rclone_remote := None
|}.

(** [on_loaded]; [cfg] is what [_get_cfg("rclone_remote")] returns. The
    pins are set up as inputs with pull-ups. *)
Definition on_loaded (cfg : option str) (p : Plugin) : Plugin :=
  {| ready := true; menu_open := menu_open p; menu_items := menu_items p;
     menu_index := menu_index p; ui := ui p;
     rclone_remote := match cfg with Some (_ :: _) => cfg | _ => None end |}.

(** [on_ui_setup] *)
Definition on_ui_setup (u : view) (p : Plugin) : Plugin := set_ui (Some u) p.

(** *** Input helpers *)

(** [_btn] *)
Definition _btn (pin : N) : M State bool :=
  try_except
    (let* l := GPIO_input pin in ret (level_eqb l LOW))
    (fun _ => ret false).

(** [_edge] *)
Definition _edge (pin : N) : M State bool :=
  let* pressed := _btn pin in
  if pressed then
    let* _ := time_sleep DEBOUNCE_S in
    let* _ := while_ (_btn pin) (time_sleep 10) in
    ret true
  else ret false.

(** *** Drawing *)

Definition MENU_TITLE : str := py "Pwnagotchi Menu".
Definition MENU_HINT : str := py "UP/DN nav  RIGHT/KEY1 ok  LEFT/KEY2 back  KEY3 menu".
Definition OK_BACK : str := py "RIGHT/KEY1=OK  LEFT/KEY2=Back".
Definition NEXT_BACK : str := py "RIGHT/KEY1=next  LEFT/KEY2=back".

(** The lines of the loop of [_draw_menu], entry [i] onwards. *)
Fixpoint menu_lines (i : Z) (index : Z) (items : list (str * option action)) : list str :=
  match items with
  | [] => []
  | (label, _) :: items' =>
      ((if (i =? index)%Z then [0x27A4; 32] else py "  ") ++ label)
        :: menu_lines (i + 1) index items'
  end.

(** The texts [_draw_menu] draws: the title, the entries with the marker on
    the selected one, the hint. *)
Definition menu_screen (p : Plugin) : screen :=
  [MENU_TITLE] ++ menu_lines 0 (menu_index p) (menu_items p) ++ [MENU_HINT].

(** [_draw_menu] *)
Definition _draw_menu (u : view) : M State unit :=
  let* p := get_self in
  display_image (menu_screen p).

(** [_draw_msg] *)
Definition _draw_msg (lines : list str) : M State unit :=
  let* p := get_self in
  match ui p with
  | None => raise (Exn "AttributeError" (py "'NoneType' object has no attribute 'width'"))
  | Some _ => display_image lines
  end.

(** *** The polling hook *)

(** The assignments of lines 116 and 119:
    [self.menu_index = (self.menu_index + delta) % len(self.menu_items)] *)
Definition move (delta : Z) : M State unit :=
  let* p := get_self in
  let* i := lift (py_mod (menu_index p + delta) (Z.of_nat (length (menu_items p)))) in
  modify (set_self (set_menu_index i)).

(** The select branch, lines 129 to 131. *)
Definition select : M State unit :=
  let* p := get_self in
  let* item := lift (py_index (menu_items p) (menu_index p)) in
  match item with
  | (label, Some fn) => start_thread label fn
  | (_, None) => ret tt
  end.

(** Lines 113 to 134 of [on_ui_update]: the chain of [if] and [elif] over
    the navigation, back and select edges, and the redraw. *)
Definition navigate (u : view) : M State unit :=
  let* up := _edge PIN_UP in
  if up then let* _ := move (-1) in _draw_menu u
  else
    let* down := _edge PIN_DOWN in
    if down then let* _ := move 1 in _draw_menu u
    else
      let* back := orM (_edge PIN_LEFT) (_edge PIN_KEY2) in
      if back then modify (set_self (set_menu_open false))
      else
        let* sel := orM (_edge PIN_RIGHT) (_edge PIN_KEY1) in
        if sel then let* _ := select in _draw_menu u
        else _draw_menu u.

(** [on_ui_update] *)
Definition on_ui_update (u : view) : M State unit :=
  let* p := get_self in
  if negb (ready p) then ret tt
  else
    let* toggle := _edge PIN_KEY3 in
    let* _ := (if toggle
               then modify (set_self (fun p => set_menu_open (negb (menu_open p)) p))
               else ret tt) in
    let* p := get_self in
    if negb (menu_open p) then ret tt
    else navigate u.

(** *** The action dispatcher *)

(** The wait of lines 227 to 230 and 233 to 236:
    [while True: if <edge on RIGHT, KEY1, LEFT or KEY2>: break; time.sleep(0.05)] *)
Fixpoint wait_confirm_fuel (fuel : nat) : M State unit :=
  match fuel with
  | O => blocked
  | S fuel' =>
      let* e := orM (_edge PIN_RIGHT)
                  (orM (_edge PIN_KEY1) (orM (_edge PIN_LEFT) (_edge PIN_KEY2))) in
      if e then ret tt
      else let* _ := time_sleep 50 in wait_confirm_fuel fuel'
  end.

Definition wait_confirm : M State unit :=
  fun st => wait_confirm_fuel (fuel_of st) st.

(** The text shown for what the action returned, lines 222 to 224. *)
Definition result_lines (label : str) (out : value) : list str :=
  let out := if truthy out then out else PStr (py "Done.") in
  let text := match out with PStr s => s | PNone => [] end in
  [label ++ py ":"] ++ take 8 (splitlines text) ++ [[]; OK_BACK].

Definition error_lines (label : str) (e : exn) : list str :=
  [label; []; py "Error: " ++ exn_str e; []; OK_BACK].

(** [_run_action]; [fn] is the body of the bound method. *)
Definition _run_action (label : str) (fn : M State value) : M State unit :=
  let* p := get_self in
  match ui p with
  | None => ret tt
  | Some _ =>
      let* _ := _draw_msg [label ++ py "..."] in
      try_except
        (let* out := fn in
         let* _ := _draw_msg (result_lines label out) in
         wait_confirm)
        (fun e =>
           let* _ := _draw_msg (error_lines label e) in
           wait_confirm)
  end.

(** *** Shell helpers *)

(** [_sh]: the text the command prints, whatever its exit status. *)
Definition _sh (cmd : str) : M State str :=
  fun st => Some (Ret (shell st cmd), st).

(** [str(n)] *)
Definition str_of_N (n : N) : str := py (pretty n).

Definition nonempty (s : str) : bool :=
  match s with [] => false | _ :: _ => true end.

Definition nonempty_list {A} (l : list A) : bool :=
  match l with [] => false | _ :: _ => true end.

(** [_detect_pwn_service] *)
Definition _detect_pwn_service : M State (option str) :=
  let* raw := _sh (py "systemctl list-units --type=service --all | awk '{print $1}' | grep -i pwnagotchi | head -n1 || true") in
  let out := strip raw in
  ret (if nonempty out then Some out else None).

(** [_journal_tail] *)
Definition _journal_tail (n : N) : M State str :=
  let* unit_name := _detect_pwn_service in
  let* found :=
    match unit_name with
    | Some name =>
        let* raw := _sh (py "journalctl -u " ++ name ++ py " -n " ++ str_of_N n
                         ++ py " --no-pager 2>/dev/null || true") in
        ret (if nonempty (strip raw) then Some raw else None)
    | None => ret None
    end in
  match found with
  | Some raw => ret raw
  | None =>
      let* raw := _sh (py "journalctl -n " ++ str_of_N n
                       ++ py " --no-pager 2>/dev/null || true") in
      if nonempty (strip raw) then ret raw
      else _sh (py "tail -n 300 /var/log/syslog 2>/dev/null || true")
  end.

(** [_first_line] *)
Definition _first_line (s : str) : outcome str :=
  if nonempty s then py_index (splitlines s) 0 else Ret [].

(** [_act_status] *)
Definition _act_status : M State value :=
  let* up := _sh (py "uptime -p || true") in
  let up := strip up in
  let* raw := _sh (py "systemctl is-active pwnagotchi 2>/dev/null || true") in
  let* svc := lift (_first_line (strip raw)) in
  let* svc :=
    if negb (nonempty svc) || str_eqb svc (py "unknown") then
      let* unit_name := _detect_pwn_service in
      match unit_name with
      | Some name =>
          let* raw := _sh (py "systemctl is-active " ++ name ++ py " || true") in
          let* l := lift (_first_line (strip raw)) in
          ret (if nonempty l then l else py "unknown")
      | None => ret svc
      end
    else ret svc in
  let* ip := _sh (py "hostname -I 2>/dev/null | awk '{print $1}' || true") in
  let ip := strip ip in
  ret (PStr (py "uptime: " ++ up ++ [10] ++ py "svc: " ++ svc ++ [10] ++ py "ip: " ++ ip)).

(** [_act_restart_service] *)
Definition _act_restart_service : M State value :=
  let* detected := _detect_pwn_service in
  let unit_name := match detected with Some name => name | None => py "pwnagotchi" end in
  let* out := _sh (py "sudo systemctl restart " ++ unit_name
                   ++ py " && sleep 1 && systemctl is-active " ++ unit_name
                   ++ py " || true") in
  ret (PStr out).

(** *** The paginated viewers *)

(** The wait of lines 296 to 301 and 376 to 381: [true] when it is left by
    [break] (next page), [false] when it is left by [return ""] (back). *)
Fixpoint wait_next_fuel (fuel : nat) : M State bool :=
  match fuel with
  | O => blocked
  | S fuel' =>
      let* next := orM (_edge PIN_RIGHT) (_edge PIN_KEY1) in
      if next then ret true
      else
        let* back := orM (_edge PIN_LEFT) (_edge PIN_KEY2) in
        if back then ret false
        else let* _ := time_sleep 50 in wait_next_fuel fuel'
  end.

Definition wait_next : M State bool :=
  fun st => wait_next_fuel (fuel_of st) st.

(** [chunks = [last[i:i+size] for i in range(0, len(last), size)]] *)
Definition chunks_of (size : nat) (last : list str) : list (list str) :=
  map (fun i => slice last i (i + size)) (range_step (length last) size).

(** The loop of lines 293 to 302 over the pages. *)
Fixpoint show_pages (chunks : list (list str)) : M State value :=
  match chunks with
  | [] => ret (PStr (py "End of events."))
  | chunk :: rest =>
      let* _ := _draw_msg (chunk ++ [[]; NEXT_BACK]) in
      let* next := wait_next in
      if next then show_pages rest else ret (PStr [])
  end.

(** Lines 291 to 302 of [_act_show_events]: the display of [last]. *)
Definition page_display (last : list str) : M State value :=
  show_pages (chunks_of 6 last).

(** Lines 283 to 289 of [_act_show_events]: the lines kept of the journal
    text, the last 40 of them at most. [patterns_search line] tells whether
    the compiled regular expression [patterns] matches somewhere in [line]. *)
Definition event_lines (patterns_search : str -> bool) (raw : str) : list str :=
  let keep := map strip (List.filter patterns_search (splitlines raw)) in
  let lines :=
    if nonempty_list keep then keep
    else map strip (List.filter (fun l => nonempty (strip l)) (splitlines raw)) in
  if (40 <? length lines)%nat then drop (length lines - 40) lines else lines.

(** [_act_show_events] *)
Definition _act_show_events (patterns_search : str -> bool) : M State value :=
  let* raw := _journal_tail 300 in
  if negb (nonempty (strip raw)) then ret (PStr (py "No logs found."))
  else page_display (event_lines patterns_search raw).

(** The loop of lines 366 to 369, over [reversed(found)]. *)
Fixpoint last_seen (seen : list str) (l : list str) : list str :=
  match l with
  | [] => seen
  | s :: l' =>
      if nonempty s && negb (existsb (str_eqb s) seen)
      then last_seen (seen ++ [s]) l'
      else last_seen seen l'
  end.

(** The loop of lines 374 to 382 over the networks. *)
Fixpoint show_networks (newest : list str) : M State value :=
  match newest with
  | [] => ret (PStr (py "End of networks."))
  | ssid :: rest =>
      let* _ := _draw_msg [py "SSID: " ++ ssid; []; NEXT_BACK] in
      let* next := wait_next in
      if next then show_networks rest else ret (PStr [])
  end.

(** [_act_show_networks] from line 365 on; [found] is the list that lines
    307 to 363 gather from the files and logs of the device. *)
Definition _act_show_networks (found : list str) : M State value :=
  let seen := last_seen [] (rev found) in
  let newest := take 10 (rev seen) in
  if nonempty_list newest then show_networks newest
  else ret (PStr (py "No secured networks found.")).

(** *** The host around the plugin *)

Definition idle : sample := fun _ => Ret HIGH.

(** One button held down, the others released. *)
Definition held (pin : N) : sample :=
  fun p => if p =? pin then Ret LOW else Ret HIGH.

(** One press-and-release cycle of a button: released for [before] samples,
    held for [during] samples, released for [after] samples. *)
Definition press_cycle (pin : N) (before during after : nat) : list sample :=
  replicate before idle ++ replicate during (held pin) ++ replicate after idle.

(** A sample at which reading any pin fails. *)
Definition unreadable : sample :=
  fun _ => Raise (Exn "RuntimeError" (py "Failed to read the pin")).

(** One press of 410 ms that begins 50 ms into the recording; the read
    fails once, 200 ms into the press. *)
Definition press_with_failed_read (pin : N) : list sample :=
  replicate 5 idle ++ replicate 20 (held pin) ++ [unreadable]
  ++ replicate 20 (held pin) ++ replicate 30 idle.

(** Time passing in a thread that does not look at the pins. *)
Definition elapse (samples : nat) (st : State) : State :=
  set_signal (drop samples) st.

(** A host that polls one pin: it calls [_edge], lets [period] samples
    pass, and calls again, until the recording ends. The list of the values
    returned. *)
Fixpoint poll_fuel (fuel : nat) (period : nat) (pin : N) (st : State) : list bool :=
  match fuel with
  | O => []
  | S fuel' =>
      match _edge pin st with
      | Some (Ret b, st') => b :: poll_fuel fuel' period pin (elapse period st')
      | _ => []
      end
  end.

Definition poll (period : nat) (pin : N) (st : State) : list bool :=
  poll_fuel (fuel_of st) period pin st.

Definition count_true (l : list bool) : nat := length (List.filter id l).

(** *** The input helpers on the signal alone

    What [_btn] and [_edge] compute is a function of the signal; the
    theorems below relate these functions to the code. *)

(** What [_btn] makes of a read. *)
Definition is_low (r : outcome level) : bool :=
  match r with Ret LOW => true | _ => false end.

(** The signal from the first sample on at which [pin] is not read as
    pressed; nothing when there is none. *)
Fixpoint released (pin : N) (sig : list sample) : option (list sample) :=
  match sig with
  | [] => None
  | smp :: rest => if is_low (smp pin) then released pin rest else Some sig
  end.

(** The value [_edge] returns and the signal it leaves. *)
Definition edge_result (pin : N) (sig : list sample) : option (bool * list sample) :=
  match sig with
  | [] => None
  | smp :: _ =>
      if is_low (smp pin) then
        match released pin (drop 15 sig) with
        | Some sig' => Some (true, sig')
        | None => None
        end
      else Some (false, sig)
  end.

(** The state at another instant of the recording. *)
Definition at_signal (sig : list sample) (st : State) : State :=
  set_signal (fun _ => sig) st.

(** A computation that only reads the pins and lets time pass: it does not
    raise, and the state it leaves differs by the instant alone. *)
Definition only_waits {A} (m : M State A) : Prop :=
  forall st o st', m st = Some (o, st') ->
    exists a sig', o = Ret a /\ st' = at_signal sig' st.

(** [navigate], entered in [s], reads no edge on UP, DOWN, LEFT and KEY2 and
    then an edge on RIGHT or KEY1, after which it is in [s4]. *)
Definition sees_select (s s4 : State) : Prop :=
  exists s1 s2 s3,
    _edge PIN_UP s = Some (Ret false, s1) /\
    _edge PIN_DOWN s1 = Some (Ret false, s2) /\
    orM (_edge PIN_LEFT) (_edge PIN_KEY2) s2 = Some (Ret false, s3) /\
    orM (_edge PIN_RIGHT) (_edge PIN_KEY1) s3 = Some (Ret true, s4).

(** A computation that leaves the plugin object as it found it. *)
Definition keeps_self {A} (m : M State A) : Prop :=
  forall st o st', m st = Some (o, st') -> self st' = self st.

(** *** Scenarios *)

(** Two buttons held down together. *)
Definition both (a b : N) : sample :=
  fun p => if (p =? a) || (p =? b) then Ret LOW else Ret HIGH.

(** The plugin after [__init__], [on_loaded] and [on_ui_setup], at the start
    of the recording [sig]; the shell prints nothing. *)
Definition boot (sig : list sample) : State :=
  {| self := on_ui_setup View (on_loaded None __init__); signal := sig;
     shown := []; threads := []; shell := fun _ => [] |}.

(** The host calls [on_ui_update] [n] times, [gap] samples apart. *)
Fixpoint host_ticks (n : nat) (gap : nat) (u : view) : M State unit :=
  match n with
  | O => ret tt
  | S n' =>
      let* _ := on_ui_update u in
      let* _ := modify (elapse gap) in
      host_ticks n' gap u
  end.

(** DOWN held for 200 ms and released for 10 ms, [n] times over. *)
Fixpoint down_presses (n : nat) (rest : list sample) : list sample :=
  match n with
  | O => rest
  | S n' => replicate 20 (held PIN_DOWN) ++ idle :: down_presses n' rest
  end.

(** A sequence of navigation steps: [move] once for each item of
    [deltas]. *)
Fixpoint moves (deltas : list Z) : M State unit :=
  match deltas with
  | [] => ret tt
  | d :: deltas' => let* _ := move d in moves deltas'
  end.

(** The state in which the thread of [_run_action label fn], started in
    [s0], enters the wait of line 227: [fn] has returned and its result is
    on the screen. *)
Definition result_shown (label : str) (fn : M State value) (s0 : State) : option State :=
  match (let* _ := _draw_msg [label ++ py "..."] in
         let* out := fn in
         _draw_msg (result_lines label out)) s0 with
  | Some (Ret _, s1) => Some s1
  | _ => None
  end.

(** The instant of a state, counted in samples from the end of the
    recording: the later, the smaller. *)
Definition samples_left (st : State) : nat := length (signal st).

(** The thread of [_run_action label fn] started in [s0] is in its wait for
    a confirmation from the instant of [t1] to the instant of [t2]: it
    enters the wait no later than [t1] and leaves it after [t2]. *)
Definition waiting_between (label : str) (fn : M State value) (s0 t1 t2 : State) : Prop :=
  exists s1 s2,
    result_shown label fn s0 = Some s1 /\
    wait_confirm s1 = Some (Ret tt, s2) /\
    (samples_left t1 <= samples_left s1)%nat /\
    (samples_left s2 < samples_left t2)%nat.

(** The plugin with the menu open and entry [i] selected. *)
Definition open_at (i : Z) (sig : list sample) : State :=
  set_self (fun p => set_menu_index i (set_menu_open true p)) (boot sig).

(** RIGHT held for 200 ms. *)
Definition select_press : list sample :=
  replicate 20 (held PIN_RIGHT) ++ replicate 20 idle.

(** KEY3 and UP pressed together for 200 ms, UP held 200 ms longer. *)
Definition toggle_with_up : list sample :=
  replicate 20 (both PIN_KEY3 PIN_UP) ++ replicate 20 (held PIN_UP)
  ++ replicate 20 idle.

(** KEY3 opens the menu, RIGHT selects the first entry, and RIGHT is
    pressed again for 90 ms, 110 ms after its release. *)
Definition two_selects : list sample :=
  replicate 20 (held PIN_KEY3) ++ replicate 10 idle
  ++ replicate 20 (held PIN_RIGHT) ++ replicate 11 idle
  ++ replicate 9 (held PIN_RIGHT) ++ replicate 30 idle.

(** The state [m] leaves. *)
Definition after (m : M State unit) (st : State) : State :=
  match m st with
  | Some (_, st') => st'
  | None => st
  end.

(** In the scenario [two_selects], the state in which the second tick
    returns, 500 ms into the recording: the first tick has opened the menu,
    the second, 100 ms after the first, has read the first press of RIGHT. *)
Definition first_select_done : State :=
  after (on_ui_update View)
    (elapse 10 (after (on_ui_update View) (boot two_selects))).

(** The third tick begins 110 ms later, with the second press of RIGHT. *)
Definition second_press_begins : State := elapse 11 first_select_done.

(** 22 lines, numbered from 0. *)
Definition lines22 : list str := map (fun n => str_of_N (N.of_nat n)) (seq 0 22).

(** RIGHT held for 200 ms, then, 100 ms later, LEFT held for 200 ms. *)
Definition next_then_back : list sample :=
  replicate 20 (held PIN_RIGHT) ++ replicate 10 idle
  ++ replicate 20 (held PIN_LEFT) ++ replicate 10 idle
  ++ replicate 20 (held PIN_RIGHT) ++ replicate 10 idle.

End OnscreenMenu.

(** * Properties *)

(** ** The deauth toggle *)

Section ToggleDeauthFacts.
Import Json ToggleDeauth.

Lemma hex_digit_printable n : n < 16 → printable (hex_digit n) = true.
Proof.
  intros H. unfold hex_digit, printable.
  destruct (N.ltb_spec n 10); apply andb_true_iff; split; apply N.leb_le; lia.
Qed.

Lemma u_escape_printable c : forallb printable (u_escape c) = true.
Proof.
  unfold u_escape. cbn [forallb].
  rewrite !hex_digit_printable by (apply N.mod_lt; lia). reflexivity.
Qed.

Lemma escape_char_printable c : forallb printable (escape_char c) = true.
Proof.
  unfold escape_char.
  repeat match goal with
         | |- context [if ?b then _ else _] => destruct b eqn:?; [try reflexivity|]
         end.
  - cbn [forallb]. rewrite andb_true_r. assumption.
  - apply u_escape_printable.
  - rewrite forallb_app, !u_escape_printable. reflexivity.
Qed.

Lemma dumps_str_printable s : forallb printable (dumps_str s) = true.
Proof.
  unfold dumps_str. rewrite !forallb_app. cbn [forallb].
  replace (forallb printable (concat (map escape_char s))) with true; [reflexivity|].
  symmetry. induction s as [|c s IH]; [reflexivity|].
  cbn [map concat]. rewrite forallb_app, escape_char_printable. exact IH.
Qed.

Lemma dumps_val_printable v :
  not_number v = true → forallb printable (dumps_val v) = true.
Proof.
  destruct v as [s|[]|r]; cbn [not_number dumps_val]; intros H;
    [apply dumps_str_printable | reflexivity | reflexivity | discriminate].
Qed.

Lemma dumps_items_printable d :
  forallb (fun kv => not_number kv.2) d = true →
  forallb printable (dumps_items d) = true.
Proof.
  induction d as [|[k v] d IH]; [reflexivity|].
  cbn [forallb snd]. intros [Hv Hd]%andb_true_iff.
  destruct d as [|kv d].
  - cbn [dumps_items]. rewrite !forallb_app, dumps_str_printable, dumps_val_printable by done.
    reflexivity.
  - change (dumps_items ((k, v) :: kv :: d))
      with (dumps_str k ++ py ": " ++ dumps_val v ++ py ", " ++ dumps_items (kv :: d)).
    rewrite !forallb_app, dumps_str_printable, dumps_val_printable, IH by done.
    reflexivity.
Qed.

Lemma dumps_printable d :
  forallb (fun kv => not_number kv.2) d = true →
  forallb printable (dumps d) = true.
Proof.
  intros H. unfold dumps. rewrite !forallb_app, dumps_items_printable by done.
  reflexivity.
Qed.

Lemma printable_not_break c :
  printable c = true → (c =? 0x0D) = false ∧ islinebreak c = false.
Proof.
  unfold printable, islinebreak. intros [H1 H2]%andb_true_iff.
  apply N.leb_le in H1, H2. split; [apply N.eqb_neq; lia|].
  repeat match goal with
         | |- context [N.leb ?a ?b] => destruct (N.leb_spec a b); try lia
         | |- context [N.eqb ?a ?b] => destruct (N.eqb_spec a b); try lia
         end; reflexivity.
Qed.

(** A text without line boundaries, followed by a newline, is one line. *)
Lemma splitlines_one_line s cur :
  forallb printable s = true →
  splitlines_from cur (s ++ [10]) = [rev cur ++ s].
Proof.
  revert cur. induction s as [|c s IH]; intros cur H.
  - cbn. rewrite app_nil_r. reflexivity.
  - cbn [forallb] in H. apply andb_true_iff in H as [Hc Hs].
    destruct (printable_not_break c Hc) as [Hcr Hbr].
    change ((c :: s) ++ [10]) with (c :: (s ++ [10])).
    cbn [splitlines_from]. rewrite Hcr, Hbr, IH by done.
    cbn [rev]. rewrite <- app_assoc. reflexivity.
Qed.

Local Set Warnings "-clear-no-such-hyp".

Lemma str_eqb_eq (a b : str) : str_eqb a b = true ↔ a = b.
Proof.
  revert b. induction a as [|x a IH]; intros [|y b]; cbn [str_eqb];
    try (split; [discriminate|discriminate]); [split; reflexivity|].
  rewrite andb_true_iff, N.eqb_eq, IH. split; [intros [-> ->]|intros [= -> ->]]; auto.
Qed.

Lemma bind_ret_eq {St A B} (m : M St A) (k : A → M St B) w a w1 :
  m w = Some (Ret a, w1) → (let* x := m in k x) w = k a w1.
Proof. intros H. unfold bind. rewrite H. reflexivity. Qed.

Lemma bind_raise_eq {St A B} (m : M St A) (k : A → M St B) w e w1 :
  m w = Some (Raise e, w1) → (let* x := m in k x) w = Some (Raise e, w1).
Proof. intros H. unfold bind. rewrite H. reflexivity. Qed.

Lemma not_is_Some_None {A} : ¬ is_Some (@None A).
Proof. intros [x Hx]. discriminate Hx. Qed.

(** *** Paths *)

Lemma length_string_of_list (l : list ascii) :
  String.length (string_of_list_ascii l) = length l.
Proof. induction l as [|c l IH]; [reflexivity|]. cbn. rewrite IH. reflexivity. Qed.

Lemma length_list_of_string (s : string) :
  length (list_ascii_of_string s) = String.length s.
Proof. induction s as [|c s IH]; [reflexivity|]. cbn. rewrite IH. reflexivity. Qed.

Lemma head_rev_le (r : list ascii) : (length (head_rev r) <= length r)%nat.
Proof.
  induction r as [|c r IH]; [reflexivity|]. cbn [head_rev].
  destruct (Ascii.eqb c "/"); cbn [length]; lia.
Qed.

Lemma head_rev_lt (r : list ascii) :
  tail_rev r ≠ [] → (length (head_rev r) < length r)%nat.
Proof.
  destruct r as [|c r]; [intros H; destruct H; reflexivity|].
  cbn [head_rev tail_rev]. destruct (Ascii.eqb c "/").
  - intros H. destruct H. reflexivity.
  - intros _. pose proof (head_rev_le r). cbn [length]. lia.
Qed.

Lemma drop_slashes_le (r : list ascii) : (length (drop_slashes r) <= length r)%nat.
Proof.
  induction r as [|c r IH]; [reflexivity|]. cbn [drop_slashes].
  destruct (Ascii.eqb c "/"); cbn [length]; lia.
Qed.

(** The head of a path is no longer than the path, and shorter when
    something follows the last slash. *)
Lemma dirname_le (p : string) : (String.length (dirname p) <= String.length p)%nat.
Proof.
  unfold dirname, path_split. cbn [fst]. rewrite length_string_of_list, length_rev.
  rewrite <- (length_list_of_string p), <- (length_rev (list_ascii_of_string p)).
  pose proof (head_rev_le (rev (list_ascii_of_string p))).
  pose proof (drop_slashes_le (head_rev (rev (list_ascii_of_string p)))).
  destruct (drop_slashes (head_rev (rev (list_ascii_of_string p)))); lia.
Qed.

Lemma dirname_lt (p : string) :
  String.eqb (snd (path_split p)) "" = false →
  (String.length (dirname p) < String.length p)%nat.
Proof.
  unfold dirname, path_split. cbn [fst snd]. intros Ht.
  rewrite length_string_of_list, length_rev.
  rewrite <- (length_list_of_string p), <- (length_rev (list_ascii_of_string p)).
  assert (Hne : tail_rev (rev (list_ascii_of_string p)) ≠ []).
  { intros E. rewrite E in Ht. discriminate Ht. }
  pose proof (head_rev_lt _ Hne).
  pose proof (drop_slashes_le (head_rev (rev (list_ascii_of_string p)))).
  destruct (drop_slashes (head_rev (rev (list_ascii_of_string p)))); lia.
Qed.

Lemma above_self (name : string) : above name name.
Proof. exists 0%nat. reflexivity. Qed.

Lemma above_dirname (name x : string) : above (dirname name) x → above name x.
Proof. intros [k ->]. exists (S k). rewrite Nat.iter_succ_r. reflexivity. Qed.

(** *** Making directories *)

Lemma made_dirs_refl (name : string) (w : World) : made_dirs name w w.
Proof. unfold made_dirs. split_and!; try reflexivity. auto. Qed.

Lemma made_dirs_trans (h name : string) (w w1 w2 : World) :
  (∀ x, above h x → above name x) →
  made_dirs h w w1 → made_dirs name w1 w2 → made_dirs name w w2.
Proof.
  intros Hup (Hf1 & Hx1 & Hc1 & Hp1 & Hs1 & Hd1 & Hn1) (Hf2 & Hx2 & Hc2 & Hp2 & Hs2 & Hd2 & Hn2).
  unfold made_dirs. split_and!; try congruence.
  - set_solver.
  - intros x Hx. destruct (Hn2 x Hx) as [H|(Ha & Hfx & Hxx)].
    + destruct (Hn1 x H) as [H'|(Ha & Hfx & Hxx)]; [left; exact H'|right].
      split_and!; auto.
    + right. split_and!; [exact Ha|congruence|congruence].
Qed.

(** [os.mkdir] with its error passed over when the directory is there: the
    last step of [os.makedirs]. *)
Lemma mkdir_exist_ok (name : string) (w : World) :
  ∃ o w1,
    try_except_of is_OSError (mkdir name)
      (fun e => let* d := isdir name in if d then ret tt else raise e) w
    = Some (o, w1) ∧
    made_dirs name w w1 ∧
    (o = Ret tt → name ∈ dirs w1) ∧
    (can_makedirs w name → o = Ret tt).
Proof.
  pose proof (@not_is_Some_None str) as Hno.
  unfold try_except_of, try_except, mkdir, bind, isdir, ret, raise, present, can_makedirs.
  destruct (decide (name ∈ dirs w)) as [Hd|Hd].
  - rewrite (bool_decide_true (_ ∨ _)) by tauto.
    change (is_OSError (Exn "FileExistsError" (py name))) with true. cbv beta iota.
    rewrite bool_decide_true by exact Hd.
    exists (Ret tt), w. split; [reflexivity|]. split; [apply made_dirs_refl|]. auto.
  - destruct (files w !! name) as [s|] eqn:Ef.
    + rewrite (bool_decide_true (_ ∨ _)) by eauto.
      change (is_OSError (Exn "FileExistsError" (py name))) with true. cbv beta iota.
      rewrite bool_decide_false by exact Hd.
      eexists _, w. split; [reflexivity|]. split; [apply made_dirs_refl|].
      split; [discriminate|]. intros [_ [H|[H _]]]; [tauto|discriminate H].
    + rewrite (bool_decide_false (_ ∨ _)) by (intros [H|H]; [destruct (Hno H)|tauto]).
      destruct (decide (dirname name ∈ dirs w)) as [Hp|Hp].
      * rewrite (bool_decide_true (dirname name ∈ dirs w)) by exact Hp.
        destruct (faults w (Mkdir name)) as [f|] eqn:Ex.
        -- destruct (is_OSError (fault_exn f)); cbv beta iota;
             rewrite ?bool_decide_false by exact Hd;
             (eexists _, w; split; [reflexivity|]; split; [apply made_dirs_refl|];
              split; [discriminate|]; intros [_ [H|[_ H]]]; [tauto|discriminate H]).
        -- exists (Ret tt), (add_dir name w). split; [reflexivity|].
           split; [|split; [intros _; cbn [dirs add_dir]; set_solver|reflexivity]].
           unfold made_dirs. cbn [files dirs faults curl_installed procs stdout add_dir].
           split_and!; try reflexivity; [set_solver|].
           intros x Hx. apply elem_of_union in Hx. destruct Hx as [Hx|Hx]; [|auto].
           apply elem_of_singleton in Hx. subst x. right.
           split_and!; [apply above_self|exact Ef|exact Ex].
      * rewrite (bool_decide_false (dirname name ∈ dirs w)) by exact Hp.
        destruct (bool_decide (is_Some (files w !! dirname name)));
          [change (is_OSError (Exn "NotADirectoryError" (py name))) with true
          |change (is_OSError (Exn "FileNotFoundError" (py name))) with true];
          cbv beta iota; rewrite bool_decide_false by exact Hd;
          (eexists _, w; split; [reflexivity|]; split; [apply made_dirs_refl|];
           split; [discriminate|]; intros [H _]; tauto).
Qed.

Lemma made_dirs_weaken (h name : string) (w w1 : World) :
  (∀ x, above h x → above name x) → made_dirs h w w1 → made_dirs name w w1.
Proof.
  intros Hup H. apply (made_dirs_trans h name w w1 w1 Hup H). apply made_dirs_refl.
Qed.

(** [os.makedirs] returns or raises, whatever it finds; all it does is make
    directories at or above [name]; when it returns, [name] is a
    directory; and it returns when [name] is there or can be made. *)
Lemma makedirs_fuel_spec (fuel : nat) :
  ∀ name w, (String.length name < fuel)%nat →
    ∃ o w1,
      makedirs_fuel fuel name w = Some (o, w1) ∧
      made_dirs name w w1 ∧
      (plain_name name → o = Ret tt → name ∈ dirs w1) ∧
      (plain_name name → can_makedirs w name → o = Ret tt).
Proof.
  induction fuel as [|fuel IH]; intros name w Hlen; [lia|].
  assert (Hstep : ∀ h t,
    (∀ x, above h x → above name x) →
    (String.eqb t "" = false → (String.length h < fuel)%nat) →
    ∃ o w1,
      (let* done :=
         (if negb (String.eqb h "") && negb (String.eqb t "") then
            let* ex := path_exists h in
            if negb ex then
              let* _ := try_except_of is_FileExistsError
                          (makedirs_fuel fuel h) (fun _ => ret tt) in
              ret (String.eqb t ".")
            else ret false
          else ret false) in
       if done then ret tt
       else
         try_except_of is_OSError (mkdir name)
           (fun e => let* d := isdir name in if d then ret tt else raise e)) w
      = Some (o, w1) ∧
      made_dirs name w w1 ∧
      (String.eqb t "." = false → o = Ret tt → name ∈ dirs w1) ∧
      (h = dirname name → can_makedirs w name → o = Ret tt)).
  { intros h t Hup Hlt.
    destruct (mkdir_exist_ok name w) as (o0 & w0 & Hm0 & Hg0 & Hin0 & Hok0).
    destruct (negb (String.eqb h "") && negb (String.eqb t "")) eqn:Ec.
    - apply andb_prop in Ec. destruct Ec as [_ Et]. apply negb_true_iff in Et.
      unfold bind at 1. unfold bind at 1. unfold path_exists at 1.
      destruct (bool_decide (present w h)) eqn:Ep; cbn [negb].
      + unfold ret at 1. exists o0, w0. split; [exact Hm0|]. auto.
      + assert (Hnp : h = dirname name → can_makedirs w name → False).
        { intros -> [Hd _]. apply bool_decide_eq_false in Ep. apply Ep. right. exact Hd. }
        destruct (IH h w (Hlt Et)) as (o' & w' & Hr & Hg & _ & _).
        destruct (mkdir_exist_ok name w') as (o1 & w1 & Hm1 & Hg1 & Hin1 & _).
        assert (Hpass : ∀ w'', w'' = w' →
          ∃ o w2,
            (if String.eqb t "." then ret tt
             else try_except_of is_OSError (mkdir name)
                    (fun e => let* d := isdir name in if d then ret tt else raise e)) w''
            = Some (o, w2) ∧
            made_dirs name w w2 ∧
            (String.eqb t "." = false → o = Ret tt → name ∈ dirs w2) ∧
            (h = dirname name → can_makedirs w name → o = Ret tt)).
        { intros w'' ->. destruct (String.eqb t ".").
          - exists (Ret tt), w'. split; [reflexivity|].
            split; [exact (made_dirs_weaken h name w w' Hup Hg)|].
            split; [discriminate|]. intros H1 H2. destruct (Hnp H1 H2).
          - exists o1, w1. split; [exact Hm1|].
            split; [exact (made_dirs_trans h name w w' w1 Hup Hg Hg1)|].
            split; [intros _; exact Hin1|]. intros H1 H2. destruct (Hnp H1 H2). }
        unfold bind at 1. unfold try_except_of at 1, try_except at 1. rewrite Hr.
        destruct o' as [[]|e].
        * unfold ret at 1. apply Hpass. reflexivity.
        * destruct (is_FileExistsError e).
          -- unfold ret at 1. unfold ret at 1. apply Hpass. reflexivity.
          -- unfold raise at 1. exists (Raise e), w'. split; [reflexivity|].
             split; [exact (made_dirs_weaken h name w w' Hup Hg)|].
             split; [discriminate|]. intros H1 H2. destruct (Hnp H1 H2).
    - unfold bind at 1. unfold ret at 1. exists o0, w0. split; [exact Hm0|]. auto. }
  cbn [makedirs_fuel].
  destruct (path_split name) as [head tail] eqn:Es.
  assert (Hh : head = dirname name) by (unfold dirname; rewrite Es; reflexivity).
  assert (Ht : tail = snd (path_split name)) by (rewrite Es; reflexivity).
  destruct (String.eqb tail "") eqn:Et.
  - destruct (path_split head) as [h2 t2] eqn:Es2.
    assert (Hh2 : h2 = dirname head) by (unfold dirname; rewrite Es2; reflexivity).
    assert (Ht2 : t2 = snd (path_split head)) by (rewrite Es2; reflexivity).
    destruct (Hstep h2 t2) as (o & w1 & Hrun & Hg & _ & _).
    + intros x Hx. subst h2 head. apply above_dirname, above_dirname, Hx.
    + intros E. subst h2 t2. pose proof (dirname_lt head E).
      pose proof (dirname_le name). subst head. lia.
    + exists o, w1. split; [exact Hrun|]. split; [exact Hg|].
      split; intros [Hp _]; rewrite <- Ht, Et in Hp; discriminate Hp.
  - destruct (Hstep head tail) as (o & w1 & Hrun & Hg & Hin & Hok).
    + intros x Hx. subst head. apply above_dirname, Hx.
    + intros E. subst head. rewrite Ht in E. pose proof (dirname_lt name E). lia.
    + exists o, w1. split; [exact Hrun|]. split; [exact Hg|]. split.
      * intros [_ Hp]. rewrite <- Ht in Hp. exact (Hin Hp).
      * intros _. exact (Hok Hh).
Qed.

Lemma makedirs_spec (name : string) (w : World) :
  ∃ o w1,
    makedirs name w = Some (o, w1) ∧
    made_dirs name w w1 ∧
    (plain_name name → o = Ret tt → name ∈ dirs w1) ∧
    (plain_name name → can_makedirs w name → o = Ret tt).
Proof. apply makedirs_fuel_spec. lia. Qed.

(** *** Reading and writing *)

(** Reading changes nothing. *)
Lemma read_text_same p w :
  ∃ o, read_text p w = Some (o, w).
Proof.
  unfold read_text. case_bool_decide; [eauto|].
  destruct (files w !! p); [|eauto]. destruct (faults w (Read p)); eauto.
Qed.

(** Reading a regular file that the system lets read. *)
Lemma read_text_ok p w s :
  p ∉ dirs w → files w !! p = Some s → faults w (Read p) = None →
  read_text p w = Some (Ret (universal_newlines s), w).
Proof.
  intros Hd Hf Hr. unfold read_text. rewrite bool_decide_false by exact Hd.
  rewrite Hf, Hr. reflexivity.
Qed.

(** [read_current] returns, whatever the system does, and changes
    nothing. *)
Lemma read_current_armed w : read_current w = Some (Ret (armed w), w).
Proof.
  unfold armed.
  assert (H : ∃ b, read_current w = Some (Ret b, w)); [|destruct H as (b & ->); reflexivity].
  unfold read_current, try_except, bind, path_exists, ret.
  case_bool_decide; [|eauto].
  destruct (read_text_same DEAUTH_FLAG w) as ([raw|e] & ->); eauto.
Qed.

Lemma armed_of_text w s :
  can_read_flag w → files w !! DEAUTH_FLAG = Some s →
  armed w = str_eqb (strip (universal_newlines s)) (py "1").
Proof.
  intros [Hd Hr] Hf. unfold armed, read_current, try_except, bind, path_exists, ret.
  rewrite bool_decide_true by (left; eauto).
  rewrite (read_text_ok _ _ s Hd Hf Hr). reflexivity.
Qed.

Lemma armed_of_flag_text w new :
  can_read_flag w → files w !! DEAUTH_FLAG = Some (flag_text new) → armed w = new.
Proof.
  intros Hr Hf. rewrite (armed_of_text w _ Hr Hf). destruct new; reflexivity.
Qed.

(** What writing and appending do to the world. *)
Lemma write_text_spec p t w :
  ∃ o w1,
    write_text p t w = Some (o, w1) ∧
    dirs w1 = dirs w ∧ faults w1 = faults w ∧
    curl_installed w1 = curl_installed w ∧ procs w1 = procs w ∧ stdout w1 = stdout w ∧
    (∀ q, q ≠ p → files w1 !! q = files w !! q) ∧
    (p ∉ dirs w → dirname p ∈ dirs w → faults w (Write p) = None →
     o = Ret tt ∧ files w1 !! p = Some t) ∧
    True.
Proof.
  unfold write_text.
  repeat first
    [ case_bool_decide
    | match goal with
      | |- context [faults w ?o] =>
          let E := fresh "E" in destruct (faults w o) as [?|] eqn:E
      | |- context [fault_written ?f] => destruct (fault_written f)
      end ];
    (eexists _, _; split; [reflexivity|]);
    cbn [files dirs faults curl_installed procs stdout set_files];
    split_and!;
    first
      [ reflexivity
      | exact I
      | (intros q Hq; apply lookup_insert_ne; congruence)
      | (intros ? ? ?; first [ congruence | tauto
                             | split; [reflexivity|apply lookup_insert_eq] ]) ].
Qed.

Lemma append_text_spec p t w :
  ∃ o w1,
    append_text p t w = Some (o, w1) ∧
    dirs w1 = dirs w ∧ faults w1 = faults w ∧
    curl_installed w1 = curl_installed w ∧ procs w1 = procs w ∧ stdout w1 = stdout w ∧
    (∀ q, q ≠ p → files w1 !! q = files w !! q) ∧
    (p ∉ dirs w → dirname p ∈ dirs w → faults w (Append p) = None →
     o = Ret tt ∧ files w1 !! p = Some (default [] (files w !! p) ++ t)) ∧
    grown (files w !! p) (files w1 !! p).
Proof.
  unfold append_text, grown.
  repeat first
    [ case_bool_decide
    | match goal with
      | |- context [faults w ?o] =>
          let E := fresh "E" in destruct (faults w o) as [?|] eqn:E
      | |- context [fault_written ?f] => destruct (fault_written f)
      end ];
    (eexists _, _; split; [reflexivity|]);
    cbn [files dirs faults curl_installed procs stdout set_files];
    split_and!;
    first
      [ reflexivity
      | (intros q Hq; apply lookup_insert_ne; congruence)
      | (intros ? ? ?; first [ congruence | tauto
                             | split; [reflexivity|apply lookup_insert_eq] ])
      | (exists []; symmetry; apply app_nil_r)
      | (rewrite lookup_insert_eq; eexists; reflexivity) ].
Qed.

(** The block of lines 50 to 55, and the body of [_audit]: the directory is
    made and the file written by [store], and whatever goes wrong is passed
    over. The file holds [res] where the system lets the script write, and
    is untouched where the directory is missing and cannot be made. *)
Lemma store_block (p : string) (store : M World unit) (op : fsop)
    (res : World → str) (R : option str → option str → Prop) (w : World) :
  (∀ a, R a a) →
  (∀ w0, ∃ o w1,
     store w0 = Some (o, w1) ∧
     dirs w1 = dirs w0 ∧ faults w1 = faults w0 ∧
     curl_installed w1 = curl_installed w0 ∧ procs w1 = procs w0 ∧
     stdout w1 = stdout w0 ∧
     (∀ q, q ≠ p → files w1 !! q = files w0 !! q) ∧
     (p ∉ dirs w0 → dirname p ∈ dirs w0 → faults w0 op = None →
      o = Ret tt ∧ files w1 !! p = Some (res w0)) ∧
     R (files w0 !! p) (files w1 !! p)) →
  (∀ w0, files w0 = files w → res w0 = res w) →
  plain_name (dirname p) →
  ∃ w1,
    try_except (let* _ := makedirs (dirname p) in store) (fun _ => ret tt) w
    = Some (Ret tt, w1) ∧
    faults w1 = faults w ∧ curl_installed w1 = curl_installed w ∧
    procs w1 = procs w ∧ stdout w1 = stdout w ∧
    dirs w ⊆ dirs w1 ∧
    (∀ x, x ∈ dirs w1 → x ∈ dirs w ∨ above (dirname p) x) ∧
    (∀ q, q ≠ p → files w1 !! q = files w !! q) ∧
    (can_makedirs w (dirname p) → p ∉ dirs w → ¬ above (dirname p) p →
     faults w op = None → files w1 !! p = Some (res w)) ∧
    (dirname p ∉ dirs w →
     is_Some (files w !! dirname p) ∨ is_Some (faults w (Mkdir (dirname p))) →
     files w1 !! p = files w !! p) ∧
    R (files w !! p) (files w1 !! p).
Proof.
  intros Hrefl Hstore Hres Hplain.
  destruct (makedirs_spec (dirname p) w)
    as (o & w0 & Hmk & (Hf & Hx & Hc & Hp & Hs & Hd & Hn) & Hin & Hok).
  assert (Hbound : ∀ x, x ∈ dirs w0 → x ∈ dirs w ∨ above (dirname p) x).
  { intros x Hx'. destruct (Hn x Hx') as [H|(H & _)]; auto. }
  unfold try_except. destruct o as [[]|e].
  - rewrite (bind_ret_eq _ _ _ _ _ Hmk).
    destruct (Hstore w0)
      as (o2 & w1 & Hw & Hd1 & Hx1 & Hc1 & Hp1 & Hs1 & Hf1 & Hok1 & HR).
    rewrite Hw. exists w1. split; [destruct o2 as [[]|e]; reflexivity|].
    split; [congruence|]. split; [congruence|]. split; [congruence|].
    split; [congruence|]. split; [rewrite Hd1; exact Hd|].
    split; [rewrite Hd1; exact Hbound|].
    split; [intros q Hq; rewrite (Hf1 q Hq), Hf; reflexivity|].
    split; [|split; [|rewrite <- Hf; exact HR]].
    + intros Hcan Hnd Hnab Hnf.
      rewrite <- (Hres w0 Hf). apply Hok1.
      * intros H. destruct (Hbound _ H); tauto.
      * apply Hin; [exact Hplain|reflexivity].
      * rewrite Hx. exact Hnf.
    + intros Hnd Href. exfalso.
      destruct (Hn _ (Hin Hplain eq_refl)) as [H|(_ & H1 & H2)]; [tauto|].
      destruct Href as [[s Hs']|[f Hf']]; congruence.
  - rewrite (bind_raise_eq _ _ _ _ _ Hmk). exists w0. split; [reflexivity|].
    split; [exact Hx|]. split; [exact Hc|]. split; [exact Hp|]. split; [exact Hs|].
    split; [exact Hd|]. split; [exact Hbound|].
    split; [intros q _; rewrite Hf; reflexivity|].
    split; [|split; [|rewrite Hf; apply Hrefl]].
    + intros Hcan. discriminate (Hok Hplain Hcan).
    + intros _ _. rewrite Hf. reflexivity.
Qed.

(** *** The notification *)

(** What is read from the token file depends on that file, on whether the
    path is a directory and on what the system refuses, and on nothing
    else. *)
Lemma token_read_same w w1 :
  files w1 !! DEAUTH_TOKEN = files w !! DEAUTH_TOKEN →
  (DEAUTH_TOKEN ∈ dirs w1 ↔ DEAUTH_TOKEN ∈ dirs w) →
  faults w1 = faults w →
  token_read w1 = token_read w.
Proof.
  intros Hf Hd Hx. unfold token_read, read_text. rewrite Hf, Hx.
  destruct (decide (DEAUTH_TOKEN ∈ dirs w)) as [H|H].
  - rewrite !bool_decide_true by tauto. reflexivity.
  - rewrite !bool_decide_false by tauto.
    destruct (files w !! DEAUTH_TOKEN); [|reflexivity].
    destruct (faults w (Read DEAUTH_TOKEN)); reflexivity.
Qed.

(** [_notify_agent] never raises and touches nothing but the list of the
    processes: it starts [curl] exactly when it could read the token and
    [curl] is installed. *)
Lemma notify_any (clk : Clock) (a : str) (w : World) :
  ∃ ok w1,
    _notify_agent clk a w = Some (Ret ok, w1) ∧
    files w1 = files w ∧ dirs w1 = dirs w ∧ faults w1 = faults w ∧
    curl_installed w1 = curl_installed w ∧ stdout w1 = stdout w ∧
    (ok = true ↔ is_Some (token_read w) ∧ curl_installed w = true) ∧
    procs w1
    = procs w
      ++ (if ok
          then [curl_argv (payload_of clk a (strip (default [] (token_read w))))]
          else []).
Proof.
  pose proof (@not_is_Some_None str) as Hno.
  assert (Hfalse : ∀ t : option str,
    (t = None ∨ curl_installed w = false) →
    files w = files w ∧ dirs w = dirs w ∧ faults w = faults w ∧
    curl_installed w = curl_installed w ∧ stdout w = stdout w ∧
    (false = true ↔ is_Some t ∧ curl_installed w = true) ∧
    procs w = procs w ++ []).
  { intros t Ht. repeat split; try discriminate; [|symmetry; apply app_nil_r].
    intros [H1 H2]. destruct Ht as [->|Ht]; [destruct (Hno H1)|congruence]. }
  unfold _notify_agent, try_except, bind, path_exists, ret, token_read, present.
  unfold read_text, Popen.
  destruct (decide (DEAUTH_TOKEN ∈ dirs w)) as [Hd|Hd].
  - rewrite (bool_decide_true (_ ∨ _)) by tauto. cbn [negb].
    rewrite bool_decide_true by exact Hd.
    exists false, w. split; [reflexivity|]. apply Hfalse. left. reflexivity.
  - destruct (files w !! DEAUTH_TOKEN) as [raw|] eqn:Ef.
    + rewrite (bool_decide_true (_ ∨ _)) by eauto. cbn [negb].
      rewrite bool_decide_false by exact Hd. rewrite ?Ef.
      destruct (faults w (Read DEAUTH_TOKEN)) as [f|] eqn:Ex.
      * exists false, w. split; [reflexivity|]. apply Hfalse. left. reflexivity.
      * destruct (curl_installed w) eqn:Ec.
        -- eexists true, _. split; [reflexivity|].
           cbn [files dirs faults curl_installed procs stdout add_proc].
           repeat split; eauto.
        -- exists false, w. split; [reflexivity|].
           repeat split; try discriminate; try assumption;
             [intros [_ H]; discriminate H|symmetry; apply app_nil_r].
    + rewrite (bool_decide_false (_ ∨ _)).
      2:{ intros [H|H]; [destruct (Hno H)|tauto]. }
      cbn [negb]. rewrite ?bool_decide_false by exact Hd.
      exists false, w. split; [reflexivity|]. apply Hfalse. left. reflexivity.
Qed.

Lemma entry_notify clk new v :
  dict_set (entry_of clk new) (py "agent_notify") v
  = entry_of clk new ++ [(py "agent_notify", v)].
Proof. reflexivity. Qed.

Lemma entry_is_one_line clk new ok :
  splitlines (audit_line (entry_of clk new ++ [(py "agent_notify", JBool ok)]))
  = [dumps (entry_of clk new ++ [(py "agent_notify", JBool ok)])].
Proof.
  unfold splitlines, audit_line. rewrite splitlines_one_line; [reflexivity|].
  apply dumps_printable. reflexivity.
Qed.

(** What [read_current] finds depends on the flag file, on whether its path
    is a directory and on what the system refuses, and on nothing else. *)
Lemma armed_same w w1 :
  files w1 !! DEAUTH_FLAG = files w !! DEAUTH_FLAG →
  (DEAUTH_FLAG ∈ dirs w1 ↔ DEAUTH_FLAG ∈ dirs w) →
  faults w1 = faults w →
  armed w1 = armed w.
Proof.
  intros Hf Hd Hx.
  assert (Hr : ∀ o o1, read_text DEAUTH_FLAG w = Some (o, w) →
                       read_text DEAUTH_FLAG w1 = Some (o1, w1) → o1 = o).
  { unfold read_text. rewrite Hf, Hx.
    destruct (decide (DEAUTH_FLAG ∈ dirs w)) as [H|H].
    - rewrite !bool_decide_true by tauto. congruence.
    - rewrite !bool_decide_false by tauto.
      destruct (files w !! DEAUTH_FLAG); [|congruence].
      destruct (faults w (Read DEAUTH_FLAG)); congruence. }
  assert (Hp : bool_decide (present w1 DEAUTH_FLAG) = bool_decide (present w DEAUTH_FLAG)).
  { apply bool_decide_ext. unfold present. rewrite Hf, Hd. reflexivity. }
  unfold armed, read_current, try_except, bind, path_exists, ret.
  rewrite Hp. destruct (bool_decide (present w DEAUTH_FLAG)); [|reflexivity].
  destruct (read_text_same DEAUTH_FLAG w) as (o & Ho).
  destruct (read_text_same DEAUTH_FLAG w1) as (o1 & Ho1).
  rewrite Ho, Ho1, (Hr _ _ Ho Ho1). destruct o; reflexivity.
Qed.

(** *** The paths of the script *)

Lemma flag_dir_plain : plain_name (dirname DEAUTH_FLAG).
Proof. split; reflexivity. Qed.

Lemma log_dir_plain : plain_name (dirname DEAUTH_LOG).
Proof. split; reflexivity. Qed.

(** The paths at or above the directory of the flag file, and of the
    log. *)
Lemma above_flag_dir (x : string) :
  above (dirname DEAUTH_FLAG) x →
  x = "/var/lib/pwnagotchi" ∨ x = "/var/lib" ∨ x = "/var" ∨ x = "/".
Proof.
  intros [k ->]. destruct k as [|[|[|k]]]; [auto..|]. do 3 right.
  induction k as [|k IH]; [reflexivity|].
  change (dirname (Nat.iter (S (S (S k))) dirname (dirname DEAUTH_FLAG)) = "/").
  rewrite IH. reflexivity.
Qed.

Lemma above_log_dir (x : string) :
  above (dirname DEAUTH_LOG) x →
  x = "/var/log/pwnagotchi" ∨ x = "/var/log" ∨ x = "/var" ∨ x = "/".
Proof.
  intros [k ->]. destruct k as [|[|[|k]]]; [auto..|]. do 3 right.
  induction k as [|k IH]; [reflexivity|].
  change (dirname (Nat.iter (S (S (S k))) dirname (dirname DEAUTH_LOG)) = "/").
  rewrite IH. reflexivity.
Qed.

(** None of the four files of the script is at or above these
    directories. *)
Lemma file_not_above (p x : string) :
  p = DEAUTH_FLAG ∨ p = DEAUTH_LOG ∨ p = DEAUTH_ALLOW ∨ p = DEAUTH_TOKEN →
  above (dirname DEAUTH_FLAG) x ∨ above (dirname DEAUTH_LOG) x →
  x ≠ p.
Proof.
  intros Hp [Hx|Hx];
    [apply above_flag_dir in Hx|apply above_log_dir in Hx];
    destruct Hp as [-> | [-> | [-> | ->]]]; destruct Hx as [-> | [-> | [-> | ->]]];
    discriminate.
Qed.

(** *** One run *)

(** One run of [main], whatever the system refuses: it returns; nothing
    changes but the flag file, the log, the directories at or above
    theirs, the processes and the output; the flag file and the log hold
    what the script meant to write where the system lets it write; and the
    flag file is untouched where its directory is missing and cannot be
    made. *)
Lemma main_run (clk : Clock) (w : World) :
  ∃ w' ok,
    main clk w = Some (Ret tt, w') ∧
    faults w' = faults w ∧ curl_installed w' = curl_installed w ∧
    dirs w ⊆ dirs w' ∧
    (∀ x, x ∈ dirs w' →
          x ∈ dirs w ∨ above (dirname DEAUTH_FLAG) x ∨ above (dirname DEAUTH_LOG) x) ∧
    (∀ q, q ≠ DEAUTH_FLAG → q ≠ DEAUTH_LOG → files w' !! q = files w !! q) ∧
    stdout w' = stdout w ++ [message (negb (armed w))] ∧
    (ok = true ↔
       present w DEAUTH_ALLOW ∧ is_Some (token_read w) ∧ curl_installed w = true) ∧
    procs w'
    = procs w
      ++ (if ok
          then [curl_argv (payload_of clk (arm_word (negb (armed w)))
                             (strip (default [] (token_read w))))]
          else []) ∧
    (can_write_flag w →
     files w' !! DEAUTH_FLAG = Some (flag_text (negb (armed w)))) ∧
    (can_append_log w →
     files w' !! DEAUTH_LOG
     = Some (audit_log w
             ++ audit_line (entry_of clk (negb (armed w))
                            ++ [(py "agent_notify", JBool ok)]))) ∧
    (flag_dir_refused w → files w' !! DEAUTH_FLAG = files w !! DEAUTH_FLAG) ∧
    (∃ u, audit_log w' = audit_log w ++ u).
Proof.
  set (new := negb (armed w)).
  destruct (store_block DEAUTH_FLAG (write_text DEAUTH_FLAG (flag_text new))
              (Write DEAUTH_FLAG) (fun _ => flag_text new) (fun _ _ => True) w
              (fun _ => I)
              (fun w0 => write_text_spec DEAUTH_FLAG (flag_text new) w0)
              (fun _ _ => eq_refl) flag_dir_plain)
    as (w1 & Hw & Hx1 & Hc1 & Hp1 & Hs1 & Hd1 & Hd1' & Hf1 & Hflag & Hkeep & _).
  assert (Hsame1 : ∀ p, p = DEAUTH_FLAG ∨ p = DEAUTH_LOG ∨ p = DEAUTH_ALLOW
                        ∨ p = DEAUTH_TOKEN → (p ∈ dirs w1 ↔ p ∈ dirs w)).
  { intros p Hp. split; [|apply Hd1]. intros H.
    destruct (Hd1' _ H) as [H'|H']; [exact H'|].
    destruct (file_not_above p p Hp (or_introl H')). reflexivity. }
  (* lines 59 to 64, after the flag block *)
  assert (Hn : ∃ ok w2,
    (∀ B (K : dict → M World B),
       (let* allow := path_exists DEAUTH_ALLOW in
        let* entry :=
          (if allow then
             let* ok := _notify_agent clk (arm_word new) in
             ret (dict_set (entry_of clk new) (py "agent_notify") (JBool ok))
           else ret (dict_set (entry_of clk new) (py "agent_notify") (JBool false))) in
        K entry) w1
       = K (entry_of clk new ++ [(py "agent_notify", JBool ok)]) w2) ∧
    files w2 = files w1 ∧ dirs w2 = dirs w1 ∧ faults w2 = faults w1 ∧
    curl_installed w2 = curl_installed w1 ∧ stdout w2 = stdout w1 ∧
    (ok = true ↔
       present w DEAUTH_ALLOW ∧ is_Some (token_read w) ∧ curl_installed w = true) ∧
    procs w2
    = procs w
      ++ (if ok
          then [curl_argv (payload_of clk (arm_word new)
                             (strip (default [] (token_read w))))]
          else [])).
  { assert (Ht : token_read w1 = token_read w).
    { apply token_read_same; [apply Hf1; discriminate|apply Hsame1; auto|exact Hx1]. }
    assert (Ha : present w1 DEAUTH_ALLOW ↔ present w DEAUTH_ALLOW).
    { unfold present. rewrite Hf1 by discriminate. rewrite Hsame1 by auto. reflexivity. }
    destruct (decide (present w DEAUTH_ALLOW)) as [Hal|Hal].
    - destruct (notify_any clk (arm_word new) w1)
        as (ok & w2 & Hrun & Hf & Hd & Hx & Hc & Hs & Hok & Hp).
      exists ok, w2. split.
      { intros B K. unfold bind at 1. unfold path_exists at 1.
        rewrite bool_decide_true by tauto.
        unfold bind. rewrite Hrun. reflexivity. }
      do 5 (split; [assumption|]). split.
      + rewrite Hok, Ht, Hc1. tauto.
      + rewrite Hp, Hp1, Ht. reflexivity.
    - exists false, w1. split.
      { intros B K. unfold bind at 1. unfold path_exists at 1.
        rewrite bool_decide_false by tauto. reflexivity. }
      do 5 (split; [reflexivity|]). split.
      + split; [discriminate|tauto].
      + rewrite Hp1. symmetry. apply app_nil_r. }
  destruct Hn as (ok & w2 & Hrun2 & Hf2 & Hd2 & Hx2 & Hc2 & Hs2 & Hok & Hp2).
  set (line := dumps (entry_of clk new ++ [(py "agent_notify", JBool ok)]) ++ [10]).
  destruct (store_block DEAUTH_LOG (append_text DEAUTH_LOG line)
              (Append DEAUTH_LOG)
              (fun w0 => default [] (files w0 !! DEAUTH_LOG) ++ line) grown w2
              (fun a => ex_intro _ [] (eq_sym (app_nil_r _)))
              (fun w0 => append_text_spec DEAUTH_LOG line w0)
              (fun w0 E => f_equal (fun m => default [] (m !! DEAUTH_LOG) ++ line) E)
              log_dir_plain)
    as (w3 & Ha & Hx3 & Hc3 & Hp3 & Hs3 & Hd3 & Hd3' & Hf3 & Hlog & _ & Hgrow).
  exists (add_stdout (message new) w3), ok.
  split.
  { unfold main. rewrite (bind_ret_eq _ _ _ _ _ (read_current_armed w)).
    fold new. rewrite (bind_ret_eq _ _ _ _ _ Hw).
    rewrite Hrun2. unfold _audit. fold line. rewrite (bind_ret_eq _ _ _ _ _ Ha).
    reflexivity. }
  cbn [files dirs faults curl_installed procs stdout add_stdout].
  split; [congruence|]. split; [congruence|].
  split; [rewrite Hd2 in Hd3; set_solver|].
  split.
  { intros x Hx. destruct (Hd3' _ Hx) as [H|H]; [|auto].
    rewrite Hd2 in H. destruct (Hd1' _ H); auto. }
  split.
  { intros q Hq1 Hq2. rewrite Hf3, Hf2, Hf1 by assumption. reflexivity. }
  split; [congruence|].
  split; [exact Hok|].
  split; [congruence|].
  assert (E : files w2 !! DEAUTH_LOG = files w !! DEAUTH_LOG)
    by (rewrite Hf2; apply Hf1; discriminate).
  split; [|split; [|split]].
  - intros (Hm & Hnd & Hnf).
    rewrite Hf3, Hf2 by discriminate.
    apply Hflag; [exact Hm|exact Hnd| |exact Hnf].
    intros H. destruct (file_not_above DEAUTH_FLAG DEAUTH_FLAG); auto.
  - intros (Hm & Hnd & Hnf). unfold audit_log, audit_line. fold line.
    etransitivity; [|exact (f_equal (λ o, Some (default [] o ++ _)) E)].
    apply Hlog; [| | |congruence].
    + destruct Hm as [Hm0 Hm]. split; [rewrite Hd2; apply Hd1, Hm0|].
      destruct Hm as [Hm|[Hm1 Hm2]].
      * left. rewrite Hd2. apply Hd1, Hm.
      * right. split; [|congruence].
        rewrite Hf2, Hf1 by discriminate. exact Hm1.
    + rewrite Hd2. rewrite Hsame1 by auto. exact Hnd.
    + intros H. destruct (file_not_above DEAUTH_LOG DEAUTH_LOG); auto.
  - intros [Hnd Hr].
    rewrite Hf3, Hf2 by discriminate. apply Hkeep; assumption.
  - destruct Hgrow as [u Hu]. exists u. unfold audit_log.
    etransitivity; [exact Hu|]. exact (f_equal (λ o, default [] o ++ u) E).
Qed.

(** A run leaves the script able to do what it could do before. *)
Lemma can_makedirs_kept w w' d :
  dirs w ⊆ dirs w' → files w' !! d = files w !! d → faults w' = faults w →
  can_makedirs w d → can_makedirs w' d.
Proof.
  intros Hd Hf Hx [Hp [H|[H1 H2]]]; (split; [apply Hd, Hp|]); [left; apply Hd, H|right].
  split; congruence.
Qed.

Lemma main_step (clk : Clock) (w : World) :
  can_write_flag w → can_read_flag w → can_append_log w →
  ∃ w' ok,
    main clk w = Some (Ret tt, w') ∧
    can_write_flag w' ∧ can_read_flag w' ∧ can_append_log w' ∧
    armed w' = negb (armed w) ∧
    audit_log w'
    = audit_log w
      ++ audit_line (entry_of clk (negb (armed w)) ++ [(py "agent_notify", JBool ok)]) ∧
    stdout w' = stdout w ++ [message (negb (armed w))].
Proof.
  intros Hcw Hcr Hca.
  destruct (main_run clk w)
    as (w' & ok & Hrun & Hx & Hc & Hd & Hd' & Hf & Hs & Hok & Hp & Hflag & Hlog & Hkeep & Hgrow).
  assert (Hnf : DEAUTH_FLAG ∉ dirs w').
  { intros H. destruct (Hd' _ H) as [H'|H'].
    - destruct Hcr as [Hcr _]. exact (Hcr H').
    - destruct (file_not_above DEAUTH_FLAG DEAUTH_FLAG); auto. }
  assert (Hnl : DEAUTH_LOG ∉ dirs w').
  { intros H. destruct (Hd' _ H) as [H'|H'].
    - destruct Hca as (_ & Hca & _). exact (Hca H').
    - destruct (file_not_above DEAUTH_LOG DEAUTH_LOG); auto. }
  assert (Hcr' : can_read_flag w').
  { split; [exact Hnf|]. rewrite Hx. apply Hcr. }
  exists w', ok. split; [exact Hrun|]. split_and!.
  - destruct Hcw as (Hm & _ & Hw). split_and!; [|exact Hnf|congruence].
    apply (can_makedirs_kept w); [exact Hd|apply Hf; discriminate|exact Hx|exact Hm].
  - exact Hcr'.
  - destruct Hca as (Hm & _ & Hw). split_and!; [|exact Hnl|congruence].
    apply (can_makedirs_kept w); [exact Hd|apply Hf; discriminate|exact Hx|exact Hm].
  - apply armed_of_flag_text; [exact Hcr'|exact (Hflag Hcw)].
  - exact (f_equal (default []) (Hlog Hca)).
  - exact Hs.
Qed.

(** C1. Where the system lets the script write the flag file, read it back
    and append to the log, two runs of [main] bring the persisted flag
    back to what it was, whatever the flag file held at the start (nothing,
    the marker, or any other text), the first run having flipped it; and
    each run appends exactly one line, the JSON text of one entry naming
    the action of that run, to the audit log, leaving what the log held
    before in place. *)
Theorem toggle_twice_restores_flag_and_logs_once (c1 c2 : Clock) (w : World) :
  can_write_flag w → can_read_flag w → can_append_log w →
  ∃ w1 w2 e1 e2,
    main c1 w = Some (Ret tt, w1) ∧
    main c2 w1 = Some (Ret tt, w2) ∧
    armed w1 = negb (armed w) ∧
    armed w2 = armed w ∧
    audit_log w1 = audit_log w ++ dumps e1 ++ [10] ∧
    audit_log w2 = audit_log w1 ++ dumps e2 ++ [10] ∧
    splitlines (dumps e1 ++ [10]) = [dumps e1] ∧
    splitlines (dumps e2 ++ [10]) = [dumps e2] ∧
    dict_get e1 (py "action") = Some (JStr (arm_word (negb (armed w)))) ∧
    dict_get e2 (py "action") = Some (JStr (arm_word (armed w))).
Proof.
  intros Hcw Hcr Hca.
  destruct (main_step c1 w Hcw Hcr Hca)
    as (w1 & ok1 & Hrun1 & Hcw1 & Hcr1 & Hca1 & Ha1 & Hl1 & _).
  destruct (main_step c2 w1 Hcw1 Hcr1 Hca1)
    as (w2 & ok2 & Hrun2 & _ & _ & _ & Ha2 & Hl2 & _).
  exists w1, w2.
  exists (entry_of c1 (negb (armed w)) ++ [(py "agent_notify", JBool ok1)]).
  exists (entry_of c2 (negb (armed w1)) ++ [(py "agent_notify", JBool ok2)]).
  split_and!; try assumption; try apply entry_is_one_line.
  - rewrite Ha2, Ha1. apply negb_involutive.
  - reflexivity.
  - rewrite Ha1, negb_involutive. reflexivity.
Qed.

(** Two runs on a device on which nothing is refused. *)
Lemma toggle_twice_restores_flag_and_logs_once_witness :
  ∃ w1 w2 e1 e2,
    main noon fresh_device = Some (Ret tt, w1) ∧
    main noon w1 = Some (Ret tt, w2) ∧
    armed w1 = negb (armed fresh_device) ∧
    armed w2 = armed fresh_device ∧
    audit_log w1 = audit_log fresh_device ++ dumps e1 ++ [10] ∧
    audit_log w2 = audit_log w1 ++ dumps e2 ++ [10] ∧
    splitlines (dumps e1 ++ [10]) = [dumps e1] ∧
    splitlines (dumps e2 ++ [10]) = [dumps e2] ∧
    dict_get e1 (py "action") = Some (JStr (arm_word (negb (armed fresh_device)))) ∧
    dict_get e2 (py "action") = Some (JStr (arm_word (armed fresh_device))).
Proof.
  apply (toggle_twice_restores_flag_and_logs_once noon noon fresh_device).
  - split; [split; [apply (bool_decide_unpack _); vm_compute; exact I|]|split].
    + right. split; reflexivity.
    + apply (bool_decide_unpack _). vm_compute. exact I.
    + reflexivity.
  - split; [|reflexivity]. apply (bool_decide_unpack _). vm_compute. exact I.
  - split; [split; [apply (bool_decide_unpack _); vm_compute; exact I|]|split].
    + right. split; reflexivity.
    + apply (bool_decide_unpack _). vm_compute. exact I.
    + reflexivity.
Defined.

(** C1, as worded, fails where the log cannot be written. With a regular
    file in the place of the directory of the log, [os.makedirs] raises in
    [_audit], the error is passed over, and the run flips the flag and
    appends no entry: the log is as it was. *)
Lemma toggle_appends_nothing_to_unwritable_log :
  ∃ w1,
    main noon log_dir_is_a_file = Some (Ret tt, w1) ∧
    armed log_dir_is_a_file = false ∧ armed w1 = true ∧
    audit_log w1 = audit_log log_dir_is_a_file ∧
    ∀ e, audit_log w1 ≠ audit_log log_dir_is_a_file ++ dumps e ++ [10].
Proof.
  eexists. split; [vm_compute; reflexivity|].
  split_and!; [vm_compute; reflexivity..|].
  intros e. change (audit_log log_dir_is_a_file) with (@nil N).
  match goal with
  | |- audit_log ?x ≠ _ =>
      assert (E : audit_log x = []) by (vm_compute; reflexivity); rewrite E
  end.
  cbn [app]. intros H. destruct (dumps e); discriminate H.
Qed.




(** X1. One run of [main] returns, whatever the files hold and whatever the
    system refuses. It leaves every file but the flag file and the log as
    it was, and makes no directory but those of these two files and the
    ones above them. What the log held stays in place: the run can only
    put text after it. The line printed names the state the script meant
    to write, and where the flag file can be written it holds exactly the
    text 0 or 1, the opposite of what was read. *)
Theorem main_touches_only_flag_and_log (clk : Clock) (w : World) :
  ∃ w',
    main clk w = Some (Ret tt, w') ∧
    (∀ p, p ≠ DEAUTH_FLAG → p ≠ DEAUTH_LOG → files w' !! p = files w !! p) ∧
    dirs w ⊆ dirs w' ∧
    (∀ d, d ∈ dirs w' →
          d ∈ dirs w ∨
          In d ["/var/lib/pwnagotchi"; "/var/log/pwnagotchi";
                "/var/lib"; "/var/log"; "/var"; "/"]) ∧
    stdout w' = stdout w
                ++ [if armed w then py "Deauth: DISARMED" else py "Deauth: ARMED"] ∧
    curl_installed w' = curl_installed w ∧
    (∃ u, audit_log w' = audit_log w ++ u) ∧
    (can_write_flag w →
     files w' !! DEAUTH_FLAG = Some (if armed w then py "0" else py "1")).
Proof.
  destruct (main_run clk w)
    as (w' & ok & Hrun & Hx & Hc & Hd & Hd' & Hf & Hs & Hok & Hp & Hflag & Hlog & Hkeep & Hgrow).
  exists w'. split; [exact Hrun|]. split; [exact Hf|]. split; [exact Hd|].
  split; [|split; [|split; [exact Hc|split; [exact Hgrow|]]]].
  - intros d Hin. destruct (Hd' _ Hin) as [H|[H|H]]; [left; exact H|right..].
    + apply above_flag_dir in H.
      destruct H as [-> | [-> | [-> | ->]]]; cbn [In]; tauto.
    + apply above_log_dir in H.
      destruct H as [-> | [-> | [-> | ->]]]; cbn [In]; tauto.
  - rewrite Hs. destruct (armed w); reflexivity.
  - intros Hcw. rewrite (Hflag Hcw). destruct (armed w); reflexivity.
Qed.

(** X2. Where the directory of the flag file is missing and cannot be
    made, a run of [main] passes over the failure: it returns, the flag
    file is untouched and the flag reads as it did before. The line printed
    and the entry made name the opposite state all the same, and the entry
    is appended to the log where the log can be appended to. *)
Theorem refused_toggle_is_still_reported (clk : Clock) (w : World) :
  flag_dir_refused w →
  ∃ w' e,
    main clk w = Some (Ret tt, w') ∧
    files w' !! DEAUTH_FLAG = files w !! DEAUTH_FLAG ∧
    armed w' = armed w ∧
    stdout w' = stdout w
                ++ [if armed w then py "Deauth: DISARMED" else py "Deauth: ARMED"] ∧
    dict_get e (py "action") = Some (JStr (arm_word (negb (armed w)))) ∧
    (can_append_log w → audit_log w' = audit_log w ++ dumps e ++ [10]).
Proof.
  intros Href.
  destruct (main_run clk w)
    as (w' & ok & Hrun & Hx & Hc & Hd & Hd' & Hf & Hs & Hok & Hp & Hflag & Hlog & Hkeep & Hgrow).
  exists w', (entry_of clk (negb (armed w)) ++ [(py "agent_notify", JBool ok)]).
  split; [exact Hrun|]. split; [exact (Hkeep Href)|]. split; [|split; [|split]].
  - apply armed_same; [exact (Hkeep Href)| |exact Hx].
    split; [|apply Hd]. intros H.
    destruct (Hd' _ H) as [H'|H']; [exact H'|].
    destruct (file_not_above DEAUTH_FLAG DEAUTH_FLAG); auto.
  - rewrite Hs. destruct (armed w); reflexivity.
  - reflexivity.
  - intros Hca. exact (f_equal (default []) (Hlog Hca)).
Qed.

(** A regular file sits where the directory of the flag file should be;
    the log can be written. *)
Lemma refused_toggle_is_still_reported_witness :
  flag_dir_refused flag_dir_is_a_file ∧
  ∃ w' e,
    main noon flag_dir_is_a_file = Some (Ret tt, w') ∧
    files w' !! DEAUTH_FLAG = files flag_dir_is_a_file !! DEAUTH_FLAG ∧
    armed w' = armed flag_dir_is_a_file ∧
    stdout w' = stdout flag_dir_is_a_file
                ++ [if armed flag_dir_is_a_file then py "Deauth: DISARMED"
                    else py "Deauth: ARMED"] ∧
    dict_get e (py "action")
    = Some (JStr (arm_word (negb (armed flag_dir_is_a_file)))) ∧
    audit_log w' = audit_log flag_dir_is_a_file ++ dumps e ++ [10].
Proof.
  assert (H : flag_dir_refused flag_dir_is_a_file).
  { split; [|left]; apply (bool_decide_unpack _); vm_compute; exact I. }
  split; [exact H|].
  destruct (refused_toggle_is_still_reported noon flag_dir_is_a_file H)
    as (w' & e & Hrun & Hf & Ha & Hs & He & Hlog).
  exists w', e. split; [exact Hrun|]. split; [exact Hf|]. split; [exact Ha|].
  split; [exact Hs|]. split; [exact He|].
  apply Hlog.
  split; [split; [apply (bool_decide_unpack _); vm_compute; exact I|]|split].
  - right. split; reflexivity.
  - apply (bool_decide_unpack _). vm_compute. exact I.
  - reflexivity.
Defined.

(** X3. Where the system lets the script write the flag file, read it back
    and append to the log, runs of the script compose: after [n] runs the
    flag is what it was when [n] is even and the opposite when [n] is odd;
    the log is the old log followed by one line per run, in the order of
    the runs, each line carrying the time stamp of its run; and [n] lines
    have been printed. *)
Theorem toggles_compose (clks : list Clock) (w : World) :
  can_write_flag w → can_read_flag w → can_append_log w →
  ∃ w' entries,
    mains clks w = Some (Ret tt, w') ∧
    armed w' = xorb (armed w) (Nat.odd (length clks)) ∧
    audit_log w' = audit_log w ++ concat (map audit_line entries) ∧
    Forall (λ e, splitlines (audit_line e) = [dumps e]) entries ∧
    map (λ e, dict_get e (py "ts")) entries
    = map (λ c, Some (JStr (utcnow_isoformat c ++ py "Z"))) clks ∧
    length (stdout w') = (length (stdout w) + length clks)%nat.
Proof.
  revert w. induction clks as [|clk clks IH]; intros w Hcw Hcr Hca.
  - exists w, []. cbn [mains length map concat Nat.odd]. split; [reflexivity|].
    rewrite xorb_false_r, app_nil_r, Nat.add_0_r. repeat split. constructor.
  - destruct (main_step clk w Hcw Hcr Hca)
      as (w1 & ok & Hm & Hcw1 & Hcr1 & Hca1 & Ha & Hl & Hs).
    destruct (IH w1 Hcw1 Hcr1 Hca1) as (w' & entries & Hr & Ha' & Hl' & Ho & Ht & Hs').
    exists w', ((entry_of clk (negb (armed w)) ++ [(py "agent_notify", JBool ok)])
               :: entries).
    split_and!.
    + cbn [mains]. unfold bind. rewrite Hm. exact Hr.
    + rewrite Ha', Ha. cbn [length]. rewrite Nat.odd_succ, <- Nat.negb_odd.
      destruct (armed w), (Nat.odd (length clks)); reflexivity.
    + rewrite Hl', Hl. cbn [map concat]. rewrite <- app_assoc. reflexivity.
    + constructor; [apply entry_is_one_line|exact Ho].
    + cbn [map]. rewrite Ht. reflexivity.
    + rewrite Hs', Hs, length_app. cbn [length]. lia.
Qed.

(** Three runs on a device on which nothing is refused. *)
Lemma toggles_compose_witness :
  ∃ w' entries,
    mains [noon; noon; noon] fresh_device = Some (Ret tt, w') ∧
    armed w' = xorb (armed fresh_device) (Nat.odd 3) ∧
    audit_log w' = audit_log fresh_device ++ concat (map audit_line entries) ∧
    Forall (λ e, splitlines (audit_line e) = [dumps e]) entries ∧
    map (λ e, dict_get e (py "ts")) entries
    = map (λ c, Some (JStr (utcnow_isoformat c ++ py "Z"))) [noon; noon; noon] ∧
    length (stdout w') = (length (stdout fresh_device) + 3)%nat.
Proof.
  apply (toggles_compose [noon; noon; noon] fresh_device).
  - split; [split; [apply (bool_decide_unpack _); vm_compute; exact I|]|split].
    + right. split; reflexivity.
    + apply (bool_decide_unpack _). vm_compute. exact I.
    + reflexivity.
  - split; [|reflexivity]. apply (bool_decide_unpack _). vm_compute. exact I.
  - split; [split; [apply (bool_decide_unpack _); vm_compute; exact I|]|split].
    + right. split; reflexivity.
    + apply (bool_decide_unpack _). vm_compute. exact I.
    + reflexivity.
Defined.

(** What the script reads from the token file: the text of a regular file
    the system lets it read, with CR LF and CR turned into LF. *)
Lemma token_read_spec (w : World) (t : str) :
  token_read w = Some t ↔
  (DEAUTH_TOKEN ∉ dirs w) ∧
  ∃ s, files w !! DEAUTH_TOKEN = Some s ∧ faults w (Read DEAUTH_TOKEN) = None
       ∧ t = universal_newlines s.
Proof.
  unfold token_read, read_text.
  destruct (decide (DEAUTH_TOKEN ∈ dirs w)) as [Hd|Hd].
  - rewrite bool_decide_true by exact Hd. split; [discriminate|tauto].
  - rewrite bool_decide_false by exact Hd.
    destruct (files w !! DEAUTH_TOKEN) as [s|].
    + destruct (faults w (Read DEAUTH_TOKEN)) as [f|].
      * split; [discriminate|]. intros (_ & s' & _ & H & _). discriminate H.
      * split.
        -- intros [= <-]. eauto.
        -- intros (_ & s' & [= <-] & _ & ->). reflexivity.
    + split; [discriminate|]. intros (_ & s' & H & _). discriminate H.
Qed.

(** X4. The attempt to notify the agent is recorded as it went:
    [agent_notify] is true in the entry made exactly when a [curl] process
    was started, which takes something at the path of the allow file, a
    token file that is a regular file the system lets the script read, and
    [curl] itself. The process is given the text read from the token file,
    line ends normalised, without its surrounding white space. In every
    other case nothing is started. The entry is appended to the log where
    the log can be appended to. *)
Theorem notification_is_recorded_as_it_went (clk : Clock) (w : World) :
  ∃ w' ok,
    main clk w = Some (Ret tt, w') ∧
    (ok = true ↔
       present w DEAUTH_ALLOW ∧ curl_installed w = true ∧
       (DEAUTH_TOKEN ∉ dirs w) ∧
       ∃ s, files w !! DEAUTH_TOKEN = Some s ∧ faults w (Read DEAUTH_TOKEN) = None) ∧
    (ok = false → procs w' = procs w) ∧
    (ok = true →
     ∃ s, files w !! DEAUTH_TOKEN = Some s ∧
          procs w'
          = procs w
            ++ [curl_argv (payload_of clk (arm_word (negb (armed w)))
                             (strip (universal_newlines s)))]) ∧
    (can_append_log w →
     audit_log w'
     = audit_log w
       ++ audit_line (entry_of clk (negb (armed w))
                      ++ [(py "agent_notify", JBool ok)])).
Proof.
  destruct (main_run clk w)
    as (w' & ok & Hrun & Hx & Hc & Hd & Hd' & Hf & Hs & Hok & Hp & Hflag & Hlog & Hkeep & Hgrow).
  exists w', ok. split; [exact Hrun|]. split; [|split; [|split]].
  - rewrite Hok. split.
    + intros (Ha & [t Ht] & Hcurl). apply token_read_spec in Ht.
      destruct Ht as (Hnd & s & Hs' & Hr & _). eauto 10.
    + intros (Ha & Hcurl & Hnd & s & Hs' & Hr). split; [exact Ha|]. split; [|exact Hcurl].
      exists (universal_newlines s). apply token_read_spec. eauto 10.
  - intros ->. rewrite Hp. apply app_nil_r.
  - intros ->. destruct Hok as [Hok _]. destruct (Hok eq_refl) as (_ & [t Ht] & _).
    pose proof Ht as Ht'. apply token_read_spec in Ht'.
    destruct Ht' as (_ & s & Hs' & _ & ->). exists s. split; [exact Hs'|].
    rewrite Hp, Ht. reflexivity.
  - intros Hca. exact (f_equal (default []) (Hlog Hca)).
Qed.

Import FancyMenu.

Lemma permit_spec (w : World) :
  _permit w =
  Some (Ret (if bool_decide (present w DEAUTH_ALLOW)
             then if bool_decide (present w DEAUTH_TOKEN)
                  then (true, py "ok") else (false, py "token-missing")
             else (false, py "allow-file-missing")), w).
Proof.
  unfold _permit, bind, path_exists, ret.
  destruct (bool_decide (present w DEAUTH_ALLOW)); [|reflexivity]. cbn [negb].
  destruct (bool_decide (present w DEAUTH_TOKEN)); reflexivity.
Qed.

(** X5. [_permit] changes nothing and answers ok exactly when something
    exists at the path of the allow file and at the path of the token file;
    its reason names the first that is missing, the allow file before the
    token file. Where [_permit] denies, a run of [main] starts no process.
    Where it permits, a run starts one as soon as [curl] is installed and
    the token file can be read; a token file that cannot be read (a
    directory, or a file the system refuses to read) starts none, although
    [_permit] says ok. *)
Theorem permit_agrees_with_script (clk : Clock) (w : World) :
  ∃ b reason w',
    _permit w = Some (Ret (b, reason), w) ∧
    (b = true ↔ present w DEAUTH_ALLOW ∧ present w DEAUTH_TOKEN) ∧
    (reason = py "allow-file-missing" ↔ ¬ present w DEAUTH_ALLOW) ∧
    (reason = py "token-missing" ↔
       present w DEAUTH_ALLOW ∧ ¬ present w DEAUTH_TOKEN) ∧
    (reason = py "ok" ↔ b = true) ∧
    main clk w = Some (Ret tt, w') ∧
    (b = false → procs w' = procs w) ∧
    (b = true → curl_installed w = true →
     DEAUTH_TOKEN ∉ dirs w → faults w (Read DEAUTH_TOKEN) = None →
     ∃ argv, procs w' = procs w ++ [argv]) ∧
    (DEAUTH_TOKEN ∈ dirs w ∨ is_Some (faults w (Read DEAUTH_TOKEN)) →
     procs w' = procs w).
Proof.
  destruct (main_run clk w)
    as (w' & ok & Hrun & Hx & Hc & Hd & Hd' & Hf & Hs & Hok & Hp & Hflag & Hlog & Hkeep & Hgrow).
  assert (Htok : is_Some (token_read w) → present w DEAUTH_TOKEN).
  { intros [t Ht]. apply token_read_spec in Ht.
    destruct Ht as (_ & s & Hs' & _). left. eauto. }
  assert (Hnone : ok = false → procs w' = procs w).
  { intros ->. rewrite Hp. apply app_nil_r. }
  assert (Hdeny : ¬ (present w DEAUTH_ALLOW ∧ present w DEAUTH_TOKEN) →
                  procs w' = procs w).
  { intros Hn. apply Hnone. destruct ok; [|reflexivity]. destruct Hok as [Hok _].
    destruct (Hok eq_refl) as (Ha & Ht & _). destruct Hn. split; [exact Ha|exact (Htok Ht)]. }
  assert (Hunread : DEAUTH_TOKEN ∈ dirs w ∨ is_Some (faults w (Read DEAUTH_TOKEN)) →
                    procs w' = procs w).
  { intros Hn. apply Hnone. destruct ok; [|reflexivity]. destruct Hok as [Hok _].
    destruct (Hok eq_refl) as (_ & [t Ht] & _). apply token_read_spec in Ht.
    destruct Ht as (Hnd & s & _ & Hr & _).
    destruct Hn as [Hn|[f Hn]]; [tauto|congruence]. }
  assert (Hstart : present w DEAUTH_ALLOW ∧ present w DEAUTH_TOKEN →
                   curl_installed w = true →
                   DEAUTH_TOKEN ∉ dirs w → faults w (Read DEAUTH_TOKEN) = None →
                   ∃ argv, procs w' = procs w ++ [argv]).
  { intros [Ha [[s Hs']|Ht]] Hcurl Hnd Hr; [|tauto].
    assert (Hsome : is_Some (token_read w)).
    { exists (universal_newlines s). apply token_read_spec. eauto 10. }
    destruct Hok as [_ Hok]. rewrite Hok in Hp by auto. eauto. }
  rewrite permit_spec.
  destruct (decide (present w DEAUTH_ALLOW)) as [Ha|Ha];
    [destruct (decide (present w DEAUTH_TOKEN)) as [Ht|Ht]|].
  - rewrite !bool_decide_true by assumption.
    exists true, (py "ok"), w'. split; [reflexivity|].
    split; [tauto|]. split; [split; [intros H; vm_compute in H; discriminate H|tauto]|].
    split; [split; [intros H; vm_compute in H; discriminate H|tauto]|].
    split; [tauto|]. split; [exact Hrun|]. split; [discriminate|].
    split; [intros _; apply Hstart; auto|exact Hunread].
  - rewrite bool_decide_true, bool_decide_false by assumption.
    exists false, (py "token-missing"), w'. split; [reflexivity|].
    split; [split; [discriminate|tauto]|].
    split; [split; [intros H; vm_compute in H; discriminate H|tauto]|].
    split; [tauto|].
    split; [split; [intros H; vm_compute in H; discriminate H|discriminate]|].
    split; [exact Hrun|]. split; [intros _; apply Hdeny; tauto|].
    split; [discriminate|exact Hunread].
  - rewrite bool_decide_false by assumption.
    exists false, (py "allow-file-missing"), w'. split; [reflexivity|].
    split; [split; [discriminate|tauto]|].
    split; [tauto|].
    split; [split; [intros H; vm_compute in H; discriminate H|tauto]|].
    split; [split; [intros H; vm_compute in H; discriminate H|discriminate]|].
    split; [exact Hrun|]. split; [intros _; apply Hdeny; tauto|].
    split; [discriminate|exact Hunread].
Qed.

End ToggleDeauthFacts.

(** * The on-screen menu *)

Section OnscreenMenuFacts.
Import OnscreenMenu.

Lemma at_signal_same (st : State) : at_signal (signal st) st = st.
Proof. destruct st; reflexivity. Qed.

Lemma _btn_eq (pin : N) (st : State) :
  _btn pin st =
  match signal st with
  | [] => None
  | smp :: _ => Some (Ret (is_low (smp pin)), st)
  end.
Proof.
  unfold _btn, try_except, bind, GPIO_input.
  destruct (signal st) as [|smp rest]; [reflexivity|].
  destruct (smp pin) as [[|]|e]; reflexivity.
Qed.

Lemma time_sleep_eq (ms : N) (st : State) :
  time_sleep ms st = Some (Ret tt, at_signal (drop (N.to_nat (ms / 10)) (signal st)) st).
Proof. reflexivity. Qed.

Lemma spin_fuel (pin : N) (sig : list sample) :
  forall (n : nat) (st : State),
    signal st = sig -> (length sig < n)%nat ->
    while_fuel n (_btn pin) (time_sleep 10) st =
    match released pin sig with
    | Some sig' => Some (Ret tt, at_signal sig' st)
    | None => None
    end.
Proof.
  induction sig as [|smp rest IH]; intros n st Hs Hn.
  - destruct n as [|n]; [lia|].
    cbn [while_fuel released]. unfold bind. rewrite _btn_eq, Hs. reflexivity.
  - destruct n as [|n]; [cbn in Hn; lia|].
    cbn [while_fuel released]. unfold bind at 1. rewrite _btn_eq, Hs.
    destruct (is_low (smp pin)).
    + unfold bind. rewrite time_sleep_eq, Hs.
      change (N.to_nat (10 / 10)) with 1%nat.
      change (drop 1 (smp :: rest)) with (drop 0 rest). rewrite drop_0.
      rewrite (IH n (at_signal rest st)); [|reflexivity|cbn in Hn; lia].
      destruct (released pin rest); reflexivity.
    + unfold ret. rewrite <- Hs, at_signal_same. reflexivity.
Qed.

Lemma _edge_eq (pin : N) (st : State) :
  _edge pin st =
  match edge_result pin (signal st) with
  | Some (b, sig') => Some (Ret b, at_signal sig' st)
  | None => None
  end.
Proof.
  unfold _edge, edge_result, bind at 1. rewrite _btn_eq.
  destruct (signal st) as [|smp rest] eqn:Hs; [reflexivity|].
  destruct (is_low (smp pin)).
  - unfold bind at 1. rewrite time_sleep_eq.
    change (N.to_nat (DEBOUNCE_S / 10)) with 15%nat. rewrite Hs.
    unfold bind, while_.
    rewrite (spin_fuel pin (drop 15 (smp :: rest))); [|reflexivity|unfold fuel_of; cbn [signal at_signal set_signal]; lia].
    destruct (released pin (drop 15 (smp :: rest))); reflexivity.
  - unfold ret. rewrite <- Hs, at_signal_same. reflexivity.
Qed.

Lemma only_waits_ret {A} (a : A) : only_waits (ret a).
Proof. intros st o st' H. injection H as <- <-. exists a, (signal st). rewrite at_signal_same. auto. Qed.

Lemma only_waits_bind {A B} (m : M State A) (k : A -> M State B) :
  only_waits m -> (forall a, only_waits (k a)) -> only_waits (bind m k).
Proof.
  intros Hm Hk st o st' H. unfold bind in H.
  destruct (m st) as [[r s1]|] eqn:E; [|discriminate].
  destruct (Hm _ _ _ E) as (a & sig1 & -> & ->).
  destruct (Hk a _ _ _ H) as (b & sig2 & -> & ->).
  exists b, sig2. auto.
Qed.

Lemma only_waits_edge (pin : N) : only_waits (_edge pin).
Proof.
  intros st o st' H. rewrite _edge_eq in H.
  destruct (edge_result pin (signal st)) as [[b sig']|]; [|discriminate].
  injection H as <- <-. eauto.
Qed.

Lemma only_waits_orM (a b : M State bool) :
  only_waits a -> only_waits b -> only_waits (orM a b).
Proof.
  intros Ha Hb. apply only_waits_bind; [assumption|].
  intros [|]; [apply only_waits_ret|assumption].
Qed.

Lemma only_waits_sleep (ms : N) : only_waits (time_sleep ms).
Proof. intros st o st' H. rewrite time_sleep_eq in H. injection H as <- <-. eauto. Qed.

Lemma only_waits_wait_confirm_fuel (n : nat) : only_waits (wait_confirm_fuel n).
Proof.
  induction n as [|n IH]; [intros st o st' H; discriminate|].
  cbn [wait_confirm_fuel]. apply only_waits_bind.
  - repeat apply only_waits_orM; apply only_waits_edge.
  - intros [|]; [apply only_waits_ret|].
    apply only_waits_bind; [apply only_waits_sleep|auto].
Qed.

Lemma only_waits_wait_confirm : only_waits wait_confirm.
Proof. intros st o st' H. exact (only_waits_wait_confirm_fuel _ _ _ _ H). Qed.

Lemma only_waits_wait_next_fuel (n : nat) : only_waits (wait_next_fuel n).
Proof.
  induction n as [|n IH]; [intros st o st' H; discriminate|].
  cbn [wait_next_fuel]. apply only_waits_bind.
  - apply only_waits_orM; apply only_waits_edge.
  - intros [|]; [apply only_waits_ret|].
    apply only_waits_bind; [apply only_waits_orM; apply only_waits_edge|].
    intros [|]; [apply only_waits_ret|].
    apply only_waits_bind; [apply only_waits_sleep|auto].
Qed.

Lemma only_waits_wait_next : only_waits wait_next.
Proof. intros st o st' H. exact (only_waits_wait_next_fuel _ _ _ _ H). Qed.


Lemma edge_keeps_self (pin : N) (st : State) (b : bool) (st1 : State) :
  _edge pin st = Some (Ret b, st1) -> self st1 = self st.
Proof.
  intros H. destruct (only_waits_edge pin _ _ _ H) as (a & sig' & _ & ->). reflexivity.
Qed.

Section Tick.
Context (u : view).

Lemma tick_toggle_closes (st st1 : State) :
  ready (self st) = true ->
  _edge PIN_KEY3 st = Some (Ret true, st1) ->
  menu_open (self st) = true ->
  on_ui_update u st = Some (Ret tt, set_self (set_menu_open false) st1).
Proof.
  intros Hr H3 Ho.
  destruct (only_waits_edge _ _ _ _ H3) as (b & sig' & _ & ->).
  unfold on_ui_update, bind, get_self, modify. rewrite Hr. cbn [negb].
  rewrite H3. unfold set_self, at_signal, set_signal.
  cbn [self signal shown threads shell menu_open set_menu_open negb].
  rewrite Ho. reflexivity.
Qed.

Lemma tick_toggle_opens (st st1 : State) :
  ready (self st) = true ->
  _edge PIN_KEY3 st = Some (Ret true, st1) ->
  menu_open (self st) = false ->
  on_ui_update u st = navigate u (set_self (set_menu_open true) st1).
Proof.
  intros Hr H3 Ho.
  destruct (only_waits_edge _ _ _ _ H3) as (b & sig' & _ & ->).
  unfold on_ui_update, bind, get_self, modify. rewrite Hr. cbn [negb].
  rewrite H3. unfold set_self, at_signal, set_signal.
  cbn [self signal shown threads shell menu_open set_menu_open negb].
  rewrite Ho. reflexivity.
Qed.

Lemma tick_no_toggle (st st1 : State) :
  ready (self st) = true ->
  _edge PIN_KEY3 st = Some (Ret false, st1) ->
  on_ui_update u st =
  if menu_open (self st) then navigate u st1 else Some (Ret tt, st1).
Proof.
  intros Hr H3.
  destruct (only_waits_edge _ _ _ _ H3) as (b & sig' & _ & ->).
  unfold on_ui_update, bind, get_self, ret. rewrite Hr. cbn [negb].
  rewrite H3. cbn [self set_self at_signal set_signal].
  destruct (menu_open (self st)); reflexivity.
Qed.

Lemma navigate_up (s s1 : State) :
  _edge PIN_UP s = Some (Ret true, s1) ->
  navigate u s = (let* _ := move (-1) in _draw_menu u) s1.
Proof. intros Hu. unfold navigate, bind at 1. rewrite Hu. reflexivity. Qed.

Lemma navigate_down (s s1 s2 : State) :
  _edge PIN_UP s = Some (Ret false, s1) ->
  _edge PIN_DOWN s1 = Some (Ret true, s2) ->
  navigate u s = (let* _ := move 1 in _draw_menu u) s2.
Proof.
  intros Hu Hd. unfold navigate, bind at 1. rewrite Hu.
  unfold bind at 1. rewrite Hd. reflexivity.
Qed.

Lemma navigate_back (s s1 s2 s3 : State) :
  _edge PIN_UP s = Some (Ret false, s1) ->
  _edge PIN_DOWN s1 = Some (Ret false, s2) ->
  orM (_edge PIN_LEFT) (_edge PIN_KEY2) s2 = Some (Ret true, s3) ->
  navigate u s = Some (Ret tt, set_self (set_menu_open false) s3).
Proof.
  intros Hu Hd Hb. unfold navigate, bind at 1. rewrite Hu.
  unfold bind at 1. rewrite Hd. unfold bind at 1. rewrite Hb. reflexivity.
Qed.

Lemma navigate_select (s s1 s2 s3 s4 : State) :
  _edge PIN_UP s = Some (Ret false, s1) ->
  _edge PIN_DOWN s1 = Some (Ret false, s2) ->
  orM (_edge PIN_LEFT) (_edge PIN_KEY2) s2 = Some (Ret false, s3) ->
  orM (_edge PIN_RIGHT) (_edge PIN_KEY1) s3 = Some (Ret true, s4) ->
  navigate u s = (let* _ := select in _draw_menu u) s4.
Proof.
  intros Hu Hd Hb Hsel. unfold navigate, bind at 1. rewrite Hu.
  unfold bind at 1. rewrite Hd. unfold bind at 1. rewrite Hb.
  unfold bind at 1. rewrite Hsel. reflexivity.
Qed.

Lemma navigate_none (s s1 s2 s3 s4 : State) :
  _edge PIN_UP s = Some (Ret false, s1) ->
  _edge PIN_DOWN s1 = Some (Ret false, s2) ->
  orM (_edge PIN_LEFT) (_edge PIN_KEY2) s2 = Some (Ret false, s3) ->
  orM (_edge PIN_RIGHT) (_edge PIN_KEY1) s3 = Some (Ret false, s4) ->
  navigate u s = _draw_menu u s4.
Proof.
  intros Hu Hd Hb Hsel. unfold navigate, bind at 1. rewrite Hu.
  unfold bind at 1. rewrite Hd. unfold bind at 1. rewrite Hb.
  unfold bind at 1. rewrite Hsel. reflexivity.
Qed.

End Tick.

(** C4, as the code has it. A tick of [on_ui_update] first handles the edge
    on KEY3 by flipping [menu_open]; the tick ends there when the menu is
    closed after that step, so a toggle that closes the menu suppresses
    every other edge. A toggle that opens the menu does not: the same tick
    goes on to [navigate], as a tick without toggle does when the menu is
    open. [navigate] acts on the first edge that fires among UP, DOWN, back
    (LEFT or KEY2) and select (RIGHT or KEY1), in this order, and does not
    read the pins behind it. *)
Theorem tick_handles_toggle_then_first_of_chain (u : view) (st : State) :
  ready (self st) = true ->
  (forall st1, _edge PIN_KEY3 st = Some (Ret true, st1) ->
     menu_open (self st) = true ->
     on_ui_update u st = Some (Ret tt, set_self (set_menu_open false) st1))
  /\ (forall st1, _edge PIN_KEY3 st = Some (Ret true, st1) ->
        menu_open (self st) = false ->
        on_ui_update u st = navigate u (set_self (set_menu_open true) st1))
  /\ (forall st1, _edge PIN_KEY3 st = Some (Ret false, st1) ->
        on_ui_update u st =
        if menu_open (self st) then navigate u st1 else Some (Ret tt, st1))
  /\ (forall s s1, _edge PIN_UP s = Some (Ret true, s1) ->
        navigate u s = (let* _ := move (-1) in _draw_menu u) s1)
  /\ (forall s s1 s2,
        _edge PIN_UP s = Some (Ret false, s1) ->
        _edge PIN_DOWN s1 = Some (Ret true, s2) ->
        navigate u s = (let* _ := move 1 in _draw_menu u) s2)
  /\ (forall s s1 s2 s3,
        _edge PIN_UP s = Some (Ret false, s1) ->
        _edge PIN_DOWN s1 = Some (Ret false, s2) ->
        orM (_edge PIN_LEFT) (_edge PIN_KEY2) s2 = Some (Ret true, s3) ->
        navigate u s = Some (Ret tt, set_self (set_menu_open false) s3))
  /\ (forall s s1 s2 s3 s4,
        _edge PIN_UP s = Some (Ret false, s1) ->
        _edge PIN_DOWN s1 = Some (Ret false, s2) ->
        orM (_edge PIN_LEFT) (_edge PIN_KEY2) s2 = Some (Ret false, s3) ->
        orM (_edge PIN_RIGHT) (_edge PIN_KEY1) s3 = Some (Ret true, s4) ->
        navigate u s = (let* _ := select in _draw_menu u) s4)
  /\ (forall s s1 s2 s3 s4,
        _edge PIN_UP s = Some (Ret false, s1) ->
        _edge PIN_DOWN s1 = Some (Ret false, s2) ->
        orM (_edge PIN_LEFT) (_edge PIN_KEY2) s2 = Some (Ret false, s3) ->
        orM (_edge PIN_RIGHT) (_edge PIN_KEY1) s3 = Some (Ret false, s4) ->
        navigate u s = _draw_menu u s4).
Proof.
  intros Hr. split_and!.
  - intros st1. now apply tick_toggle_closes.
  - intros st1. now apply tick_toggle_opens.
  - intros st1. now apply tick_no_toggle.
  - apply navigate_up.
  - apply navigate_down.
  - apply navigate_back.
  - apply navigate_select.
  - apply navigate_none.
Qed.

Lemma tick_handles_toggle_then_first_of_chain_witness :
  ready (self (boot toggle_with_up)) = true /\
  on_ui_update View (boot toggle_with_up) =
  navigate View (set_self (set_menu_open true)
                   (at_signal (drop 20 toggle_with_up) (boot toggle_with_up))).
Proof.
  split; [reflexivity|].
  apply (tick_handles_toggle_then_first_of_chain View (boot toggle_with_up) eq_refl);
    vm_compute; reflexivity.
Defined.

(** C4 as worded does not hold. With the menu closed, KEY3 and UP are
    pressed together, KEY3 released after 200 ms and UP after 400 ms. The
    one tick that starts with the press sees the edge on KEY3 and opens the
    menu, then sees the edge on UP and moves the selection from entry 0 to
    entry 9: the toggle has not suppressed the navigation edge. *)
Lemma toggle_that_opens_does_not_suppress :
  ~ (forall st st1 st' : State,
       ready (self st) = true ->
       _edge PIN_KEY3 st = Some (Ret true, st1) ->
       on_ui_update View st = Some (Ret tt, st') ->
       menu_open (self st') = negb (menu_open (self st)) /\
       menu_index (self st') = menu_index (self st) /\
       threads st' = threads st).
Proof.
  intros H.
  edestruct (H (boot toggle_with_up)) as (_ & Hi & _);
    [reflexivity | vm_compute; reflexivity | vm_compute; reflexivity |].
  vm_compute in Hi. discriminate Hi.
Qed.

(** The tick of the scenario above: the menu is open and entry 9 selected
    when it returns, 400 ms after it began. *)
Example toggle_with_up_tick :
  exists st', on_ui_update View (boot toggle_with_up) = Some (Ret tt, st') /\
    menu_open (self st') = true /\ menu_index (self st') = 9%Z /\
    signal st' = replicate 20 idle.
Proof. eexists. split; [vm_compute; reflexivity|]. repeat split. Qed.

Lemma move_eq (delta : Z) (s : State) :
  menu_items (self s) <> [] ->
  move delta s =
  Some (Ret tt, set_self (set_menu_index
                  ((menu_index (self s) + delta)
                     mod Z.of_nat (length (menu_items (self s))))) s).
Proof.
  intros Hn. unfold move, bind, get_self, lift, py_mod, modify.
  destruct (Z.eqb_spec (Z.of_nat (length (menu_items (self s)))) 0) as [E|E];
    [|reflexivity].
  destruct (menu_items (self s)); [congruence|cbn in E; lia].
Qed.

Lemma select_separator (s : State) (label : str) :
  py_index (menu_items (self s)) (menu_index (self s)) = Ret (label, None) ->
  select s = Some (Ret tt, s).
Proof. intros H. unfold select, bind, get_self, lift. rewrite H. reflexivity. Qed.

Lemma select_action (s : State) (label : str) (fn : action) :
  py_index (menu_items (self s)) (menu_index (self s)) = Ret (label, Some fn) ->
  select s = Some (Ret tt, add_thread label fn s).
Proof. intros H. unfold select, bind, get_self, lift. rewrite H. reflexivity. Qed.

Lemma sees_select_at (s s4 : State) :
  sees_select s s4 -> exists sig', s4 = at_signal sig' s.
Proof.
  intros (s1 & s2 & s3 & Hu & Hd & Hb & Hs).
  destruct (only_waits_edge _ _ _ _ Hu) as (? & g1 & _ & ->).
  destruct (only_waits_edge _ _ _ _ Hd) as (? & g2 & _ & ->).
  destruct (only_waits_orM _ _ (only_waits_edge _) (only_waits_edge _) _ _ _ Hb)
    as (? & g3 & _ & ->).
  destruct (only_waits_orM _ _ (only_waits_edge _) (only_waits_edge _) _ _ _ Hs)
    as (? & g4 & _ & ->).
  exists g4. reflexivity.
Qed.

Lemma navigate_select_separator (u : view) (s s4 : State) (label : str) :
  py_index (menu_items (self s)) (menu_index (self s)) = Ret (label, None) ->
  sees_select s s4 ->
  navigate u s = Some (Ret tt, add_screen (menu_screen (self s)) s4)
  /\ self s4 = self s /\ threads s4 = threads s /\ shown s4 = shown s.
Proof.
  intros Hi Hsel. destruct (sees_select_at _ _ Hsel) as (g4 & ->).
  destruct Hsel as (s1 & s2 & s3 & Hu & Hd & Hb & Hs4).
  split; [|repeat split].
  rewrite (navigate_select u _ _ _ _ _ Hu Hd Hb Hs4).
  unfold bind. rewrite (select_separator _ label) by exact Hi. reflexivity.
Qed.

Lemma navigate_select_action (u : view) (s s4 : State) (label : str) (fn : action) :
  py_index (menu_items (self s)) (menu_index (self s)) = Ret (label, Some fn) ->
  sees_select s s4 ->
  navigate u s
  = Some (Ret tt, add_screen (menu_screen (self s)) (add_thread label fn s4))
  /\ self s4 = self s /\ threads s4 = threads s /\ shown s4 = shown s.
Proof.
  intros Hi Hsel. destruct (sees_select_at _ _ Hsel) as (g4 & ->).
  destruct Hsel as (s1 & s2 & s3 & Hu & Hd & Hb & Hs4).
  split; [|repeat split].
  rewrite (navigate_select u _ _ _ _ _ Hu Hd Hb Hs4).
  unfold bind. rewrite (select_action _ label fn) by exact Hi. reflexivity.
Qed.

(** C8. With a separator selected (an entry without action), the select
    branch does nothing: [select] returns in the state it was called in. A
    tick that reads an edge on RIGHT or KEY1 starts no thread, leaves the
    plugin object as it was and redraws the same menu; when the same tick
    has first read the edge on KEY3 that opened the menu, [menu_open] is
    what that toggle made it and nothing else has changed. *)
Theorem select_on_separator_is_noop (u : view) (st : State) (label : str) :
  py_index (menu_items (self st)) (menu_index (self st)) = Ret (label, None) ->
  ready (self st) = true ->
  select st = Some (Ret tt, st)
  /\ (forall s0 s4,
        menu_open (self st) = true ->
        _edge PIN_KEY3 st = Some (Ret false, s0) ->
        sees_select s0 s4 ->
        exists st',
          on_ui_update u st = Some (Ret tt, st') /\
          self st' = self st /\
          threads st' = threads st /\
          shown st' = shown st ++ [menu_screen (self st)])
  /\ (forall s0 s4,
        menu_open (self st) = false ->
        _edge PIN_KEY3 st = Some (Ret true, s0) ->
        sees_select (set_self (set_menu_open true) s0) s4 ->
        exists st',
          on_ui_update u st = Some (Ret tt, st') /\
          self st' = set_menu_open true (self st) /\
          threads st' = threads st).
Proof.
  intros Hi Hr. split_and!.
  - apply (select_separator st label Hi).
  - intros s0 s4 Ho H3 Hsel.
    destruct (only_waits_edge _ _ _ _ H3) as (? & g0 & _ & ->).
    destruct (navigate_select_separator u (at_signal g0 st) s4 label Hi Hsel)
      as (Hn & Hself & Hth & Hsh).
    eexists. split; [rewrite (tick_no_toggle u _ _ Hr H3), Ho; exact Hn|].
    cbn [self threads shown add_screen]. rewrite Hself, Hth, Hsh. repeat split.
  - intros s0 s4 Ho H3 Hsel.
    destruct (only_waits_edge _ _ _ _ H3) as (? & g0 & _ & ->).
    destruct (navigate_select_separator u
                (set_self (set_menu_open true) (at_signal g0 st)) s4 label
                Hi Hsel)
      as (Hn & Hself & Hth & Hsh).
    eexists. split; [rewrite (tick_toggle_opens u _ _ Hr H3 Ho); exact Hn|].
    cbn [self threads shown add_screen]. rewrite Hself, Hth. repeat split.
Qed.

Lemma select_on_separator_is_noop_witness :
  exists st',
    on_ui_update View (open_at 5 select_press) = Some (Ret tt, st') /\
    self st' = self (open_at 5 select_press) /\
    threads st' = threads (open_at 5 select_press) /\
    shown st' = shown (open_at 5 select_press)
                ++ [menu_screen (self (open_at 5 select_press))].
Proof.
  destruct (select_on_separator_is_noop View (open_at 5 select_press) [0x2014])
    as (_ & H & _).
  - reflexivity.
  - reflexivity.
  - apply (H (open_at 5 select_press)
             (at_signal (replicate 20 idle) (open_at 5 select_press))).
    + reflexivity.
    + vm_compute. reflexivity.
    + exists (open_at 5 select_press), (open_at 5 select_press),
        (open_at 5 select_press).
      split_and!; vm_compute; reflexivity.
Defined.

(** C3, as the code has it. A tick that reads an edge on RIGHT or KEY1 while
    an entry with an action is selected starts a thread for it, whatever
    threads were started before and whether or not they have returned:
    [on_ui_update] keeps no record of the actions in flight and tests none.
    It does so too when it has first read the edge on KEY3 that opened the
    menu. *)
Theorem select_starts_thread_whatever_runs
  (u : view) (st : State) (label : str) (fn : action) :
  py_index (menu_items (self st)) (menu_index (self st)) = Ret (label, Some fn) ->
  ready (self st) = true ->
  (forall s0 s4,
      menu_open (self st) = true ->
      _edge PIN_KEY3 st = Some (Ret false, s0) ->
      sees_select s0 s4 ->
      exists st',
        on_ui_update u st = Some (Ret tt, st') /\
        threads st' = threads st ++ [(label, fn)] /\
        self st' = self st)
  /\ (forall s0 s4,
        menu_open (self st) = false ->
        _edge PIN_KEY3 st = Some (Ret true, s0) ->
        sees_select (set_self (set_menu_open true) s0) s4 ->
        exists st',
          on_ui_update u st = Some (Ret tt, st') /\
          threads st' = threads st ++ [(label, fn)] /\
          self st' = set_menu_open true (self st)).
Proof.
  intros Hi Hr. split.
  - intros s0 s4 Ho H3 Hsel.
    destruct (only_waits_edge _ _ _ _ H3) as (? & g0 & _ & ->).
    destruct (navigate_select_action u (at_signal g0 st) s4 label fn Hi Hsel)
      as (Hn & Hself & Hth & Hsh).
    eexists. split; [rewrite (tick_no_toggle u _ _ Hr H3), Ho; exact Hn|].
    cbn [self threads shown add_screen add_thread]. rewrite Hself, Hth.
    repeat split.
  - intros s0 s4 Ho H3 Hsel.
    destruct (only_waits_edge _ _ _ _ H3) as (? & g0 & _ & ->).
    destruct (navigate_select_action u
                (set_self (set_menu_open true) (at_signal g0 st)) s4 label fn
                Hi Hsel)
      as (Hn & Hself & Hth & Hsh).
    eexists. split; [rewrite (tick_toggle_opens u _ _ Hr H3 Ho); exact Hn|].
    cbn [self threads shown add_screen add_thread]. rewrite Hself, Hth.
    repeat split.
Qed.

Lemma select_starts_thread_whatever_runs_witness :
  threads second_press_begins = [(py "Status", act_status)] /\
  exists st',
    on_ui_update View second_press_begins = Some (Ret tt, st') /\
    threads st' = threads second_press_begins ++ [(py "Status", act_status)] /\
    self st' = self second_press_begins.
Proof.
  split; [vm_compute; reflexivity|].
  destruct (select_starts_thread_whatever_runs View second_press_begins
              (py "Status") act_status) as (H & _).
  - reflexivity.
  - reflexivity.
  - apply (H second_press_begins
             (at_signal (replicate 24 idle) second_press_begins)).
    + reflexivity.
    + vm_compute. reflexivity.
    + exists second_press_begins, second_press_begins, second_press_begins.
      split_and!; vm_compute; reflexivity.
Defined.

(** The scenario [two_selects], instant by instant (in samples of 10 ms
    left in a recording of 100). The thread of "Status" is started with 50
    samples left; its body returns at once and the thread waits for a
    confirmation. RIGHT is pressed again from 39 to 30 samples left. The
    tick that begins with 39 samples left reads the press, finds the pin
    released 150 ms later and starts a second thread with 24 samples left.
    The first thread, which samples the pins every 50 ms, reads the same
    press with 35 samples left and leaves its wait with 20 samples left. *)
Example two_selects_timeline :
  threads first_select_done = [(py "Status", act_status)] /\
  samples_left first_select_done = 50%nat /\
  (exists s1 s2,
     result_shown (py "Status") _act_status first_select_done = Some s1 /\
     samples_left s1 = 50%nat /\
     wait_confirm s1 = Some (Ret tt, s2) /\
     samples_left s2 = 20%nat) /\
  samples_left second_press_begins = 39%nat /\
  exists st',
    on_ui_update View second_press_begins = Some (Ret tt, st') /\
    samples_left st' = 24%nat /\
    threads st' = [(py "Status", act_status); (py "Status", act_status)].
Proof.
  split_and!; try (vm_compute; reflexivity).
  - do 2 eexists. split_and!; vm_compute; reflexivity.
  - eexists. split_and!; vm_compute; reflexivity.
Qed.

(** C3 as worded does not hold. In the scenario [two_selects] the thread
    started for "Status" is in its wait for a confirmation from before the
    third tick begins until after it returns, and the third tick, which
    reads the second press of RIGHT, starts a second thread. *)
Lemma second_thread_started_during_modal_wait :
  ~ (forall (st st' s0 : State) (label : str) (fn : M State value),
       ready (self st) = true ->
       on_ui_update View st = Some (Ret tt, st') ->
       waiting_between label fn s0 st st' ->
       threads st' = threads st).
Proof.
  intros H.
  assert (E : exists st',
             on_ui_update View second_press_begins = Some (Ret tt, st') /\
             threads st' <> threads second_press_begins /\
             waiting_between (py "Status") _act_status first_select_done
               second_press_begins st').
  { eexists. split; [vm_compute; reflexivity|].
    split; [vm_compute; discriminate|].
    do 2 eexists. split_and!.
    - vm_compute. reflexivity.
    - vm_compute. reflexivity.
    - vm_compute. lia.
    - vm_compute. lia. }
  destruct E as (st' & E1 & E2 & E3).
  apply E2. apply (H _ _ _ _ _ (eq_refl : ready (self second_press_begins) = true) E1 E3).
Qed.

Lemma set_menu_index_same (p : Plugin) : set_menu_index (menu_index p) p = p.
Proof. destruct p; reflexivity. Qed.

Lemma set_index_same (st : State) :
  set_self (set_menu_index (menu_index (self st))) st = st.
Proof. destruct st as [[] ? ? ? ?]; reflexivity. Qed.

Lemma set_index_twice (i j : Z) (st : State) :
  set_self (set_menu_index j) (set_self (set_menu_index i) st)
  = set_self (set_menu_index j) st.
Proof. reflexivity. Qed.

Lemma moves_eq (deltas : list Z) :
  forall st : State,
    let n := Z.of_nat (length (menu_items (self st))) in
    (0 <= menu_index (self st) < n)%Z ->
    moves deltas st =
    Some (Ret tt, set_self (set_menu_index
                    ((menu_index (self st) + foldr Z.add 0%Z deltas) mod n)) st).
Proof.
  induction deltas as [|d ds IH]; intros st n Hi.
  - cbn [moves foldr]. unfold ret. rewrite Z.add_0_r, Z.mod_small by exact Hi.
    rewrite set_index_same. reflexivity.
  - assert (Hn : menu_items (self st) <> []).
    { intros E. subst n. rewrite E in Hi. cbn in Hi. lia. }
    cbn [moves foldr]. unfold bind. rewrite move_eq by exact Hn. fold n.
    rewrite IH.
    + cbn [self set_self menu_index menu_items set_menu_index]. fold n.
      rewrite set_index_twice, Zplus_mod_idemp_l, Z.add_assoc.
      reflexivity.
    + cbn [self set_self menu_index menu_items set_menu_index]. fold n.
      apply Z.mod_pos_bound. lia.
Qed.

Lemma sum_replicate_1 (k : nat) : foldr Z.add 0%Z (replicate k 1%Z) = Z.of_nat k.
Proof. induction k as [|k IH]; [reflexivity|]. cbn [replicate foldr]. rewrite IH. lia. Qed.

Lemma edge_not_pressed (pin : N) (st : State) (smp : sample) (rest : list sample) :
  signal st = smp :: rest ->
  is_low (smp pin) = false ->
  _edge pin st = Some (Ret false, st).
Proof.
  intros Hs Hl. rewrite _edge_eq, Hs. unfold edge_result. rewrite Hl.
  rewrite <- Hs, at_signal_same. reflexivity.
Qed.

Lemma down_tick (u : view) (st : State) (rest : list sample) :
  ready (self st) = true ->
  menu_open (self st) = true ->
  menu_items (self st) <> [] ->
  signal st = replicate 20 (held PIN_DOWN) ++ idle :: rest ->
  exists scr,
    on_ui_update u st =
    Some (Ret tt,
          add_screen scr
            (set_self (set_menu_index
                         ((menu_index (self st) + 1)
                            mod Z.of_nat (length (menu_items (self st)))))
               (at_signal (idle :: rest) st))).
Proof.
  intros Hr Ho Hn Hs.
  assert (H3 : _edge PIN_KEY3 st = Some (Ret false, st)).
  { apply (edge_not_pressed _ _ (held PIN_DOWN) _ Hs). reflexivity. }
  assert (Hu : _edge PIN_UP st = Some (Ret false, st)).
  { apply (edge_not_pressed _ _ (held PIN_DOWN) _ Hs). reflexivity. }
  assert (Hd : _edge PIN_DOWN st = Some (Ret true, at_signal (idle :: rest) st)).
  { rewrite _edge_eq, Hs. reflexivity. }
  eexists.
  rewrite (tick_no_toggle u _ _ Hr H3), Ho.
  rewrite (navigate_down u _ _ _ Hu Hd).
  unfold bind. rewrite move_eq by exact Hn. reflexivity.
Qed.

Lemma host_down_ticks (u : view) (k : nat) :
  forall (st : State) (rest : list sample),
    let n := Z.of_nat (length (menu_items (self st))) in
    ready (self st) = true ->
    menu_open (self st) = true ->
    (0 <= menu_index (self st) < n)%Z ->
    signal st = down_presses k rest ->
    exists st',
      host_ticks k 1 u st = Some (Ret tt, st') /\
      self st' = set_menu_index ((menu_index (self st) + Z.of_nat k) mod n) (self st) /\
      signal st' = rest /\
      threads st' = threads st.
Proof.
  induction k as [|k IH]; intros st rest n Hr Ho Hi Hs.
  - exists st. cbn [host_ticks]. unfold ret. split; [reflexivity|].
    rewrite Z.add_0_r, Z.mod_small by exact Hi.
    rewrite set_menu_index_same. auto.
  - assert (Hn : menu_items (self st) <> []).
    { intros E. subst n. rewrite E in Hi. cbn in Hi. lia. }
    cbn [down_presses] in Hs.
    destruct (down_tick u st _ Hr Ho Hn Hs) as (scr & Et). fold n in Et.
    cbn [host_ticks]. unfold bind at 1. rewrite Et.
    unfold bind at 1, modify at 1.
    edestruct (IH (elapse 1 (add_screen scr
                 (set_self (set_menu_index ((menu_index (self st) + 1) mod n))
                    (at_signal (idle :: down_presses k rest) st)))) rest)
      as (st' & E & Hself & Hsig & Hth).
    + exact Hr.
    + exact Ho.
    + cbn [self set_self menu_index menu_items set_menu_index elapse set_signal
           add_screen at_signal]. fold n. apply Z.mod_pos_bound. lia.
    + cbn [signal elapse set_signal add_screen set_self at_signal].
      change (drop 1 (idle :: down_presses k rest)) with (drop 0 (down_presses k rest)).
      apply drop_0.
    + exists st'. split; [exact E|]. split; [|split; [exact Hsig|exact Hth]].
      rewrite Hself.
      cbn [self set_self menu_index menu_items set_menu_index elapse set_signal
           add_screen at_signal ready menu_open ui rclone_remote].
      fold n. rewrite Zplus_mod_idemp_l.
      replace (menu_index (self st) + 1 + Z.of_nat k)%Z
        with (menu_index (self st) + Z.of_nat (S k))%Z by lia.
      reflexivity.
Qed.

(** C5. Navigation sets the index to [(index + delta) mod N], [N] the
    number of entries: after any sequence of steps from an index in range
    the index is in [0, N), [N] steps down in a row leave the state they
    began in, and so do [N] ticks of the host that each read one press of
    DOWN. *)
Theorem navigation_wraps_around (u : view) (st : State) (rest : list sample) :
  let n := length (menu_items (self st)) in
  (0 <= menu_index (self st) < Z.of_nat n)%Z ->
  (forall delta, exists st',
      move delta st = Some (Ret tt, st') /\
      menu_index (self st')
      = ((menu_index (self st) + delta) mod Z.of_nat n)%Z /\
      menu_items (self st') = menu_items (self st))
  /\ (forall deltas, exists st',
        moves deltas st = Some (Ret tt, st') /\
        (0 <= menu_index (self st') < Z.of_nat n)%Z /\
        menu_items (self st') = menu_items (self st))
  /\ moves (replicate n 1%Z) st = Some (Ret tt, st)
  /\ (ready (self st) = true -> menu_open (self st) = true ->
      signal st = down_presses n rest ->
      exists st', host_ticks n 1 u st = Some (Ret tt, st') /\ self st' = self st).
Proof.
  intros n Hi.
  assert (Hn : menu_items (self st) <> []).
  { intros E. subst n. rewrite E in Hi. cbn in Hi. lia. }
  assert (Hw : ((menu_index (self st) + Z.of_nat n) mod Z.of_nat n
                = menu_index (self st))%Z).
  { replace (menu_index (self st) + Z.of_nat n)%Z
      with (menu_index (self st) + 1 * Z.of_nat n)%Z by lia.
    rewrite Z_mod_plus_full. apply Z.mod_small. exact Hi. }
  split_and!.
  - intros delta. eexists. split; [apply move_eq; exact Hn|]. split; reflexivity.
  - intros deltas. eexists. split; [apply moves_eq; exact Hi|].
    split; [|reflexivity].
    cbn [self set_self menu_index set_menu_index]. apply Z.mod_pos_bound. lia.
  - rewrite moves_eq by exact Hi. rewrite sum_replicate_1. fold n.
    rewrite Hw, set_index_same. reflexivity.
  - intros Hr Ho Hs.
    destruct (host_down_ticks u n st rest Hr Ho Hi Hs) as (st' & E & Hself & _).
    exists st'. split; [exact E|]. rewrite Hself. fold n.
    rewrite Hw. apply set_menu_index_same.
Qed.

Lemma navigation_wraps_around_witness :
  (0 <= 7 < 10)%Z /\
  moves (replicate 10 1%Z) (open_at 7 (down_presses 10 []))
  = Some (Ret tt, open_at 7 (down_presses 10 [])) /\
  exists st',
    host_ticks 10 1 View (open_at 7 (down_presses 10 [])) = Some (Ret tt, st') /\
    self st' = self (open_at 7 (down_presses 10 [])).
Proof.
  split; [lia|].
  destruct (navigation_wraps_around View (open_at 7 (down_presses 10 [])) [])
    as (_ & _ & Hm & Ht).
  - simpl. lia.
  - split; [exact Hm|]. apply Ht; reflexivity.
Defined.

Lemma is_low_held (pin : N) : is_low (held pin pin) = true.
Proof. unfold held. rewrite N.eqb_refl. reflexivity. Qed.

Lemma released_held (pin : N) (d a : nat) :
  released pin (replicate d (held pin) ++ replicate a idle) =
  match a with O => None | S _ => Some (replicate a idle) end.
Proof.
  induction d as [|d IH].
  - destruct a; reflexivity.
  - cbn [replicate app released]. rewrite is_low_held. exact IH.
Qed.

Lemma drop_press_cycle (pin : N) (k b d a : nat) :
  drop k (press_cycle pin b d a) =
  press_cycle pin (b - k) (d - (k - b)) (a - (k - b - d)).
Proof.
  unfold press_cycle.
  rewrite !drop_app, !drop_replicate, !length_replicate. reflexivity.
Qed.

Lemma press_cycle_idle (pin : N) (a : nat) :
  press_cycle pin 0 0 a = replicate a idle.
Proof. reflexivity. Qed.


Lemma edge_result_cons (pin : N) (smp : sample) (rest : list sample) :
  edge_result pin (smp :: rest) =
  if is_low (smp pin) then
    match released pin (drop 15 (smp :: rest)) with
    | Some sig' => Some (true, sig')
    | None => None
    end
  else Some (false, smp :: rest).
Proof. reflexivity. Qed.

Lemma edge_pressed (pin : N) (d a : nat) (st : State) :
  signal st = replicate (S d) (held pin) ++ replicate a idle ->
  _edge pin st =
  match (a - (15 - S d))%nat with
  | O => None
  | S _ => Some (Ret true, at_signal (replicate (a - (15 - S d)) idle) st)
  end.
Proof.
  intros Hs. rewrite _edge_eq, Hs.
  change (replicate (S d) (held pin) ++ replicate a idle)
    with (held pin :: (replicate d (held pin) ++ replicate a idle)).
  rewrite edge_result_cons, is_low_held.
  change (held pin :: (replicate d (held pin) ++ replicate a idle))
    with (press_cycle pin 0 (S d) a).
  rewrite drop_press_cycle.
  unfold press_cycle. change (0 - 15)%nat with 0%nat. cbn [replicate app].
  rewrite released_held.
  replace (a - (15 - 0 - S d))%nat with (a - (15 - S d))%nat by lia.
  destruct (a - (15 - S d))%nat; reflexivity.
Qed.








(** Nor does one press give true at most once when a read fails during
    it. UP is held from 50 ms to 460 ms, the read at 250 ms fails, and the
    host calls [_edge] every 70 ms after the last call has returned: the
    call at 70 ms returns true at the failed read, and the call at 320 ms,
    the button still held, returns true at the release. *)
Example failed_read_splits_a_press :
  poll 7 PIN_UP (boot (press_with_failed_read PIN_UP))
  = [false; true; true; false; false; false; false]
  /\ count_true (poll 7 PIN_UP (boot (press_with_failed_read PIN_UP))) = 2%nat.
Proof. split; vm_compute; reflexivity. Qed.

Lemma _draw_msg_eq (lines : list str) (st : State) (v : view) :
  ui (self st) = Some v ->
  _draw_msg lines st = Some (Ret tt, add_screen lines st).
Proof. intros H. unfold _draw_msg, bind, get_self. rewrite H. reflexivity. Qed.

Section Dispatcher.
Context (label : str) (fn : M State value) (st : State) (v : view).
Hypothesis Hui : ui (self st) = Some v.
Hypothesis Hfn : keeps_self fn.

Lemma ui_after_body (r : outcome value) (st2 : State) :
  fn (add_screen [label ++ py "..."] st) = Some (r, st2) ->
  ui (self st2) = Some v.
Proof. intros H. rewrite (Hfn _ _ _ H). exact Hui. Qed.

Lemma _run_action_returned (out : value) (st2 : State) :
  fn (add_screen [label ++ py "..."] st) = Some (Ret out, st2) ->
  _run_action label fn st = wait_confirm (add_screen (result_lines label out) st2).
Proof.
  intros H. pose proof (ui_after_body _ _ H) as Hu2.
  unfold _run_action, bind at 1, get_self. rewrite Hui.
  unfold bind at 1. rewrite (_draw_msg_eq _ _ v Hui).
  unfold try_except, bind at 1. rewrite H.
  unfold bind at 1. rewrite (_draw_msg_eq _ _ v Hu2).
  destruct (wait_confirm (add_screen (result_lines label out) st2))
    as [[[[]|e] s]|] eqn:E; try reflexivity.
  destruct (only_waits_wait_confirm _ _ _ E) as (? & ? & Hc & _). discriminate Hc.
Qed.

Lemma _run_action_raised (e : exn) (st2 : State) :
  fn (add_screen [label ++ py "..."] st) = Some (Raise e, st2) ->
  _run_action label fn st = wait_confirm (add_screen (error_lines label e) st2).
Proof.
  intros H. pose proof (ui_after_body _ _ H) as Hu2.
  unfold _run_action, bind at 1, get_self. rewrite Hui.
  unfold bind at 1. rewrite (_draw_msg_eq _ _ v Hui).
  unfold try_except, bind at 1. rewrite H.
  unfold bind at 1. rewrite (_draw_msg_eq _ _ v Hu2). reflexivity.
Qed.

Lemma _run_action_blocked :
  fn (add_screen [label ++ py "..."] st) = None ->
  _run_action label fn st = None.
Proof.
  intros H.
  unfold _run_action, bind at 1, get_self. rewrite Hui.
  unfold bind at 1. rewrite (_draw_msg_eq _ _ v Hui).
  unfold try_except, bind at 1. rewrite H. reflexivity.
Qed.

Lemma _run_action_never_raises (o : outcome unit) (st' : State) :
  _run_action label fn st = Some (o, st') -> o = Ret tt.
Proof.
  intros H.
  destruct (fn (add_screen [label ++ py "..."] st)) as [[[out|e] st2]|] eqn:E.
  - rewrite (_run_action_returned _ _ E) in H.
    destruct (only_waits_wait_confirm _ _ _ H) as ([] & ? & -> & _). reflexivity.
  - rewrite (_run_action_raised _ _ E) in H.
    destruct (only_waits_wait_confirm _ _ _ H) as ([] & ? & -> & _). reflexivity.
  - rewrite (_run_action_blocked E) in H. discriminate H.
Qed.

End Dispatcher.

Lemma keeps_self_ret {A} (a : A) : keeps_self (ret a).
Proof. intros st o st' H. injection H as _ <-. reflexivity. Qed.

Lemma keeps_self_raise {A} (e : exn) : keeps_self (raise (A := A) e).
Proof. intros st o st' H. injection H as _ <-. reflexivity. Qed.

Lemma keeps_self_lift {A} (r : outcome A) : keeps_self (lift r).
Proof. intros st o st' H. injection H as _ <-. reflexivity. Qed.

Lemma keeps_self_bind {A B} (m : M State A) (k : A -> M State B) :
  keeps_self m -> (forall a, keeps_self (k a)) -> keeps_self (bind m k).
Proof.
  intros Hm Hk st o st' H. unfold bind in H.
  destruct (m st) as [[[a|e] s1]|] eqn:E; [| |discriminate].
  - rewrite (Hk a _ _ _ H). exact (Hm _ _ _ E).
  - injection H as _ <-. exact (Hm _ _ _ E).
Qed.

Lemma keeps_self_waits {A} (m : M State A) : only_waits m -> keeps_self m.
Proof. intros Hm st o st' H. destruct (Hm _ _ _ H) as (? & ? & _ & ->). reflexivity. Qed.

Lemma keeps_self_sh (cmd : str) : keeps_self (_sh cmd).
Proof. intros st o st' H. injection H as _ <-. reflexivity. Qed.

Lemma keeps_self_draw_msg (lines : list str) : keeps_self (_draw_msg lines).
Proof.
  intros st o st' H. unfold _draw_msg, bind, get_self in H.
  destruct (ui (self st)); injection H as _ <-; reflexivity.
Qed.

Create HintDb keeps.
#[local] Hint Resolve keeps_self_ret keeps_self_raise keeps_self_lift
  keeps_self_sh keeps_self_draw_msg only_waits_wait_next
  only_waits_wait_confirm keeps_self_waits : keeps.

Ltac keeps_step :=
  match goal with
  | |- keeps_self (bind _ _) => apply keeps_self_bind; [|intros ?]
  | |- keeps_self (if ?b then _ else _) => destruct b
  | |- keeps_self (match ?x with Some _ => _ | None => _ end) => destruct x
  | |- keeps_self _ => solve [auto with keeps]
  end.

Lemma keeps_self_show_pages (chunks : list (list str)) : keeps_self (show_pages chunks).
Proof.
  induction chunks as [|chunk rest IH]; cbn [show_pages]; repeat keeps_step.
Qed.

Lemma keeps_self_show_networks (newest : list str) : keeps_self (show_networks newest).
Proof.
  induction newest as [|ssid rest IH]; cbn [show_networks]; repeat keeps_step.
Qed.

Lemma keeps_self_detect : keeps_self _detect_pwn_service.
Proof. unfold _detect_pwn_service. repeat keeps_step. Qed.

Lemma keeps_self_journal_tail (n : N) : keeps_self (_journal_tail n).
Proof.
  pose proof keeps_self_detect.
  unfold _journal_tail. repeat keeps_step; auto.
Qed.

Lemma keeps_self_show_events (patterns_search : str -> bool) :
  keeps_self (_act_show_events patterns_search).
Proof.
  pose proof keeps_self_journal_tail. pose proof keeps_self_show_pages.
  unfold _act_show_events, page_display. repeat keeps_step; auto.
Qed.

Lemma keeps_self_act_show_networks (found : list str) :
  keeps_self (_act_show_networks found).
Proof.
  pose proof keeps_self_show_networks.
  unfold _act_show_networks. repeat keeps_step; auto.
Qed.

Lemma keeps_self_status : keeps_self _act_status.
Proof.
  pose proof keeps_self_detect.
  unfold _act_status. repeat keeps_step; auto.
Qed.

Lemma keeps_self_restart_service : keeps_self _act_restart_service.
Proof.
  pose proof keeps_self_detect.
  unfold _act_restart_service. repeat keeps_step; auto.
Qed.

Lemma result_lines_nonempty (label : str) (s : str) :
  s <> [] ->
  result_lines label (PStr s)
  = [label ++ py ":"] ++ take 8 (splitlines s) ++ [[]; OK_BACK].
Proof. intros H. destruct s; [congruence|reflexivity]. Qed.

Lemma result_lines_empty (label : str) (out : value) :
  truthy out = false ->
  result_lines label out = [label ++ py ":"; py "Done."; []; OK_BACK].
Proof. intros H. unfold result_lines. rewrite H. reflexivity. Qed.

Lemma _run_action_detached (label : str) (fn : M State value) (st : State) :
  ui (self st) = None -> _run_action label fn st = Some (Ret tt, st).
Proof. intros H. unfold _run_action, bind, get_self. rewrite H. reflexivity. Qed.

(** C6, as the code has it. [_run_action] does not raise, whatever the
    action body does short of touching the plugin object. When the body
    raises [e], the screen shown is the label, a blank line, the text
    "Error: " followed by [str(e)], a blank line and the footer. When the
    body returns a text that is not empty, the screen shown is the label
    with a colon, the first 8 lines of the text, a blank line and the
    footer. Either screen is on the display when the wait for a
    confirmation begins. Without a display attached the call returns at
    once and the body does not run. *)
Theorem dispatcher_catches_and_displays
  (label : str) (fn : M State value) (st : State) :
  keeps_self fn ->
  (forall o st', _run_action label fn st = Some (o, st') -> o = Ret tt)
  /\ (ui (self st) = None -> _run_action label fn st = Some (Ret tt, st))
  /\ (forall v e st2,
        ui (self st) = Some v ->
        fn (add_screen [label ++ py "..."] st) = Some (Raise e, st2) ->
        _run_action label fn st
        = wait_confirm
            (add_screen [label; []; py "Error: " ++ exn_str e; []; OK_BACK] st2))
  /\ (forall v s st2,
        ui (self st) = Some v ->
        fn (add_screen [label ++ py "..."] st) = Some (Ret (PStr s), st2) ->
        s <> [] ->
        _run_action label fn st
        = wait_confirm
            (add_screen ([label ++ py ":"] ++ take 8 (splitlines s)
                         ++ [[]; OK_BACK]) st2)).
Proof.
  intros Hfn. split_and!.
  - intros o st' H. destruct (ui (self st)) as [v|] eqn:Hui.
    + exact (_run_action_never_raises label fn st v Hui Hfn o st' H).
    + rewrite (_run_action_detached label fn st Hui) in H.
      injection H as <- _. reflexivity.
  - apply _run_action_detached.
  - intros v e st2 Hui H.
    exact (_run_action_raised label fn st v Hui Hfn e st2 H).
  - intros v s st2 Hui H Hs.
    rewrite (_run_action_returned label fn st v Hui Hfn _ st2 H).
    rewrite (result_lines_nonempty label s Hs). reflexivity.
Qed.

Lemma dispatcher_catches_and_displays_witness :
  _run_action (py "Upload logs")
    (raise (Exn "OSError" (py "No space left on device")))
    (boot select_press)
  = wait_confirm
      (add_screen [py "Upload logs"; [];
                   py "Error: " ++ py "No space left on device"; []; OK_BACK]
         (add_screen [py "Upload logs" ++ py "..."] (boot select_press))).
Proof.
  destruct (dispatcher_catches_and_displays (py "Upload logs")
              (raise (Exn "OSError" (py "No space left on device")))
              (boot select_press)) as (_ & _ & H & _).
  - apply keeps_self_raise.
  - apply (H View (Exn "OSError" (py "No space left on device"))
             (add_screen [py "Upload logs" ++ py "..."] (boot select_press)));
      reflexivity.
Defined.

(** C6 as worded does not hold. "Restart pwnagotchi" is run on a device
    whose shell commands print nothing: the body returns the empty text,
    and the screen shown is not the label line followed by the (no) lines
    of that text and the footer, it has the line "Done." in between. *)
Lemma empty_output_is_shown_as_done :
  ~ (forall (label : str) (fn : M State value) (st st2 : State) (s : str),
       keeps_self fn ->
       ui (self st) = Some View ->
       fn (add_screen [label ++ py "..."] st) = Some (Ret (PStr s), st2) ->
       _run_action label fn st
       = wait_confirm
           (add_screen ([label ++ py ":"] ++ take 8 (splitlines s)
                        ++ [[]; OK_BACK]) st2)).
Proof.
  intros H.
  specialize (H (py "Restart pwnagotchi") _act_restart_service
                (boot select_press)
                (add_screen [py "Restart pwnagotchi" ++ py "..."] (boot select_press))
                [] keeps_self_restart_service eq_refl eq_refl).
  vm_compute in H. discriminate H.
Qed.

(** The run of the counterexample above: the interstitial screen, then the
    result screen with "Done.". *)
Example restart_prints_nothing :
  exists st',
    _run_action (py "Restart pwnagotchi") _act_restart_service (boot select_press)
    = Some (Ret tt, st') /\
    shown st' = [[py "Restart pwnagotchi..."];
                 [py "Restart pwnagotchi:"; py "Done."; []; OK_BACK]].
Proof. eexists. split; vm_compute; reflexivity. Qed.

Lemma show_pages_back (v : view) (chunk : list str) (rest : list (list str))
  (s s' : State) :
  ui (self s) = Some v ->
  wait_next (add_screen (chunk ++ [[]; NEXT_BACK]) s) = Some (Ret false, s') ->
  show_pages (chunk :: rest) s = Some (Ret (PStr []), s').
Proof.
  intros Hui Hw. cbn [show_pages]. unfold bind at 1.
  rewrite (_draw_msg_eq _ _ v Hui). unfold bind. rewrite Hw. reflexivity.
Qed.

Lemma show_pages_next (v : view) (chunk : list str) (rest : list (list str))
  (s s' : State) :
  ui (self s) = Some v ->
  wait_next (add_screen (chunk ++ [[]; NEXT_BACK]) s) = Some (Ret true, s') ->
  show_pages (chunk :: rest) s = show_pages rest s'.
Proof.
  intros Hui Hw. cbn [show_pages]. unfold bind at 1.
  rewrite (_draw_msg_eq _ _ v Hui). unfold bind. rewrite Hw. reflexivity.
Qed.

Lemma show_networks_back (v : view) (ssid : str) (rest : list str)
  (s s' : State) :
  ui (self s) = Some v ->
  wait_next (add_screen [py "SSID: " ++ ssid; []; NEXT_BACK] s) = Some (Ret false, s') ->
  show_networks (ssid :: rest) s = Some (Ret (PStr []), s').
Proof.
  intros Hui Hw. cbn [show_networks]. unfold bind at 1.
  rewrite (_draw_msg_eq _ _ v Hui). unfold bind. rewrite Hw. reflexivity.
Qed.

(** C10. When the body of a dispatched action returns [None] or the empty
    text, the result screen is the label with a colon, the line "Done.", a
    blank line and the footer. The paginated viewers return the empty text
    when the wait on a page is left by back, whatever the page, so a viewer
    left by back ends on that screen. *)
Theorem empty_result_displays_done
  (label : str) (fn : M State value) (st : State) (v : view) :
  ui (self st) = Some v ->
  keeps_self fn ->
  (forall out st2,
      fn (add_screen [label ++ py "..."] st) = Some (Ret out, st2) ->
      out = PNone \/ out = PStr [] ->
      _run_action label fn st
      = wait_confirm (add_screen [label ++ py ":"; py "Done."; []; OK_BACK] st2))
  /\ (forall chunk rest s s',
        ui (self s) = Some v ->
        wait_next (add_screen (chunk ++ [[]; NEXT_BACK]) s) = Some (Ret false, s') ->
        show_pages (chunk :: rest) s = Some (Ret (PStr []), s'))
  /\ (forall ssid rest s s',
        ui (self s) = Some v ->
        wait_next (add_screen [py "SSID: " ++ ssid; []; NEXT_BACK] s)
        = Some (Ret false, s') ->
        show_networks (ssid :: rest) s = Some (Ret (PStr []), s')).
Proof.
  intros Hui Hfn. split_and!.
  - intros out st2 H Hout.
    rewrite (_run_action_returned label fn st v Hui Hfn out st2 H).
    rewrite result_lines_empty; [reflexivity|].
    destruct Hout as [-> | ->]; reflexivity.
  - intros chunk rest s s'. apply show_pages_back.
  - intros ssid rest s s'. apply show_networks_back.
Qed.

Lemma empty_result_displays_done_witness :
  exists st2,
    page_display lines22
      (add_screen [py "View events (40)" ++ py "..."] (boot next_then_back))
    = Some (Ret (PStr []), st2) /\
    _run_action (py "View events (40)") (page_display lines22) (boot next_then_back)
    = wait_confirm
        (add_screen [py "View events (40)" ++ py ":"; py "Done."; []; OK_BACK] st2).
Proof.
  eexists. split; [vm_compute; reflexivity|].
  destruct (empty_result_displays_done (py "View events (40)")
              (page_display lines22) (boot next_then_back) View) as (H & _).
  - reflexivity.
  - apply keeps_self_show_pages.
  - eapply H; [vm_compute; reflexivity|right; reflexivity].
Defined.

(** The run of 22 lines left by back on page 2 and confirmed: the
    interstitial screen, pages 1 and 2, the screen with "Done.". *)
Example events_left_on_page_2 :
  exists st',
    _run_action (py "View events (40)") (page_display lines22) (boot next_then_back)
    = Some (Ret tt, st') /\
    shown st' =
      [[py "View events (40)..."];
       [py "0"; py "1"; py "2"; py "3"; py "4"; py "5"; []; NEXT_BACK];
       [py "6"; py "7"; py "8"; py "9"; py "10"; py "11"; []; NEXT_BACK];
       [py "View events (40):"; py "Done."; []; OK_BACK]].
Proof. eexists. split; vm_compute; reflexivity. Qed.

Lemma chunks_of_22 (last : list str) :
  length last = 22%nat ->
  chunks_of 6 last
  = [take 6 last; take 6 (drop 6 last); take 6 (drop 12 last); take 6 (drop 18 last)]
  /\ map length (chunks_of 6 last) = [6; 6; 6; 4]%nat
  /\ concat (chunks_of 6 last) = last.
Proof.
  intros H.
  do 22 (destruct last as [|? last]; [discriminate H|]).
  destruct last; [|discriminate H].
  repeat split.
Qed.

Lemma wait_next_at (b : bool) (s s' : State) :
  wait_next s = Some (Ret b, s') -> exists sig', s' = at_signal sig' s.
Proof.
  intros H. destruct (only_waits_wait_next _ _ _ H) as (? & sig' & _ & ->).
  exists sig'. reflexivity.
Qed.

(** C7. 22 lines are cut into 4 pages of 6, 6, 6 and 4 lines that follow
    one another in the order of the lines. When page 1 is left by next and
    page 2 by back, the viewer returns the empty text having drawn pages 1
    and 2 and nothing else, and the plugin object, the threads and the shell
    are as before; when every page is left by next, the four pages are
    drawn in order. [_act_show_events] runs this display on the lines it
    has kept of the journal. *)
Theorem events_pager_22_lines (last : list str) (st : State) (v : view) :
  length last = 22%nat ->
  ui (self st) = Some v ->
  let page := fun k => take 6 (drop (6 * k) last) ++ [[]; NEXT_BACK] in
  map length (chunks_of 6 last) = [6; 6; 6; 4]%nat
  /\ concat (chunks_of 6 last) = last
  /\ (forall s1 s2,
        wait_next (add_screen (page 0%nat) st) = Some (Ret true, s1) ->
        wait_next (add_screen (page 1%nat) s1) = Some (Ret false, s2) ->
        page_display last st = Some (Ret (PStr []), s2) /\
        shown s2 = shown st ++ [page 0%nat; page 1%nat] /\
        self s2 = self st /\ threads s2 = threads st /\ shell s2 = shell st)
  /\ (forall s1 s2 s3 s4,
        wait_next (add_screen (page 0%nat) st) = Some (Ret true, s1) ->
        wait_next (add_screen (page 1%nat) s1) = Some (Ret true, s2) ->
        wait_next (add_screen (page 2%nat) s2) = Some (Ret true, s3) ->
        wait_next (add_screen (page 3%nat) s3) = Some (Ret true, s4) ->
        page_display last st = Some (Ret (PStr (py "End of events.")), s4) /\
        shown s4 = shown st ++ [page 0%nat; page 1%nat; page 2%nat; page 3%nat] /\
        self s4 = self st /\ threads s4 = threads st /\ shell s4 = shell st)
  /\ (forall patterns_search raw st0,
        _journal_tail 300 st0 = Some (Ret raw, st) ->
        nonempty (strip raw) = true ->
        event_lines patterns_search raw = last ->
        _act_show_events patterns_search st0 = page_display last st).
Proof.
  intros Hlen Hui page.
  destruct (chunks_of_22 last Hlen) as (Hc & Hl & Hcat).
  split_and!; [exact Hl|exact Hcat| | |].
  - intros s1 s2 H1 H2.
    destruct (wait_next_at _ _ _ H1) as (g1 & ->).
    destruct (wait_next_at _ _ _ H2) as (g2 & ->).
    split; [|repeat split].
    + unfold page_display. rewrite Hc.
      etransitivity; [eapply (show_pages_next v); [exact Hui|exact H1]|].
      apply (show_pages_back v); [exact Hui|exact H2].
    + cbn [shown add_screen at_signal set_signal]. rewrite <- app_assoc. reflexivity.
  - intros s1 s2 s3 s4 H1 H2 H3 H4.
    destruct (wait_next_at _ _ _ H1) as (g1 & ->).
    destruct (wait_next_at _ _ _ H2) as (g2 & ->).
    destruct (wait_next_at _ _ _ H3) as (g3 & ->).
    destruct (wait_next_at _ _ _ H4) as (g4 & ->).
    split; [|repeat split].
    + unfold page_display. rewrite Hc.
      etransitivity; [eapply (show_pages_next v); [exact Hui|exact H1]|].
      etransitivity; [eapply (show_pages_next v); [exact Hui|exact H2]|].
      etransitivity; [eapply (show_pages_next v); [exact Hui|exact H3]|].
      etransitivity; [eapply (show_pages_next v); [exact Hui|exact H4]|].
      reflexivity.
    + cbn [shown add_screen at_signal set_signal].
      rewrite <- !app_assoc. reflexivity.
  - intros patterns_search raw st0 Hj Hn He.
    unfold _act_show_events, bind. rewrite Hj, Hn, He. reflexivity.
Qed.

Lemma events_pager_22_lines_witness :
  map length (chunks_of 6 lines22) = [6; 6; 6; 4]%nat /\
  page_display lines22 (boot next_then_back)
  = Some (Ret (PStr []),
          at_signal (replicate 10 idle ++ replicate 20 (held PIN_RIGHT)
                     ++ replicate 10 idle)
            (add_screen [py "6"; py "7"; py "8"; py "9"; py "10"; py "11"; []; NEXT_BACK]
               (add_screen [py "0"; py "1"; py "2"; py "3"; py "4"; py "5"; []; NEXT_BACK]
                  (boot next_then_back)))).
Proof.
  destruct (events_pager_22_lines lines22 (boot next_then_back) View)
    as (Hl & _ & Hb & _).
  - reflexivity.
  - reflexivity.
  - split; [exact Hl|].
    eapply Hb; vm_compute; reflexivity.
Defined.

Lemma edge_false_same (pin : N) (st st' : State) :
  _edge pin st = Some (Ret false, st') -> st' = st /\ signal st <> [].
Proof.
  rewrite _edge_eq. destruct (signal st) as [|smp rest] eqn:Hs; [discriminate|].
  rewrite edge_result_cons. destruct (is_low (smp pin)).
  - destruct (released pin (drop 15 (smp :: rest))); discriminate.
  - intros H. injection H as <-. split; [|discriminate].
    rewrite <- Hs, at_signal_same. reflexivity.
Qed.

Lemma orM_false (a b : M State bool) (st st' : State) :
  orM a b st = Some (Ret false, st') ->
  exists s1, a st = Some (Ret false, s1) /\ b s1 = Some (Ret false, st').
Proof.
  unfold orM, bind. destruct (a st) as [[[[|]|e] s1]|]; try discriminate.
  intros H. exists s1. auto.
Qed.

(** The fuel of the waits is never what ends them: with more iterations
    allowed than samples left, a wait gives the same whatever the fuel. *)
Lemma wait_confirm_fuel_enough (n : nat) :
  forall (m : nat) (st : State),
    (length (signal st) < n)%nat -> (length (signal st) < m)%nat ->
    wait_confirm_fuel n st = wait_confirm_fuel m st.
Proof.
  induction n as [|n IH]; intros m st Hn Hm; [lia|].
  destruct m as [|m]; [lia|].
  cbn [wait_confirm_fuel]. unfold bind at 1 3.
  destruct (orM (_edge PIN_RIGHT)
              (orM (_edge PIN_KEY1) (orM (_edge PIN_LEFT) (_edge PIN_KEY2))) st)
    as [[[[|]|e] s1]|] eqn:E; try reflexivity.
  destruct (orM_false _ _ _ _ E) as (s2 & E1 & _).
  destruct (edge_false_same _ _ _ E1) as (_ & Hne).
  assert (s1 = st) as ->.
  { destruct (orM_false _ _ _ _ E) as (t1 & F1 & F).
    destruct (orM_false _ _ _ _ F) as (t2 & F2 & G).
    destruct (orM_false _ _ _ _ G) as (t3 & F3 & F4).
    destruct (edge_false_same _ _ _ F1) as (-> & _).
    destruct (edge_false_same _ _ _ F2) as (-> & _).
    destruct (edge_false_same _ _ _ F3) as (-> & _).
    destruct (edge_false_same _ _ _ F4) as (-> & _). reflexivity. }
  unfold bind. rewrite time_sleep_eq.
  change (N.to_nat (50 / 10)) with 5%nat.
  assert (Hl : (length (drop 5 (signal st)) < length (signal st))%nat).
  { destruct (signal st); [congruence|]. rewrite length_drop. cbn. lia. }
  apply IH; cbn [signal at_signal set_signal]; lia.
Qed.

Lemma wait_next_fuel_enough (n : nat) :
  forall (m : nat) (st : State),
    (length (signal st) < n)%nat -> (length (signal st) < m)%nat ->
    wait_next_fuel n st = wait_next_fuel m st.
Proof.
  induction n as [|n IH]; intros m st Hn Hm; [lia|].
  destruct m as [|m]; [lia|].
  cbn [wait_next_fuel]. unfold bind at 1 4.
  destruct (orM (_edge PIN_RIGHT) (_edge PIN_KEY1) st)
    as [[[[|]|e] s1]|] eqn:E; try reflexivity.
  destruct (orM_false _ _ _ _ E) as (t1 & F1 & F2).
  destruct (edge_false_same _ _ _ F1) as (-> & Hne).
  destruct (edge_false_same _ _ _ F2) as (-> & _).
  unfold bind at 1 3.
  destruct (orM (_edge PIN_LEFT) (_edge PIN_KEY2) st)
    as [[[[|]|e] s1]|] eqn:E'; try reflexivity.
  destruct (orM_false _ _ _ _ E') as (t2 & G1 & G2).
  destruct (edge_false_same _ _ _ G1) as (-> & _).
  destruct (edge_false_same _ _ _ G2) as (-> & _).
  unfold bind. rewrite time_sleep_eq.
  change (N.to_nat (50 / 10)) with 5%nat.
  assert (Hl : (length (drop 5 (signal st)) < length (signal st))%nat).
  { destruct (signal st); [congruence|]. rewrite length_drop. cbn. lia. }
  apply IH; cbn [signal at_signal set_signal]; lia.
Qed.

Lemma released_spec (pin : N) (sig sig' : list sample) :
  released pin sig = Some sig' ->
  exists pre,
    sig = pre ++ sig' /\
    Forall (fun smp => is_low (smp pin) = true) pre /\
    exists smp rest, sig' = smp :: rest /\ is_low (smp pin) = false.
Proof.
  induction sig as [|smp rest IH]; [discriminate|].
  cbn [released]. destruct (is_low (smp pin)) eqn:El.
  - intros H. destruct (IH H) as (pre & -> & Hpre & Hhead).
    exists (smp :: pre). split; [reflexivity|]. split; [constructor; assumption|exact Hhead].
  - intros [= <-]. exists []. split; [reflexivity|]. split; [constructor|eauto].
Qed.

(** X6. What a call of [_edge] has seen. When it returns false the pin was
    not read low and no time has passed. When it returns true the pin was
    read low at the call, at least 150 ms have passed, the pin was read low
    at every sample from 150 ms after the call to the return, and it is
    read released at the instant of the return; nothing but time has
    changed. *)
Theorem edge_returns_after_release (pin : N) (st st' : State) (b : bool) :
  _edge pin st = Some (Ret b, st') ->
  if b then
    st' = at_signal (signal st') st /\
    (exists smp rest, signal st = smp :: rest /\ is_low (smp pin) = true) /\
    (exists pre,
        drop 15 (signal st) = pre ++ signal st' /\
        Forall (fun smp => is_low (smp pin) = true) pre) /\
    (exists smp rest, signal st' = smp :: rest /\ is_low (smp pin) = false) /\
    (length (signal st') + 15 <= length (signal st))%nat
  else
    st' = st /\
    exists smp rest, signal st = smp :: rest /\ is_low (smp pin) = false.
Proof.
  rewrite _edge_eq. destruct (signal st) as [|smp rest] eqn:Hs; [discriminate|].
  rewrite edge_result_cons. destruct (is_low (smp pin)) eqn:El.
  - destruct (released pin (drop 15 (smp :: rest))) as [sig'|] eqn:Er; [|discriminate].
    intros [= <- <-]. cbn [signal at_signal set_signal].
    destruct (released_spec _ _ _ Er) as (pre & Hd & Hpre & Hhead).
    split_and!; eauto.
    assert (Hl : length (drop 15 (smp :: rest)) = (length pre + length sig')%nat)
      by (rewrite Hd, length_app; reflexivity).
    rewrite length_drop in Hl.
    destruct Hhead as (x & r & -> & _). cbn [length] in *. lia.
  - intros [= <- <-]. rewrite <- Hs, at_signal_same. rewrite Hs. eauto.
Qed.

Lemma edge_returns_after_release_witness :
  exists smp rest,
    signal (at_signal (replicate 20 idle) (boot select_press)) = smp :: rest /\
    is_low (smp PIN_RIGHT) = false.
Proof.
  apply (edge_returns_after_release PIN_RIGHT (boot select_press)
           (at_signal (replicate 20 idle) (boot select_press)) true).
  vm_compute. reflexivity.
Defined.

Lemma py_index_in_range {A} (l : list A) (i : Z) :
  (0 <= i < Z.of_nat (length l))%Z ->
  exists x, py_index l i = Ret x /\ l !! Z.to_nat i = Some x.
Proof.
  intros Hi. unfold py_index.
  destruct (Z.ltb_spec i 0) as [?|_]; [lia|].
  destruct (Z.leb_spec 0 i) as [_|?]; [|lia].
  destruct (Z.ltb_spec i (Z.of_nat (length l))) as [_|?]; [|lia].
  cbn [andb].
  destruct (lookup_lt_is_Some_2 l (Z.to_nat i)) as [x Hx]; [lia|].
  rewrite Hx. eauto.
Qed.

Ltac edge_step H :=
  match type of H with
  | context [bind (_edge ?p) _ ?s] =>
      let E := fresh "E" in
      let b := fresh "b" in
      let g := fresh "g" in
      unfold bind at 1 in H;
      destruct (_edge p s) as [[? ?]|] eqn:E; [|discriminate H];
      destruct (only_waits_edge _ _ _ _ E) as (b & g & -> & ->); clear E
  | context [bind (orM (_edge ?p) (_edge ?q)) _ ?s] =>
      let E := fresh "E" in
      let b := fresh "b" in
      let g := fresh "g" in
      unfold bind at 1 in H;
      destruct (orM (_edge p) (_edge q) s) as [[? ?]|] eqn:E; [|discriminate H];
      destruct (only_waits_orM _ _ (only_waits_edge p) (only_waits_edge q) _ _ _ E)
        as (b & g & -> & ->); clear E
  end.

Lemma navigate_keeps_menu_well_formed (u : view) (s s' : State) (o : outcome unit) :
  (0 <= menu_index (self s) < Z.of_nat (length (menu_items (self s))))%Z ->
  navigate u s = Some (o, s') ->
  o = Ret tt /\
  ready (self s') = ready (self s) /\
  menu_items (self s') = menu_items (self s) /\
  ui (self s') = ui (self s) /\
  rclone_remote (self s') = rclone_remote (self s) /\
  (0 <= menu_index (self s') < Z.of_nat (length (menu_items (self s'))))%Z /\
  shell s' = shell s /\
  (threads s' = threads s \/
   exists label fn,
     threads s' = threads s ++ [(label, fn)] /\
     menu_items (self s) !! Z.to_nat (menu_index (self s)) = Some (label, Some fn)) /\
  (shown s' = shown s \/ shown s' = shown s ++ [menu_screen (self s')]).
Proof.
  intros Hi H.
  assert (Hn : menu_items (self s) <> []).
  { intros E. rewrite E in Hi. cbn in Hi. lia. }
  assert (Hb : forall d,
             (0 <= (menu_index (self s) + d)
                     mod Z.of_nat (length (menu_items (self s)))
              < Z.of_nat (length (menu_items (self s))))%Z)
    by (intros d; apply Z.mod_pos_bound; lia).
  assert (Hm : forall d g o s',
             (let* _ := move d in _draw_menu u) (at_signal g s) = Some (o, s') ->
             o = Ret tt /\
             s' = add_screen
                    (menu_screen
                       (set_menu_index
                          ((menu_index (self s) + d)
                             mod Z.of_nat (length (menu_items (self s))))
                          (self s)))
                    (set_self (set_menu_index
                       ((menu_index (self s) + d)
                          mod Z.of_nat (length (menu_items (self s)))))
                       (at_signal g s))).
  { intros d g o0 s0 Hd. unfold bind in Hd. rewrite move_eq in Hd by exact Hn.
    injection Hd as <- <-. split; reflexivity. }
  unfold navigate in H.
  edge_step H. destruct b.
  { destruct (Hm _ _ _ _ H) as (-> & ->).
    cbn [self threads shown shell add_screen set_self at_signal set_signal
         ready menu_items ui rclone_remote menu_index set_menu_index].
    split_and!; try reflexivity; auto;
      match goal with
      | |- context [((_ + ?d) mod _)%Z] => specialize (Hb d); lia
      end. }
  edge_step H. destruct b.
  { destruct (Hm _ _ _ _ H) as (-> & ->).
    cbn [self threads shown shell add_screen set_self at_signal set_signal
         ready menu_items ui rclone_remote menu_index set_menu_index].
    split_and!; try reflexivity; auto;
      match goal with
      | |- context [((_ + ?d) mod _)%Z] => specialize (Hb d); lia
      end. }
  edge_step H. destruct b.
  { injection H as <- <-.
    cbn [self threads shown shell add_screen set_self at_signal set_signal
         ready menu_items ui rclone_remote menu_index set_menu_open].
    split_and!; try reflexivity; auto; lia. }
  edge_step H. destruct b.
  - destruct (py_index_in_range _ _ Hi) as ([label fn] & Hp & Hl).
    unfold bind in H. destruct fn as [fn|].
    + match type of H with
      | context [select ?x] => rewrite (select_action x label fn Hp) in H
      end.
      injection H as <- <-.
      cbn [self threads shown shell add_screen add_thread set_self at_signal
           set_signal ready menu_items ui rclone_remote menu_index].
      split_and!; try reflexivity; auto; try lia.
      right. eauto.
    + match type of H with
      | context [select ?x] => rewrite (select_separator x label Hp) in H
      end.
      injection H as <- <-.
      cbn [self threads shown shell add_screen add_thread set_self at_signal
           set_signal ready menu_items ui rclone_remote menu_index].
      split_and!; try reflexivity; auto; lia.
  - injection H as <- <-.
    cbn [self threads shown shell add_screen set_self at_signal set_signal
         ready menu_items ui rclone_remote menu_index].
    split_and!; try reflexivity; auto; lia.
Qed.

(** X7. A tick of [on_ui_update] keeps the menu well formed, whatever the
    buttons do: from an index in range it does not raise, the index stays
    in range, the entries, [ready], the display and the remote are left
    alone; it starts at most one thread, that of the entry selected, and
    draws at most one screen, the menu as it is when the tick returns. *)
Theorem tick_keeps_menu_well_formed (u : view) (st st' : State) (o : outcome unit) :
  (0 <= menu_index (self st) < Z.of_nat (length (menu_items (self st))))%Z ->
  on_ui_update u st = Some (o, st') ->
  o = Ret tt /\
  ready (self st') = ready (self st) /\
  menu_items (self st') = menu_items (self st) /\
  ui (self st') = ui (self st) /\
  rclone_remote (self st') = rclone_remote (self st) /\
  (0 <= menu_index (self st') < Z.of_nat (length (menu_items (self st'))))%Z /\
  shell st' = shell st /\
  (threads st' = threads st \/
   exists label fn,
     threads st' = threads st ++ [(label, fn)] /\
     menu_items (self st) !! Z.to_nat (menu_index (self st)) = Some (label, Some fn)) /\
  (shown st' = shown st \/ shown st' = shown st ++ [menu_screen (self st')]).
Proof.
  intros Hi H. unfold on_ui_update in H.
  unfold bind at 1, get_self at 1 in H.
  destruct (ready (self st)) eqn:Hr; cbn [negb] in H.
  2: { injection H as <- <-. rewrite Hr. split_and!; auto; lia. }
  edge_step H. unfold bind at 1 in H.
  destruct b.
  - unfold modify at 1, bind at 1, get_self at 1 in H.
    cbn [self set_self at_signal set_signal menu_open set_menu_open] in H.
    destruct (menu_open (self st)) eqn:Ho; cbn [negb] in H.
    + injection H as <- <-.
      cbn [self threads shown shell set_self at_signal set_signal
           ready menu_items ui rclone_remote menu_index set_menu_open].
      split_and!; auto; lia.
    + apply navigate_keeps_menu_well_formed in H; [|exact Hi].
      cbn [self threads shown shell set_self at_signal set_signal
           ready menu_items ui rclone_remote menu_index set_menu_open] in H.
      rewrite Hr in H. exact H.
  - unfold ret at 1, bind at 1, get_self at 1 in H.
    cbn [self set_self at_signal set_signal] in H.
    destruct (menu_open (self st)) eqn:Ho; cbn [negb] in H.
    + apply navigate_keeps_menu_well_formed in H; [|exact Hi].
      cbn [self threads shown shell set_self at_signal set_signal
           ready menu_items ui rclone_remote menu_index set_menu_open] in H.
      rewrite Hr in H. exact H.
    + injection H as <- <-.
      cbn [self threads shown shell set_self at_signal set_signal
           ready menu_items ui rclone_remote menu_index set_menu_open].
      split_and!; auto; lia.
Qed.

Lemma tick_keeps_menu_well_formed_witness :
  exists st',
    on_ui_update View (boot toggle_with_up) = Some (Ret tt, st') /\
    (0 <= menu_index (self st') < Z.of_nat (length (menu_items (self st'))))%Z.
Proof.
  eexists. split; [vm_compute; reflexivity|].
  eapply (tick_keeps_menu_well_formed View (boot toggle_with_up)).
  - simpl. lia.
  - vm_compute. reflexivity.
Defined.

Lemma elapse_elapse (a b : nat) (st : State) :
  elapse b (elapse a st) = elapse (a + b) st.
Proof. unfold elapse, set_signal. cbn [self signal shown threads shell]. rewrite drop_drop. reflexivity. Qed.

Lemma elapse_0 (st : State) : elapse 0 st = st.
Proof. destruct st. reflexivity. Qed.

(** X8. While the menu is closed only KEY3 counts: as long as KEY3 is not
    read low, any number of ticks leave the plugin, the display and the
    threads as they were, whatever the other buttons do, and a tick takes
    no time. *)
Theorem closed_menu_ignores_buttons (u : view) (n gap : nat) :
  forall st : State,
    ready (self st) = true ->
    menu_open (self st) = false ->
    Forall (fun smp => is_low (smp PIN_KEY3) = false) (signal st) ->
    (n * gap < length (signal st))%nat ->
    host_ticks n gap u st = Some (Ret tt, elapse (n * gap) st).
Proof.
  induction n as [|n IH]; intros st Hr Ho Hk Hl.
  - cbn [host_ticks Nat.mul]. rewrite elapse_0. reflexivity.
  - destruct (signal st) as [|smp rest] eqn:Hs; [cbn in Hl; lia|].
    assert (H3 : _edge PIN_KEY3 st = Some (Ret false, st)).
    { apply (edge_not_pressed _ _ smp rest Hs). inversion Hk. assumption. }
    cbn [host_ticks]. unfold bind at 1.
    rewrite (tick_no_toggle u _ _ Hr H3), Ho.
    unfold bind at 1, modify at 1.
    rewrite IH.
    + rewrite elapse_elapse. reflexivity.
    + exact Hr.
    + exact Ho.
    + cbn [elapse signal set_signal]. rewrite Hs. apply Forall_drop. exact Hk.
    + cbn [elapse signal set_signal]. rewrite Hs, length_drop.
      cbn [Nat.mul] in Hl. lia.
Qed.

Lemma closed_menu_ignores_buttons_witness :
  host_ticks 3 5 View (boot select_press)
  = Some (Ret tt, elapse (3 * 5) (boot select_press)).
Proof.
  apply (closed_menu_ignores_buttons View 3 5 (boot select_press)).
  - reflexivity.
  - reflexivity.
  - vm_compute. repeat constructor.
  - vm_compute. lia.
Defined.

Lemma menu_lines_length (items : list (str * option action)) :
  forall i idx, length (menu_lines i idx items) = length items.
Proof.
  induction items as [|[label fn] items IH]; intros i idx; [reflexivity|].
  cbn [menu_lines length]. rewrite IH. reflexivity.
Qed.

Lemma menu_lines_lookup (items : list (str * option action)) :
  forall (i idx : Z) (k : nat) (label : str) (fn : option action),
    items !! k = Some (label, fn) ->
    menu_lines i idx items !! k
    = Some ((if (i + Z.of_nat k =? idx)%Z then [0x27A4; 32] else py "  ") ++ label).
Proof.
  induction items as [|[l f] items IH]; intros i idx k label fn H; [discriminate|].
  destruct k as [|k].
  - injection H as -> ->. cbn [menu_lines lookup list_lookup].
    rewrite Z.add_0_r. reflexivity.
  - replace (i + Z.of_nat (S k))%Z with (i + 1 + Z.of_nat k)%Z by lia.
    rewrite <- (IH (i + 1)%Z idx k label fn H). reflexivity.
Qed.

(** X9. The menu screen is the title, one line per entry in the order of
    the entries, and the hint. The line of an entry is its label behind the
    marker when the entry is the selected one and behind two blanks
    otherwise, so that exactly the selected entry is marked. *)
Theorem menu_screen_marks_selected (p : Plugin) :
  length (menu_screen p) = S (S (length (menu_items p))) /\
  menu_screen p !! 0%nat = Some MENU_TITLE /\
  menu_screen p !! S (length (menu_items p)) = Some MENU_HINT /\
  forall (k : nat) (label : str) (fn : option action),
    menu_items p !! k = Some (label, fn) ->
    menu_screen p !! S k
    = Some ((if (Z.of_nat k =? menu_index p)%Z then [0x27A4; 32] else py "  ")
            ++ label).
Proof.
  unfold menu_screen. split_and!.
  - cbn [app length]. rewrite length_app, menu_lines_length. cbn [length]. lia.
  - reflexivity.
  - change ((menu_lines 0 (menu_index p) (menu_items p) ++ [MENU_HINT])
              !! length (menu_items p) = Some MENU_HINT).
    rewrite lookup_app_r by (rewrite menu_lines_length; lia).
    rewrite menu_lines_length, Nat.sub_diag. reflexivity.
  - intros k label fn H.
    change ((menu_lines 0 (menu_index p) (menu_items p) ++ [MENU_HINT]) !! k
            = Some ((if (Z.of_nat k =? menu_index p)%Z then [10148; 32] else py "  ")
                    ++ label)).
    rewrite lookup_app_l
      by (rewrite menu_lines_length; apply lookup_lt_is_Some; eauto).
    rewrite (menu_lines_lookup _ 0 _ k label fn H). reflexivity.
Qed.

Lemma menu_screen_marks_selected_witness :
  menu_screen (set_menu_index 2 __init__) !! 3%nat
  = Some ([0x27A4; 32] ++ py "Toggle deauth").
Proof.
  destruct (menu_screen_marks_selected (set_menu_index 2 __init__)) as (_ & _ & _ & H).
  apply (H 2%nat (py "Toggle deauth") (Some act_toggle_deauth)). reflexivity.
Defined.

Lemma orM_false_l (a b : M State bool) (st : State) :
  a st = Some (Ret false, st) -> orM a b st = b st.
Proof. intros H. unfold orM, bind. rewrite H. reflexivity. Qed.

Lemma orM_true_l (a b : M State bool) (st st' : State) :
  a st = Some (Ret true, st') -> orM a b st = Some (Ret true, st').
Proof. intros H. unfold orM, bind. rewrite H. reflexivity. Qed.

Lemma wait_confirm_fuel_blocked (n : nat) :
  forall st : State,
    Forall (fun smp =>
              is_low (smp PIN_RIGHT) = false /\ is_low (smp PIN_KEY1) = false /\
              is_low (smp PIN_LEFT) = false /\ is_low (smp PIN_KEY2) = false)
      (signal st) ->
    wait_confirm_fuel n st = None.
Proof.
  induction n as [|n IH]; intros st Hq; [reflexivity|].
  cbn [wait_confirm_fuel]. unfold bind at 1.
  destruct (signal st) as [|smp rest] eqn:Hs.
  - unfold orM, bind. rewrite _edge_eq, Hs. reflexivity.
  - inversion Hq as [|? ? (Hr & H1 & Hl & H2) Hrest]; subst.
    rewrite orM_false_l by (apply (edge_not_pressed _ _ smp rest Hs Hr)).
    rewrite orM_false_l by (apply (edge_not_pressed _ _ smp rest Hs H1)).
    rewrite orM_false_l by (apply (edge_not_pressed _ _ smp rest Hs Hl)).
    rewrite (edge_not_pressed _ _ smp rest Hs H2).
    unfold bind. rewrite time_sleep_eq. apply IH.
    cbn [signal at_signal set_signal]. apply Forall_drop. rewrite Hs. exact Hq.
Qed.

Lemma wait_next_fuel_blocked (n : nat) :
  forall st : State,
    Forall (fun smp =>
              is_low (smp PIN_RIGHT) = false /\ is_low (smp PIN_KEY1) = false /\
              is_low (smp PIN_LEFT) = false /\ is_low (smp PIN_KEY2) = false)
      (signal st) ->
    wait_next_fuel n st = None.
Proof.
  induction n as [|n IH]; intros st Hq; [reflexivity|].
  cbn [wait_next_fuel]. unfold bind at 1.
  destruct (signal st) as [|smp rest] eqn:Hs.
  - unfold orM, bind. rewrite _edge_eq, Hs. reflexivity.
  - inversion Hq as [|? ? (Hr & H1 & Hl & H2) Hrest]; subst.
    rewrite orM_false_l by (apply (edge_not_pressed _ _ smp rest Hs Hr)).
    rewrite (edge_not_pressed _ _ smp rest Hs H1).
    unfold bind at 1.
    rewrite orM_false_l by (apply (edge_not_pressed _ _ smp rest Hs Hl)).
    rewrite (edge_not_pressed _ _ smp rest Hs H2).
    unfold bind. rewrite time_sleep_eq. apply IH.
    cbn [signal at_signal set_signal]. apply Forall_drop. rewrite Hs. exact Hq.
Qed.

(** X10. The waits read four pins only. While none of RIGHT, KEY1, LEFT
    and KEY2 is read low, the wait for a confirmation and the wait on a
    page are not left, whatever UP, DOWN, KEY3 and the joystick do: they
    are still waiting when the recording ends. *)
Theorem waits_ignore_other_buttons (st : State) :
  Forall (fun smp =>
            is_low (smp PIN_RIGHT) = false /\ is_low (smp PIN_KEY1) = false /\
            is_low (smp PIN_LEFT) = false /\ is_low (smp PIN_KEY2) = false)
    (signal st) ->
  wait_confirm st = None /\ wait_next st = None.
Proof.
  intros H. split.
  - apply wait_confirm_fuel_blocked. exact H.
  - apply wait_next_fuel_blocked. exact H.
Qed.

Lemma waits_ignore_other_buttons_witness :
  wait_confirm (boot toggle_with_up) = None /\ wait_next (boot toggle_with_up) = None.
Proof.
  apply (waits_ignore_other_buttons (boot toggle_with_up)).
  vm_compute. repeat constructor.
Defined.

Lemma edge_idle_head (pin : N) (st : State) (rest : list sample) :
  signal st = idle :: rest -> _edge pin st = Some (Ret false, st).
Proof. intros Hs. apply (edge_not_pressed pin st idle rest Hs). reflexivity. Qed.

Lemma confirm_check_held (pin : N) (d a : nat) (st : State) :
  pin = PIN_RIGHT \/ pin = PIN_KEY1 \/ pin = PIN_LEFT \/ pin = PIN_KEY2 ->
  signal st = replicate (S d) (held pin) ++ replicate a idle ->
  orM (_edge PIN_RIGHT)
    (orM (_edge PIN_KEY1) (orM (_edge PIN_LEFT) (_edge PIN_KEY2))) st
  = match (a - (15 - S d))%nat with
    | O => None
    | S _ => Some (Ret true, at_signal (replicate (a - (15 - S d)) idle) st)
    end.
Proof.
  intros Hp Hs.
  destruct Hp as [-> | [-> | [-> | ->]]].
  - unfold orM at 1, bind. rewrite (edge_pressed _ d a st Hs).
    destruct (a - (15 - S d))%nat; reflexivity.
  - rewrite orM_false_l
      by (apply (edge_not_pressed _ _ (held PIN_KEY1) _ Hs); reflexivity).
    unfold orM at 1, bind. rewrite (edge_pressed _ d a st Hs).
    destruct (a - (15 - S d))%nat; reflexivity.
  - rewrite orM_false_l
      by (apply (edge_not_pressed _ _ (held PIN_LEFT) _ Hs); reflexivity).
    rewrite orM_false_l
      by (apply (edge_not_pressed _ _ (held PIN_LEFT) _ Hs); reflexivity).
    unfold orM at 1, bind. rewrite (edge_pressed _ d a st Hs).
    destruct (a - (15 - S d))%nat; reflexivity.
  - rewrite orM_false_l
      by (apply (edge_not_pressed _ _ (held PIN_KEY2) _ Hs); reflexivity).
    rewrite orM_false_l
      by (apply (edge_not_pressed _ _ (held PIN_KEY2) _ Hs); reflexivity).
    rewrite orM_false_l
      by (apply (edge_not_pressed _ _ (held PIN_KEY2) _ Hs); reflexivity).
    rewrite (edge_pressed _ d a st Hs).
    destruct (a - (15 - S d))%nat; reflexivity.
Qed.

Lemma wait_confirm_fuel_returns (pin : N) (fuel : nat) :
  pin = PIN_RIGHT \/ pin = PIN_KEY1 \/ pin = PIN_LEFT \/ pin = PIN_KEY2 ->
  forall (b d a : nat) (st : State),
    signal st = press_cycle pin b d a ->
    (b + d + a < fuel)%nat ->
    (1 <= d)%nat -> (15 <= a)%nat ->
    (b = 0%nat \/ 5 <= d)%nat ->
    exists a',
      (1 <= a' <= a)%nat /\
      wait_confirm_fuel fuel st = Some (Ret tt, at_signal (replicate a' idle) st).
Proof.
  intros Hp. induction fuel as [|fuel IH]; intros b d a st Hs Hf Hd Ha Hb; [lia|].
  cbn [wait_confirm_fuel]. unfold bind at 1.
  destruct b as [|b].
  - destruct d as [|d]; [lia|].
    rewrite (confirm_check_held pin d a st Hp Hs).
    destruct (a - (15 - S d))%nat as [|r] eqn:E; [lia|].
    exists (S r). split; [lia|reflexivity].
  - destruct Hb as [Hb|Hb]; [discriminate|].
    rewrite orM_false_l by (apply (edge_idle_head _ _ _ Hs)).
    rewrite orM_false_l by (apply (edge_idle_head _ _ _ Hs)).
    rewrite orM_false_l by (apply (edge_idle_head _ _ _ Hs)).
    rewrite (edge_idle_head _ _ _ Hs).
    unfold bind. rewrite time_sleep_eq.
    change (N.to_nat (50 / 10)) with 5%nat.
    edestruct (IH (S b - 5) (d - (5 - S b)) (a - (5 - S b - d))
                 (at_signal (drop 5 (signal st)) st))%nat as (a' & Ha' & E).
    + cbn [signal at_signal set_signal]. rewrite Hs. apply drop_press_cycle.
    + lia.
    + lia.
    + lia.
    + lia.
    + exists a'. split; [lia|exact E].
Qed.

(** X11. A press ends the wait for a confirmation. When one of RIGHT, KEY1,
    LEFT and KEY2 is pressed once, for 50 ms at least, the other buttons
    being left alone and the recording going on for 150 ms after the
    release, [wait_confirm] returns, after the release, and nothing but
    time has changed. *)
Theorem confirm_press_ends_wait (pin : N) (b d a : nat) (st : State) :
  pin = PIN_RIGHT \/ pin = PIN_KEY1 \/ pin = PIN_LEFT \/ pin = PIN_KEY2 ->
  signal st = press_cycle pin b d a ->
  (5 <= d)%nat -> (15 <= a)%nat ->
  exists a',
    (1 <= a' <= a)%nat /\
    wait_confirm st = Some (Ret tt, at_signal (replicate a' idle) st).
Proof.
  intros Hp Hs Hd Ha.
  apply (wait_confirm_fuel_returns pin (fuel_of st) Hp b d a st Hs); try lia.
  unfold fuel_of. rewrite Hs. unfold press_cycle.
  rewrite !length_app, !length_replicate. lia.
Qed.

Lemma confirm_press_ends_wait_witness :
  exists a',
    (1 <= a' <= 20)%nat /\
    wait_confirm (boot select_press)
    = Some (Ret tt, at_signal (replicate a' idle) (boot select_press)).
Proof.
  apply (confirm_press_ends_wait PIN_RIGHT 0 20 20 (boot select_press)).
  - left. reflexivity.
  - reflexivity.
  - lia.
  - lia.
Defined.

(** Whether a pin pages forward. *)
Lemma wait_next_fuel_returns (pin : N) (fuel : nat) :
  pin = PIN_RIGHT \/ pin = PIN_KEY1 \/ pin = PIN_LEFT \/ pin = PIN_KEY2 ->
  forall (b d a : nat) (st : State),
    signal st = press_cycle pin b d a ->
    (b + d + a < fuel)%nat ->
    (1 <= d)%nat -> (15 <= a)%nat ->
    (b = 0%nat \/ 5 <= d)%nat ->
    exists a',
      (1 <= a' <= a)%nat /\
      wait_next_fuel fuel st
      = Some (Ret ((pin =? PIN_RIGHT) || (pin =? PIN_KEY1)),
              at_signal (replicate a' idle) st).
Proof.
  intros Hp. induction fuel as [|fuel IH]; intros b d a st Hs Hf Hd Ha Hb; [lia|].
  cbn [wait_next_fuel]. unfold bind at 1.
  destruct b as [|b].
  - destruct d as [|d]; [lia|].
    pose proof (edge_pressed pin d a st Hs) as He.
    destruct (a - (15 - S d))%nat as [|r] eqn:E; [lia|].
    exists (S r). split; [lia|].
    destruct Hp as [-> | [-> | [-> | ->]]].
    + rewrite (orM_true_l _ _ _ _ He). reflexivity.
    + rewrite orM_false_l
        by (apply (edge_not_pressed _ _ (held PIN_KEY1) _ Hs); reflexivity).
      rewrite He. reflexivity.
    + rewrite orM_false_l
        by (apply (edge_not_pressed _ _ (held PIN_LEFT) _ Hs); reflexivity).
      rewrite (edge_not_pressed _ _ (held PIN_LEFT) _ Hs) by reflexivity.
      unfold bind at 1. rewrite (orM_true_l _ _ _ _ He). reflexivity.
    + rewrite orM_false_l
        by (apply (edge_not_pressed _ _ (held PIN_KEY2) _ Hs); reflexivity).
      rewrite (edge_not_pressed _ _ (held PIN_KEY2) _ Hs) by reflexivity.
      unfold bind at 1.
      rewrite orM_false_l
        by (apply (edge_not_pressed _ _ (held PIN_KEY2) _ Hs); reflexivity).
      rewrite He. reflexivity.
  - destruct Hb as [Hb|Hb]; [discriminate|].
    rewrite orM_false_l by (apply (edge_idle_head _ _ _ Hs)).
    rewrite (edge_idle_head _ _ _ Hs).
    unfold bind at 1.
    rewrite orM_false_l by (apply (edge_idle_head _ _ _ Hs)).
    rewrite (edge_idle_head _ _ _ Hs).
    unfold bind. rewrite time_sleep_eq.
    change (N.to_nat (50 / 10)) with 5%nat.
    edestruct (IH (S b - 5) (d - (5 - S b)) (a - (5 - S b - d))
                 (at_signal (drop 5 (signal st)) st))%nat as (a' & Ha' & E).
    + cbn [signal at_signal set_signal]. rewrite Hs. apply drop_press_cycle.
    + lia.
    + lia.
    + lia.
    + lia.
    + exists a'. split; [lia|exact E].
Qed.

(** X12. On a page of a viewer RIGHT and KEY1 mean next, LEFT and KEY2 mean
    back. When one of the four is pressed once, for 50 ms at least, the
    other buttons being left alone and the recording going on for 150 ms
    after the release, [wait_next] returns after the release: true for
    RIGHT and KEY1, false for LEFT and KEY2. *)
Theorem page_wait_reads_next_and_back (pin : N) (b d a : nat) (st : State) :
  pin = PIN_RIGHT \/ pin = PIN_KEY1 \/ pin = PIN_LEFT \/ pin = PIN_KEY2 ->
  signal st = press_cycle pin b d a ->
  (5 <= d)%nat -> (15 <= a)%nat ->
  exists a',
    (1 <= a' <= a)%nat /\
    wait_next st
    = Some (Ret ((pin =? PIN_RIGHT) || (pin =? PIN_KEY1)),
            at_signal (replicate a' idle) st).
Proof.
  intros Hp Hs Hd Ha.
  apply (wait_next_fuel_returns pin (fuel_of st) Hp b d a st Hs); try lia.
  unfold fuel_of. rewrite Hs. unfold press_cycle.
  rewrite !length_app, !length_replicate. lia.
Qed.

Lemma page_wait_reads_next_and_back_witness :
  exists a',
    (1 <= a' <= 30)%nat /\
    wait_next (boot (press_cycle PIN_KEY2 7 12 30))
    = Some (Ret false, at_signal (replicate a' idle) (boot (press_cycle PIN_KEY2 7 12 30))).
Proof.
  apply (page_wait_reads_next_and_back PIN_KEY2 7 12 30
           (boot (press_cycle PIN_KEY2 7 12 30))).
  - right. right. right. reflexivity.
  - reflexivity.
  - lia.
  - lia.
Defined.

Lemma range_from_lookup (step : nat) (fuel : nat) :
  forall (i n k j : nat),
    range_from fuel i n step !! k = Some j ->
    j = (i + k * step)%nat /\ (j < n)%nat.
Proof.
  induction fuel as [|fuel IH]; intros i n k j H; [discriminate|].
  cbn [range_from] in H. destruct (Nat.ltb_spec i n) as [Hlt|Hge]; [|discriminate].
  destruct k as [|k].
  - injection H as <-. lia.
  - apply IH in H. lia.
Qed.

Lemma range_from_length (step : nat) (fuel : nat) :
  forall (i n : nat),
    (1 <= step)%nat -> (n - i <= fuel)%nat ->
    (n - i <= length (range_from fuel i n step) * step < n - i + step)%nat.
Proof.
  induction fuel as [|fuel IH]; intros i n Hs Hf.
  - cbn [range_from length]. lia.
  - cbn [range_from]. destruct (Nat.ltb_spec i n) as [Hlt|Hge].
    + cbn [length]. rewrite Nat.mul_succ_l.
      specialize (IH (i + step)%nat n Hs).
      destruct (length (range_from fuel (i + step) n step)) as [|m];
        [lia|rewrite Nat.mul_succ_l in *; lia].
    + cbn [length]. lia.
Qed.

Lemma chunks_concat (size : nat) (l : list str) (fuel : nat) :
  (1 <= size)%nat ->
  forall i : nat,
    (length l - i <= fuel)%nat ->
    concat (map (fun j => slice l j (j + size)) (range_from fuel i (length l) size))
    = drop i l.
Proof.
  intros Hs. induction fuel as [|fuel IH]; intros i Hf.
  - cbn [range_from map concat]. rewrite drop_ge by lia. reflexivity.
  - cbn [range_from]. destruct (Nat.ltb_spec i (length l)) as [Hlt|Hge].
    + cbn [map concat]. rewrite IH by lia. unfold slice.
      replace (i + size - i)%nat with size by lia.
      rewrite <- drop_drop. apply take_drop.
    + cbn [map concat]. rewrite drop_ge by lia. reflexivity.
Qed.

(** X13. The pages of the events viewer partition the lines: for any list
    of lines, page [k] holds the lines [6k] to [6k+5] (fewer on the last
    page), no page is empty, the pages put end to end are the lines, and
    there are as many pages as it takes, the least [n] with [6n] at least
    the number of lines. *)
Theorem pages_partition_the_lines (last : list str) :
  concat (chunks_of 6 last) = last /\
  (forall k c,
      chunks_of 6 last !! k = Some c ->
      c = take 6 (drop (6 * k) last) /\ (1 <= length c <= 6)%nat) /\
  (length last <= 6 * length (chunks_of 6 last) < length last + 6)%nat.
Proof.
  unfold chunks_of, range_step. split_and!.
  - rewrite chunks_concat by lia. apply drop_0.
  - intros k c H. rewrite list_lookup_fmap in H.
    destruct (range_from (length last) 0 (length last) 6 !! k) as [j|] eqn:E;
      [|discriminate].
    injection H as <-. apply range_from_lookup in E. destruct E as (-> & Hlt).
    unfold slice. replace (0 + k * 6 + 6 - (0 + k * 6))%nat with 6%nat by lia.
    replace (0 + k * 6)%nat with (6 * k)%nat in * by lia.
    split; [reflexivity|]. rewrite length_take, length_drop. lia.
  - rewrite length_map.
    pose proof (range_from_length 6 (length last) 0 (length last)). lia.
  - rewrite length_map.
    pose proof (range_from_length 6 (length last) 0 (length last)). lia.
Qed.

Lemma pages_partition_the_lines_witness :
  (1 <= length (take 6 (drop (6 * 3) lines22)) <= 6)%nat.
Proof.
  destruct (pages_partition_the_lines lines22) as (_ & Hk & _).
  apply (Hk 3%nat). vm_compute. reflexivity.
Defined.

(** X14. The events viewer draws the pages in order and nothing else. When
    it returns it has drawn the first [k] pages, each followed by a blank
    line and the hint; it returns "End of events." only after the last
    page, and the empty text after a page left by back. It does not raise,
    and it changes neither the plugin object nor the threads. *)
Theorem viewer_draws_a_prefix_of_the_pages
  (v : view) (chunks : list (list str)) :
  forall (st st' : State) (o : outcome value),
    ui (self st) = Some v ->
    show_pages chunks st = Some (o, st') ->
    exists k,
      (k <= length chunks)%nat /\
      shown st' = shown st ++ map (fun c => c ++ [[]; NEXT_BACK]) (take k chunks) /\
      self st' = self st /\ threads st' = threads st /\ shell st' = shell st /\
      ((o = Ret (PStr (py "End of events.")) /\ k = length chunks) \/
       (o = Ret (PStr []) /\ (1 <= k)%nat)).
Proof.
  induction chunks as [|chunk rest IH]; intros st st' o Hui H.
  - cbn [show_pages] in H. injection H as <- <-. exists 0%nat.
    cbn [take map length]. rewrite app_nil_r. split_and!; auto.
  - cbn [show_pages] in H. unfold bind at 1 in H.
    rewrite (_draw_msg_eq _ _ v Hui) in H. unfold bind at 1 in H.
    destruct (wait_next (add_screen (chunk ++ [[]; NEXT_BACK]) st))
      as [[r s1]|] eqn:Ew; [|discriminate H].
    destruct (only_waits_wait_next _ _ _ Ew) as (b & g & -> & ->).
    destruct b.
    + apply IH in H; [|exact Hui].
      destruct H as (k & Hk & Hsh & Hself & Hth & Hshell & Ho).
      exists (S k). cbn [take map length].
      cbn [shown self threads shell add_screen at_signal set_signal] in *.
      rewrite Hsh, <- app_assoc.
      split; [lia|]. split; [reflexivity|].
      split; [exact Hself|]. split; [exact Hth|]. split; [exact Hshell|].
      destruct Ho as [(-> & ->)|(-> & Hk1)]; [left|right]; split; auto; lia.
    + injection H as <- <-. exists 1%nat. cbn [take map length].
      cbn [shown self threads shell add_screen at_signal set_signal].
      rewrite take_0.
      split; [lia|]. split; [reflexivity|].
      split; [reflexivity|]. split; [reflexivity|]. split; [reflexivity|].
      right. split; auto.
Qed.

Lemma viewer_draws_a_prefix_of_the_pages_witness :
  exists k,
    (k <= length (chunks_of 6 lines22))%nat /\
    shown (at_signal (replicate 10 idle ++ replicate 20 (held PIN_RIGHT)
                      ++ replicate 10 idle)
             (add_screen [py "6"; py "7"; py "8"; py "9"; py "10"; py "11"; []; NEXT_BACK]
                (add_screen [py "0"; py "1"; py "2"; py "3"; py "4"; py "5"; []; NEXT_BACK]
                   (boot next_then_back))))
    = shown (boot next_then_back)
      ++ map (fun c => c ++ [[]; NEXT_BACK]) (take k (chunks_of 6 lines22)).
Proof.
  assert (H : show_pages (chunks_of 6 lines22) (boot next_then_back)
              = Some (Ret (PStr []),
                      at_signal (replicate 10 idle ++ replicate 20 (held PIN_RIGHT)
                                 ++ replicate 10 idle)
                        (add_screen [py "6"; py "7"; py "8"; py "9"; py "10"; py "11";
                                     []; NEXT_BACK]
                           (add_screen [py "0"; py "1"; py "2"; py "3"; py "4"; py "5";
                                        []; NEXT_BACK]
                              (boot next_then_back)))))
    by (vm_compute; reflexivity).
  destruct (viewer_draws_a_prefix_of_the_pages View (chunks_of 6 lines22)
              (boot next_then_back) _ (Ret (PStr [])) (eq_refl (Some View)) H)
    as (k & Hk & Hsh & _).
  exists k. split; [exact Hk|exact Hsh].
Defined.

Lemma nonempty_true (s : str) : nonempty s = true <-> s <> [].
Proof. destruct s; cbn; split; congruence. Qed.

Lemma existsb_str_eqb (s : str) (seen : list str) :
  existsb (str_eqb s) seen = true <-> s ∈ seen.
Proof.
  rewrite existsb_exists, list_elem_of_In. split.
  - intros (x & Hin & He). apply str_eqb_eq in He. subst. exact Hin.
  - intros Hin. exists s. split; [exact Hin|]. apply str_eqb_eq. reflexivity.
Qed.

Lemma elem_of_rev {A} (x : A) (l : list A) : x ∈ rev l <-> x ∈ l.
Proof. rewrite !list_elem_of_In. symmetry. apply in_rev. Qed.

Lemma NoDup_rev_list {A} (l : list A) : NoDup l -> NoDup (rev l).
Proof. intros H. apply NoDup_ListNoDup, List.NoDup_rev, NoDup_ListNoDup, H. Qed.

Lemma last_seen_spec (l : list str) :
  forall seen : list str,
    NoDup seen ->
    NoDup (last_seen seen l) /\
    (forall x, x ∈ last_seen seen l <-> x ∈ seen \/ (x ∈ l /\ x <> [])).
Proof.
  induction l as [|s l IH]; intros seen Hnd.
  - cbn [last_seen]. split; [exact Hnd|]. intros x. rewrite elem_of_nil. tauto.
  - cbn [last_seen].
    destruct (nonempty s && negb (existsb (str_eqb s) seen)) eqn:Hc.
    + apply andb_true_iff in Hc. destruct Hc as (Hne & Hnot).
      apply nonempty_true in Hne. apply negb_true_iff in Hnot.
      assert (Hs : s ∉ seen).
      { intros Hin. apply existsb_str_eqb in Hin. congruence. }
      destruct (IH (seen ++ [s])) as (Hnd' & Hmem).
      { apply NoDup_app. split; [exact Hnd|]. split.
        - intros x Hx Hx'. apply list_elem_of_singleton in Hx'. subst. auto.
        - apply NoDup_singleton. }
      split; [exact Hnd'|]. intros x.
      rewrite Hmem, elem_of_app, list_elem_of_singleton, elem_of_cons.
      split; [intros [[?|?]|[? ?]]|intros [?|[[?|?] ?]]]; subst; auto.
    + destruct (IH seen Hnd) as (Hnd' & Hmem).
      split; [exact Hnd'|]. intros x. rewrite Hmem, elem_of_cons.
      split; [intros [?|[? ?]]; auto|].
      intros [?|[[->|?] Hx]]; auto.
      apply andb_false_iff in Hc. destruct Hc as [Hc|Hc].
      * apply nonempty_true in Hx. congruence.
      * apply negb_false_iff, existsb_str_eqb in Hc. auto.
Qed.

Lemma last_seen_distinct (l : list str) :
  forall seen : list str,
    NoDup (seen ++ l) -> Forall (fun s => s <> []) l ->
    last_seen seen l = seen ++ l.
Proof.
  induction l as [|s l IH]; intros seen Hnd Hne.
  - cbn [last_seen]. rewrite app_nil_r. reflexivity.
  - cbn [last_seen]. inversion Hne as [|? ? Hs Hl]; subst.
    apply nonempty_true in Hs. rewrite Hs. cbn [andb].
    assert (Hnot : existsb (str_eqb s) seen = false).
    { destruct (existsb (str_eqb s) seen) eqn:E; [|reflexivity].
      apply existsb_str_eqb in E. apply NoDup_app in Hnd.
      destruct Hnd as (_ & Hd & _). destruct (Hd s E). left. }
    rewrite Hnot. cbn [negb].
    rewrite IH; [rewrite <- app_assoc; reflexivity| |exact Hl].
    rewrite <- app_assoc. exact Hnd.
Qed.

(** X15. The networks listed by [_act_show_networks] are at most ten,
    without repetition and without empty names, and each was found. When
    no more than ten distinct names were found every one of them is
    listed. When the names found are distinct, the list is the first ten of
    them in the order they were found: of more than ten, the ones found
    last are the ones left out. Nothing is drawn when no name was found. *)
Theorem networks_listed_are_distinct (found : list str) :
  let newest := take 10 (rev (last_seen [] (rev found))) in
  NoDup newest /\
  (length newest <= 10)%nat /\
  (forall s, s ∈ newest -> s ∈ found /\ s <> []) /\
  ((length (last_seen [] (rev found)) <= 10)%nat ->
   forall s, s ∈ found -> s <> [] -> s ∈ newest) /\
  (NoDup found -> Forall (fun s => s <> []) found -> newest = take 10 found) /\
  _act_show_networks found
  = (if nonempty_list newest then show_networks newest
     else ret (PStr (py "No secured networks found."))).
Proof.
  intros newest. subst newest.
  destruct (last_seen_spec (rev found) [] (NoDup_nil_2)) as (Hnd & Hmem).
  split_and!.
  - eapply sublist_NoDup; [|apply sublist_take]. apply NoDup_rev_list. exact Hnd.
  - rewrite length_take. lia.
  - intros s Hs. eapply elem_of_sublist in Hs; [|apply sublist_take].
    rewrite elem_of_rev, Hmem, elem_of_nil, elem_of_rev in Hs. tauto.
  - intros Hlen s Hs Hne. rewrite take_ge by (rewrite length_rev; exact Hlen).
    rewrite elem_of_rev, Hmem, elem_of_rev. auto.
  - intros Hd Hf. rewrite last_seen_distinct.
    + cbn [app]. rewrite rev_involutive. reflexivity.
    + cbn [app]. apply NoDup_rev_list. exact Hd.
    + apply Forall_forall. intros x Hx. rewrite elem_of_rev in Hx.
      rewrite Forall_forall in Hf. auto.
  - reflexivity.
Qed.

Lemma networks_listed_are_distinct_witness :
  take 10 (rev (last_seen [] (rev [py "home"; py "cafe"])))
  = take 10 [py "home"; py "cafe"].
Proof.
  destruct (networks_listed_are_distinct [py "home"; py "cafe"])
    as (_ & _ & _ & _ & H & _).
  apply H.
  - apply (bool_decide_unpack _). vm_compute. exact I.
  - apply (bool_decide_unpack _). vm_compute. exact I.
Defined.

Lemma splitlines_from_head (s : str) :
  forall cur : str,
    s <> [] \/ cur <> [] ->
    exists l rest,
      splitlines_from cur s = (rev cur ++ l) :: rest /\
      l `prefix_of` s /\
      Forall (fun c => islinebreak c = false) l.
Proof.
  induction s as [|c s IH]; intros cur Hne.
  - destruct Hne as [Hne|Hne]; [congruence|].
    exists [], []. cbn [splitlines_from]. destruct cur; [congruence|].
    rewrite app_nil_r. split; [reflexivity|]. split; [apply prefix_nil|constructor].
  - cbn [splitlines_from].
    destruct (c =? 13) eqn:Ecr.
    + exists []. rewrite app_nil_r.
      destruct s as [|d s'];
        [|destruct (d =? 10)]; eexists; (split; [reflexivity|]);
        (split; [apply prefix_nil|constructor]).
    + destruct (islinebreak c) eqn:Elb.
      * exists []. rewrite app_nil_r. eexists. split; [reflexivity|].
        split; [apply prefix_nil|constructor].
      * destruct (IH (c :: cur)) as (l & rest & E & Hp & Hf); [right; discriminate|].
        exists (c :: l), rest. split.
        -- rewrite E. cbn [rev]. rewrite <- app_assoc. reflexivity.
        -- split; [apply prefix_cons; exact Hp|constructor; assumption].
Qed.

Lemma _first_line_spec (s : str) :
  exists l,
    _first_line s = Ret l /\
    l `prefix_of` s /\
    Forall (fun c => islinebreak c = false) l /\
    (s <> [] -> exists rest, splitlines s = l :: rest).
Proof.
  unfold _first_line. destruct s as [|c s].
  - exists []. cbn [nonempty]. split; [reflexivity|].
    split; [apply prefix_nil|]. split; [constructor|congruence].
  - cbn [nonempty].
    destruct (splitlines_from_head (c :: s) []) as (l & rest & E & Hp & Hf);
      [left; discriminate|].
    exists l. unfold splitlines. rewrite E. cbn [rev app].
    split; [reflexivity|]. split; [exact Hp|]. split; [exact Hf|eauto].
Qed.

(** X16. [_first_line] does not raise, whatever the text: the lines of a
    text that is not empty are never none. It returns the empty text for
    the empty text, and otherwise the beginning of the text up to its first
    line boundary, without the boundary. *)
Theorem first_line_is_total (s : str) :
  exists l,
    _first_line s = Ret l /\
    l `prefix_of` s /\
    Forall (fun c => islinebreak c = false) l /\
    (s <> [] -> exists rest, splitlines s = l :: rest).
Proof. apply _first_line_spec. Qed.

Lemma first_line_is_total_witness :
  exists rest, splitlines (py "active") = py "active" :: rest.
Proof.
  destruct (first_line_is_total (py "active")) as (l & E & _ & _ & H).
  injection E as <-. apply H. discriminate.
Defined.

Lemma splitlines_nonempty (s : str) : s <> [] -> (1 <= length (splitlines s))%nat.
Proof.
  intros H. destruct (_first_line_spec s) as (l & _ & _ & _ & Hs).
  destruct (Hs H) as (rest & ->). cbn [length]. lia.
Qed.

(** X17. The result screen always fits: it is the label with a colon,
    between one and eight lines of content, a blank line and the footer,
    eleven lines at most, whatever the action returned. The content is
    the line "Done." when the action returned nothing, and the first lines
    of its text otherwise. *)
Theorem result_screen_has_one_to_eight_lines (label : str) (out : value) :
  exists content,
    result_lines label out = [label ++ py ":"] ++ content ++ [[]; OK_BACK] /\
    (1 <= length content <= 8)%nat /\
    (4 <= length (result_lines label out) <= 11)%nat /\
    (truthy out = false -> content = [py "Done."]) /\
    (forall s, out = PStr s -> s <> [] -> content = take 8 (splitlines s)).
Proof.
  destruct (truthy out) eqn:Ht.
  - destruct out as [|[|c s]]; try discriminate Ht.
    exists (take 8 (splitlines (c :: s))).
    assert (Hl : (1 <= length (splitlines (c :: s)))%nat)
      by (apply splitlines_nonempty; discriminate).
    assert (Hc : (1 <= length (take 8 (splitlines (c :: s))) <= 8)%nat)
      by (rewrite length_take; lia).
    split; [reflexivity|]. split; [exact Hc|]. split.
    + rewrite result_lines_nonempty by discriminate.
      rewrite !length_app. cbn [length]. lia.
    + split; [discriminate|]. intros s0 [= <-] _. reflexivity.
  - exists [py "Done."]. rewrite (result_lines_empty label out Ht).
    split; [reflexivity|]. split; [cbn [length]; lia|].
    split; [cbn [length]; lia|]. split; [reflexivity|].
    intros s -> Hs. destruct s; [congruence|discriminate Ht].
Qed.

Lemma result_screen_has_one_to_eight_lines_witness :
  exists content,
    result_lines (py "Status") (PStr (py "up 3 hours"))
    = [py "Status" ++ py ":"] ++ content ++ [[]; OK_BACK] /\
    content = take 8 (splitlines (py "up 3 hours")).
Proof.
  destruct (result_screen_has_one_to_eight_lines (py "Status") (PStr (py "up 3 hours")))
    as (content & E & _ & _ & _ & H).
  exists content. split; [exact E|]. apply (H (py "up 3 hours")).
  - reflexivity.
  - discriminate.
Defined.

End OnscreenMenuFacts.
